(** * CodeDiffer: the persisted-state synchronisation layer of [src/App.jsx]

    A shallow embedding of the React component [App] and of the part of the
    JavaScript platform it calls (strings, numbers, JSON, [localStorage],
    timers, the clipboard and the diff editor's content listeners), followed
    by the properties of the synchronisation layer.

    Conventions of the embedding:
    - a JavaScript string is the list of its UTF-16 code units ([list N]);
    - a JavaScript number is [NaN], an infinity, a signed zero or a signed
      decimal [digits * 10 ^ exponent]; rounding to binary64 is not modelled
      (the program performs no arithmetic on numbers);
    - a call that can throw returns a [completion];
    - React state is committed in batches: the setter calls of one handler are
      queued and applied together, then the effects whose dependencies changed
      run. *)

From Stdlib Require Import NArith ZArith Ascii String Bool Lia.
From stdpp Require Import gmap list strings.

Local Open Scope N_scope.

(** ** JavaScript strings *)

Abbreviation jstring := (list N).

(** [str s] is the JavaScript string with the characters of the literal [s]. *)
Fixpoint str (s : string) : jstring :=
  match s with
  | EmptyString => []
  | String a s' => N_of_ascii a :: str s'
  end.

Module Char.
Definition TAB : N := 9.
Definition LF : N := 10.
Definition VT : N := 11.
Definition FF : N := 12.
Definition CR : N := 13.
Definition SPACE : N := 32.
Definition QUOTE : N := 34.
Definition PLUS : N := 43.
Definition COMMA : N := 44.
Definition MINUS : N := 45.
Definition DOT : N := 46.
Definition SLASH : N := 47.
Definition ZERO : N := 48.
Definition COLON : N := 58.
Definition LBRACKET : N := 91.
Definition BACKSLASH : N := 92.
Definition RBRACKET : N := 93.
Definition LBRACE : N := 123.
Definition RBRACE : N := 125.

Definition is_digit (c : N) : bool := (48 <=? c) && (c <=? 57).

(** Value of a hexadecimal digit character. *)
Definition hex_value (c : N) : option N :=
if (48 <=? c) && (c <=? 57) then Some (c - 48)
else if (97 <=? c) && (c <=? 102) then Some (c - 87)
else if (65 <=? c) && (c <=? 70) then Some (c - 55)
else None.

(** Lower-case hexadecimal digit character of a value below 16. *)
Definition hex_char (d : N) : N := if d <? 10 then 48 + d else 87 + d.

Definition is_high_surrogate (c : N) : bool := (0xD800 <=? c) && (c <=? 0xDBFF).
Definition is_low_surrogate (c : N) : bool := (0xDC00 <=? c) && (c <=? 0xDFFF).
End Char.

(** ** Decimal digits *)

Module Digits.
(** Digits are numbers below ten, most significant first. *)

Definition value (ds : list N) : N := fold_left (fun acc d => acc * 10 + d) ds 0.

Fixpoint of_N_aux (fuel : nat) (n : N) (acc : list N) : list N :=
match fuel with
| O => n :: acc
| S f => if n <? 10 then n :: acc else of_N_aux f (n / 10) (n mod 10 :: acc)
end.

Definition of_N (n : N) : list N := of_N_aux (N.to_nat (N.log2 n)) n [].

Definition chars (ds : list N) : jstring := map (fun d => Char.ZERO + d) ds.

(** The longest prefix of digit characters, as digits, and the rest. *)
Fixpoint span (s : jstring) : list N * jstring :=
match s with
| c :: s' =>
  if Char.is_digit c then let '(ds, r) := span s' in ((c - Char.ZERO) :: ds, r)
  else ([], s)
| [] => ([], [])
end.

Fixpoint strip_leading_zeros (ds : list N) : list N :=
match ds with
| 0 :: ds' => strip_leading_zeros ds'
| _ => ds
end.

Definition strip_trailing_zeros (ds : list N) : list N :=
rev (strip_leading_zeros (rev ds)).

Definition zeros (n : nat) : list N := repeat 0 n.
End Digits.

(** ** JavaScript numbers *)

Inductive number :=
| NaN
| Infinity (negative : bool)
| Zero (negative : bool)
| Finite (negative : bool) (digits : positive) (exponent : Z).

#[global] Instance number_eq_dec : EqDecision number.
Proof. solve_decision. Defined.

(** The canonical form of a finite number has no factor ten in [digits]. *)
Definition number_wf (x : number) : Prop :=
  match x with
  | Finite _ m _ => N.pos m mod 10 <> 0
  | _ => True
  end.

Module Num.
(** The number [± value ds * 10 ^ e], in canonical form. *)
Definition of_digits (negative : bool) (ds : list N) (e : Z) : number :=
let ds' := Digits.strip_trailing_zeros ds in
match Digits.value ds' with
| 0 => Zero negative
| N.pos m => Finite negative m (e + Z.of_nat (length ds - length ds'))
end.

Definition of_N (n : N) : number := of_digits false (Digits.of_N n) 0.

Definition of_Z (z : Z) : number :=
of_digits (z <? 0)%Z (Digits.of_N (Z.abs_N z)) 0.

(** Number::toString(x), radix 10 (ECMA-262 6.1.6.1.20). *)
Definition toString (x : number) : jstring :=
match x with
| NaN => str "NaN"
| Infinity neg => (if neg then [Char.MINUS] else []) ++ str "Infinity"
| Zero _ => str "0"
| Finite neg m e =>
  let ds := Digits.of_N (N.pos m) in
  let k := Z.of_nat (length ds) in
  let n := (e + k)%Z in
  (if neg then [Char.MINUS] else []) ++
  (if (k <=? n)%Z && (n <=? 21)%Z then
     Digits.chars (ds ++ Digits.zeros (Z.to_nat (n - k)))
   else if (0 <? n)%Z && (n <=? 21)%Z then
     Digits.chars (take (Z.to_nat n) ds) ++ [Char.DOT] ++
     Digits.chars (drop (Z.to_nat n) ds)
   else if (-6 <? n)%Z && (n <=? 0)%Z then
     str "0." ++ Digits.chars (Digits.zeros (Z.to_nat (- n)) ++ ds)
   else
     let ex := (n - 1)%Z in
     Digits.chars (take 1 ds) ++
     (match drop 1 ds with
      | [] => []
      | fs => [Char.DOT] ++ Digits.chars fs
      end) ++
     str "e" ++ [if (ex <? 0)%Z then Char.MINUS else Char.PLUS] ++
     Digits.chars (Digits.of_N (Z.abs_N ex)))
end.

Definition is_finite (x : number) : bool :=
match x with
| NaN | Infinity _ => false
| _ => true
end.

(** *** Binary64

A Number is an IEEE 754 binary64 value.  The model writes such a value
by the digits of Number::toString, the shortest decimal that denotes it,
and every text that is read as a number is rounded to the nearest
binary64 value, to the even one of two, and written that way. *)

Local Open Scope Z_scope.

(** [x * 2 ^ k] and [x * 10 ^ k] when [0 <= k], and [x] otherwise: the two
sides of a comparison or of a division by a power are scaled so that
both stay integers. *)
Definition shift (x k : Z) : Z := if 0 <=? k then x * 2 ^ k else x.
Definition shift10 (x k : Z) : Z := if 0 <=? k then x * 10 ^ k else x.

(** The integer nearest to [a / b], the even one of two. *)
Definition round_div (a b : Z) : Z :=
let q := a / b in
match 2 * (a mod b) ?= b with
| Lt => q
| Gt => q + 1
| Eq => if Z.even q then q else q + 1
end.

(** The multiple [n * 2 ^ s] of the binary64 quantum nearest to the
positive rational [a / b]: 53 significant bits, and the quantum
[2 ^ -1074] for the subnormal values. *)
Definition nearest (a b : Z) : Z * Z :=
let k0 := Z.log2 a - Z.log2 b in
let k := if shift a (- k0) <? shift b k0 then k0 - 1 else k0 in
let s := Z.max (k - 52) (-1074) in
(round_div (shift a (- s)) (shift b s), s).

Inductive rounded :=
| Underflow
| Overflow
| Double (n s : Z).   (* the value [n * 2 ^ s] *)

(** The binary64 value of the decimal [m * 10 ^ e], for [0 < m].  A
decimal below [10 ^ -324] is below half of the least positive value,
and one from [10 ^ 309] on is beyond the greatest. *)
Definition to_double (m e : Z) : rounded :=
let l := Z.of_nat (length (Digits.of_N (Z.to_N m))) in
if l + e <=? -324 then Underflow
else if 309 <? l + e then Overflow
else
  let '(n, s) := nearest (shift10 m e) (shift10 1 (- e)) in
  if n =? 0 then Underflow
  else if (0 <=? s) && (2 ^ 1024 <=? n * 2 ^ s) then Overflow
  else Double n s.

Definition same_double (n1 s1 n2 s2 : Z) : bool :=
shift n1 (s1 - s2) =? shift n2 (s2 - s1).

(** The decimal [c * 10 ^ e] denotes the double [n * 2 ^ s]. *)
Definition rounds_to (c e n s : Z) : bool :=
match to_double c e with
| Double n' s' => same_double n' s' n s
| _ => false
end.

(** The greatest [t' <= t] with [10 ^ t' <= a / b]. *)
Fixpoint log10_down (fuel : nat) (a b t : Z) : Z :=
match fuel with
| O => t
| S f => if shift10 b t <=? shift10 a (- t) then t else log10_down f a b (t - 1)
end.

(** Number::toString chooses the least number [p] of digits for which a
decimal of [p] digits denotes the value, and among these the decimal
nearest to the value.  Such a decimal is one of the two of that length
next to the value.  Seventeen digits always suffice. *)
Fixpoint shortest_aux (fuel : nat) (a b n s t p : Z) : Z * Z :=
let e := t - p + 1 in
let num := shift10 a (- e) in
let den := shift10 b e in
let lo := num / den in
let hi := lo + 1 in
let closest :=
  match 2 * (num mod den) ?= den with
  | Lt => lo
  | Gt => hi
  | Eq => if Z.even lo then lo else hi
  end in
match fuel with
| O => (closest, e)
| S f =>
    match rounds_to lo e n s, rounds_to hi e n s with
    | true, true => (closest, e)
    | true, false => (lo, e)
    | false, true => (hi, e)
    | false, false => shortest_aux f a b n s t (p + 1)
    end
end.

(** The digits and the exponent of the double [n * 2 ^ s]. *)
Definition shortest (n s : Z) : Z * Z :=
let a := shift n s in
let b := shift 1 (- s) in
let t := log10_down 6 a b ((Z.log2 a - Z.log2 b) * 30103 / 100000 + 2) in
shortest_aux 16 a b n s t 1.

(** The Number that a decimal denotes. *)
Definition binary64 (x : number) : number :=
match x with
| Finite neg m e =>
    match to_double (Z.pos m) e with
    | Underflow => Zero neg
    | Overflow => Infinity neg
    | Double n s =>
        let '(c, e') := shortest n s in
        of_digits neg (Digits.of_N (Z.to_N c)) e'
    end
| _ => x
end.

(** The Number denoted by the digits [ds] at the exponent [e]. *)
Definition of_decimal (negative : bool) (ds : list N) (e : Z) : number :=
binary64 (of_digits negative ds e).
End Num.

Arguments Num.binary64 : simpl never.

(** ** JavaScript values *)

(** The values the component can hold: primitives, and the arrays and plain
    objects that [JSON.parse] can return.  An object is the list of its own
    properties in enumeration order. *)
#[local] Unset Elimination Schemes.
Inductive value :=
| VUndefined
| VNull
| VBool (b : bool)
| VNumber (x : number)
| VString (s : jstring)
| VArray (elements : list value)
| VObject (members : list (jstring * value)).
#[local] Set Elimination Schemes.

(** Outcome of a call that may throw. *)
Inductive error :=
| SyntaxError
| SecurityError
| QuotaExceededError
| ReferenceError
| TypeError
| NotAllowedError
| Error.

Inductive completion (A : Type) :=
| Normal (a : A)
| Throw (e : error).
Arguments Normal {A} a.
Arguments Throw {A} e.

Definition bind {A B} (c : completion A) (k : A -> completion B) : completion B :=
  match c with
  | Normal a => k a
  | Throw e => Throw e
  end.

(** [try { body } catch { handler }] *)
Definition try_catch {A} (body : completion A) (handler : completion A) : completion A :=
  match body with
  | Normal a => Normal a
  | Throw _ => handler
  end.

#[global] Instance completion_bind : MBind completion := fun A B k c => bind c k.
#[global] Instance completion_ret : MRet completion := fun A a => Normal a.
#[global] Instance completion_fmap : FMap completion := fun A B f c =>
  match c with
  | Normal a => Normal (f a)
  | Throw e => Throw e
  end.

Definition throws {A} (c : completion A) : bool :=
  match c with
  | Normal _ => false
  | Throw _ => true
  end.

Module JS.
Definition join (sep : jstring) (parts : list jstring) : jstring :=
match parts with
| [] => []
| p :: ps => p ++ concat (map (fun q => sep ++ q) ps)
end.

Definition is_primitive (v : value) : bool :=
match v with
| VArray _ | VObject _ => false
| _ => true
end.

(** The object has an own property [k]. *)
Definition has_own (k : jstring) (ms : list (jstring * value)) : bool :=
existsb (fun m => bool_decide (fst m = k)) ms.

(** ToString.  An array or an object is first made a primitive
(OrdinaryToPrimitive).  For an array that is Array.prototype.toString,
the [join] of its elements.  For an object it is
Object.prototype.toString, unless the object has an own property
[toString]: read from a JSON text, that is not a function, nor is an
own [valueOf], and the inherited [valueOf] returns the object itself,
so no method gives a primitive and the conversion throws a TypeError. *)
Fixpoint ToString (v : value) : completion jstring :=
match v with
| VUndefined => Normal (str "undefined")
| VNull => Normal (str "null")
| VBool true => Normal (str "true")
| VBool false => Normal (str "false")
| VNumber x => Normal (Num.toString x)
| VString s => Normal s
| VArray l =>
  match
    (fix go (l : list value) : completion (list jstring) :=
       match l with
       | [] => Normal []
       | e :: r =>
           match
             match e with
             | VUndefined | VNull => Normal []
             | _ => ToString e
             end
           with
           | Normal p =>
               match go r with
               | Normal ps => Normal (p :: ps)
               | Throw err => Throw err
               end
           | Throw err => Throw err
           end
       end) l
  with
  | Normal parts => Normal (join [Char.COMMA] parts)
  | Throw err => Throw err
  end
| VObject ms =>
  if has_own (str "toString") ms then Throw TypeError
  else Normal (str "[object Object]")
end.

Definition ToBoolean (v : value) : bool :=
match v with
| VUndefined | VNull => false
| VBool b => b
| VNumber NaN | VNumber (Zero _) => false
| VNumber _ => true
| VString [] => false
| VString _ => true
| VArray _ | VObject _ => true
end.

(** White space and line terminators trimmed by StringToNumber. *)
Definition is_str_whitespace (c : N) : bool :=
(c =? 9) || (c =? 10) || (c =? 11) || (c =? 12) || (c =? 13) || (c =? 32) ||
(c =? 0xA0) || (c =? 0x1680) || ((0x2000 <=? c) && (c <=? 0x200A)) ||
(c =? 0x2028) || (c =? 0x2029) || (c =? 0x202F) || (c =? 0x205F) ||
(c =? 0x3000) || (c =? 0xFEFF).

Fixpoint trim_start (s : jstring) : jstring :=
match s with
| c :: s' => if is_str_whitespace c then trim_start s' else s
| [] => []
end.

Definition trim (s : jstring) : jstring := rev (trim_start (rev (trim_start s))).

(** Optional ExponentPart at the end of a literal: [e], optional sign, at
least one digit, nothing after. *)
Definition exponent_part (s : jstring) : option Z :=
match s with
| [] => Some 0%Z
| c :: s' =>
  if (c =? 101) || (c =? 69) then
    let '(neg, s'') :=
      match s' with
      | 43 :: r => (false, r)
      | 45 :: r => (true, r)
      | _ => (false, s')
      end in
    match Digits.span s'' with
    | (d :: ds, []) =>
        let ex := Z.of_N (Digits.value (d :: ds)) in
        Some (if neg then (- ex)%Z else ex)
    | _ => None
    end
  else None
end.

(** StrUnsignedDecimalLiteral. *)
Definition unsigned_decimal (neg : bool) (s : jstring) : number :=
if decide (s = str "Infinity") then Infinity neg
else
let '(ip, r) := Digits.span s in
let '(fp, r') :=
  match r with
  | 46 :: r1 => Digits.span r1
  | _ => ([], r)
  end in
match ip, fp with
| [], [] => NaN
| _, _ =>
    match exponent_part r' with
    | Some ex => Num.of_decimal neg (ip ++ fp) (ex - Z.of_nat (length fp))
    | None => NaN
    end
end.

Fixpoint radix_value (radix : N) (digit : N -> option N) (s : jstring) (acc : N)
: option N :=
match s with
| [] => Some acc
| c :: s' =>
  match digit c with
  | Some d => if d <? radix then radix_value radix digit s' (acc * radix + d) else None
  | None => None
  end
end.

Definition non_decimal (radix : N) (s : jstring) : number :=
match s with
| [] => NaN
| _ =>
  match radix_value radix Char.hex_value s 0 with
  | Some n => Num.binary64 (Num.of_N n)
  | None => NaN
  end
end.

(** StringToNumber (ECMA-262 7.1.4.1.1). *)
Definition StringToNumber (s : jstring) : number :=
match trim s with
| [] => Zero false
| 43 :: r => unsigned_decimal false r
| 45 :: r => unsigned_decimal true r
| 48 :: 120 :: r | 48 :: 88 :: r => non_decimal 16 r
| 48 :: 111 :: r | 48 :: 79 :: r => non_decimal 8 r
| 48 :: 98 :: r | 48 :: 66 :: r => non_decimal 2 r
| r => unsigned_decimal false r
end.

(** ToNumber, the conversion performed by the call [Number(v)]: an array
or an object is made a primitive first, which gives the string of
ToString or throws as ToString does. *)
Definition ToNumber (v : value) : completion number :=
match v with
| VUndefined => Normal NaN
| VNull => Normal (Zero false)
| VBool true => Normal (Finite false 1 0)
| VBool false => Normal (Zero false)
| VNumber x => Normal x
| VString s => Normal (StringToNumber s)
| VArray _ | VObject _ =>
  match ToString v with
  | Normal s => Normal (StringToNumber s)
  | Throw err => Throw err
  end
end.

Definition Number (v : value) : completion value :=
match ToNumber v with
| Normal x => Normal (VNumber x)
| Throw err => Throw err
end.
Definition Boolean (v : value) : value := VBool (ToBoolean v).

(** [a || b] *)
Definition or (a b : value) : value := if ToBoolean a then a else b.

(** Structural comparison of two values. *)
Fixpoint value_eqb (a b : value) : bool :=
match a, b with
| VUndefined, VUndefined => true
| VNull, VNull => true
| VBool x, VBool y => Bool.eqb x y
| VNumber x, VNumber y => bool_decide (x = y)
| VString s, VString t => bool_decide (s = t)
| VArray l, VArray l' =>
  (fix go (l l' : list value) : bool :=
     match l, l' with
     | [], [] => true
     | x :: r, y :: r' => value_eqb x y && go r r'
     | _, _ => false
     end) l l'
| VObject ms, VObject ms' =>
  (fix go (ms ms' : list (jstring * value)) : bool :=
     match ms, ms' with
     | [], [] => true
     | m :: r, m' :: r' =>
         bool_decide (fst m = fst m') && value_eqb (snd m) (snd m') && go r r'
     | _, _ => false
     end) ms ms'
| _, _ => false
end.

(** [Object.is(a, b)], the comparison React applies to states and to effect
dependencies: [NaN] is [NaN], and the two zeros differ.  For arrays and
objects [Object.is] is identity.  The component never builds one: those
it holds were read from storage when it mounted, a fresh one for each
state, and a state keeps its object until a setter replaces it.  The
comparison by structure below is therefore [Object.is] whenever one of
the two values is a primitive, and when a state is compared with the
value it had before; it is not when two states hold objects of the same
structure and [handleSwap] exchanges them, which is why the store calls
of [handleSwap] are described for primitive buffers only. *)
Definition Object_is (a b : value) : bool := value_eqb a b.

(** [a === b]: as [Object.is], except that [NaN] differs from itself and the
two zeros are equal. *)
Definition strict_equal (a b : value) : bool :=
match a, b with
| VNumber NaN, VNumber _ => false
| VNumber (Zero _), VNumber (Zero _) => true
| _, _ => value_eqb a b
end.

(** [!a] *)
Definition not (a : value) : value := VBool (negb (ToBoolean a)).
End JS.

(** ** The number input *)

Module HTML.
(** A valid floating-point number (HTML Standard, common microsyntaxes): an
optional minus sign, then digits, or a dot and digits, or both, then
optionally an exponent: [e] or [E], an optional sign, digits. *)
Definition valid_floating_point_number (s : jstring) : bool :=
let s1 :=
  match s with
  | c :: r => if c =? Char.MINUS then r else s
  | [] => s
  end in
let '(ip, r) := Digits.span s1 in
let '(body, r') :=
  match r with
  | c :: r1 =>
      if c =? Char.DOT then
        let '(fp, r2) := Digits.span r1 in (negb (bool_decide (fp = [])), r2)
      else (negb (bool_decide (ip = [])), r)
  | [] => (negb (bool_decide (ip = [])), r)
  end in
body &&
match r' with
| [] => true
| c :: r1 =>
    ((c =? 101) || (c =? 69)) &&
    let r2 :=
      match r1 with
      | c' :: r3 => if (c' =? Char.PLUS) || (c' =? Char.MINUS) then r3 else r1
      | [] => r1
      end in
    match Digits.span r2 with
    | (_ :: _, []) => true
    | _ => false
    end
end.

(** The [value] of an [<input type="number">] in which the user typed
[typed] (value sanitization): the text itself when it is a valid
floating-point number that denotes a finite number, and the empty string
for every other text. *)
Definition number_input_value (typed : jstring) : jstring :=
if valid_floating_point_number typed && Num.is_finite (JS.StringToNumber typed)
then typed else [].
End HTML.

(** ** JSON *)

Module JSON.
(** *** Serialisation *)

Definition hex4 (c : N) : jstring :=
map Char.hex_char [c / 4096 mod 16; c / 256 mod 16; c / 16 mod 16; c mod 16].

(** [\uXXXX] *)
Definition unicode_escape (c : N) : jstring := [Char.BACKSLASH; 117] ++ hex4 c.

(** The characters of QuoteJSONString, without the enclosing quotes: the
string is read by code points, so a surrogate is copied only as part of
a pair. *)
Fixpoint quote_chars (s : jstring) : jstring :=
match s with
| [] => []
| c :: s' =>
  if c =? 8 then [Char.BACKSLASH; 98] ++ quote_chars s'
  else if c =? 9 then [Char.BACKSLASH; 116] ++ quote_chars s'
  else if c =? 10 then [Char.BACKSLASH; 110] ++ quote_chars s'
  else if c =? 12 then [Char.BACKSLASH; 102] ++ quote_chars s'
  else if c =? 13 then [Char.BACKSLASH; 114] ++ quote_chars s'
  else if c =? Char.QUOTE then [Char.BACKSLASH; Char.QUOTE] ++ quote_chars s'
  else if c =? Char.BACKSLASH then [Char.BACKSLASH; Char.BACKSLASH] ++ quote_chars s'
  else if c <? 32 then unicode_escape c ++ quote_chars s'
  else if Char.is_high_surrogate c then
    match s' with
    | c2 :: s'' =>
        if Char.is_low_surrogate c2 then c :: c2 :: quote_chars s''
        else unicode_escape c ++ quote_chars s'
    | [] => unicode_escape c
    end
  else if Char.is_low_surrogate c then unicode_escape c ++ quote_chars s'
  else c :: quote_chars s'
end.

Definition quote (s : jstring) : jstring :=
[Char.QUOTE] ++ quote_chars s ++ [Char.QUOTE].

Definition serialize_number (x : number) : jstring :=
match x with
| NaN | Infinity _ => str "null"
| _ => Num.toString x
end.

(** SerializeJSONProperty without indentation; [None] is [undefined]. *)
Fixpoint serialize (v : value) : option jstring :=
match v with
| VUndefined => None
| VNull => Some (str "null")
| VBool true => Some (str "true")
| VBool false => Some (str "false")
| VNumber x => Some (serialize_number x)
| VString s => Some (quote s)
| VArray l =>
  Some ([Char.LBRACKET] ++
        JS.join [Char.COMMA]
          (map (fun e => match serialize e with
                         | Some t => t
                         | None => str "null"
                         end) l) ++
        [Char.RBRACKET])
| VObject ms =>
  Some ([Char.LBRACE] ++
        JS.join [Char.COMMA]
          (omap (fun m => match serialize (snd m) with
                          | Some t => Some (quote (fst m) ++ [Char.COLON] ++ t)
                          | None => None
                          end) ms) ++
        [Char.RBRACE])
end.

(** [JSON.stringify(v)]: a string, or [undefined] for [undefined].  Values
of the model have no cycles and no BigInt, so the call does not throw. *)
Definition stringify (v : value) : value :=
match serialize v with
| Some t => VString t
| None => VUndefined
end.

(** *** Parsing *)

Definition is_ws (c : N) : bool :=
(c =? Char.TAB) || (c =? Char.LF) || (c =? Char.CR) || (c =? Char.SPACE).

Fixpoint skip_ws (s : jstring) : jstring :=
match s with
| c :: s' => if is_ws c then skip_ws s' else s
| [] => []
end.

Definition escape_value (e : N) : option N :=
if e =? Char.QUOTE then Some Char.QUOTE
else if e =? Char.BACKSLASH then Some Char.BACKSLASH
else if e =? Char.SLASH then Some Char.SLASH
else if e =? 98 then Some 8
else if e =? 102 then Some 12
else if e =? 110 then Some 10
else if e =? 114 then Some 13
else if e =? 116 then Some 9
else None.

Definition hex4_value (h1 h2 h3 h4 : N) : option N :=
match Char.hex_value h1, Char.hex_value h2, Char.hex_value h3, Char.hex_value h4 with
| Some a, Some b, Some c, Some d => Some (((a * 16 + b) * 16 + c) * 16 + d)
| _, _, _, _ => None
end.

Definition prepend (c : N) (r : option (jstring * jstring)) : option (jstring * jstring) :=
match r with
| Some (t, rest) => Some (c :: t, rest)
| None => None
end.

(** The characters of a string literal after its opening quote, up to and
including the closing quote. *)
Fixpoint parse_chars (s : jstring) : option (jstring * jstring) :=
match s with
| [] => None
| c :: s' =>
  if c =? Char.QUOTE then Some ([], s')
  else if c =? Char.BACKSLASH then
    match s' with
    | e :: s'' =>
        if e =? 117 then
          match s'' with
          | h1 :: h2 :: h3 :: h4 :: s3 =>
              match hex4_value h1 h2 h3 h4 with
              | Some u => prepend u (parse_chars s3)
              | None => None
              end
          | _ => None
          end
        else
          match escape_value e with
          | Some u => prepend u (parse_chars s'')
          | None => None
          end
    | [] => None
    end
  else if c <? 32 then None
  else prepend c (parse_chars s')
end.

(** A JSON number: optional minus, an integer part without superfluous
leading zero, an optional fraction of at least one digit, an optional
exponent of at least one digit. *)
Definition parse_decimal (s : jstring) : option (number * jstring) :=
let '(neg, s1) :=
match s with
| c :: r => if c =? Char.MINUS then (true, r) else (false, s)
| [] => (false, s)
end in
let '(ip, s2) := Digits.span s1 in
match ip with
| [] => None
| d :: ip' =>
  if (d =? 0) && negb (bool_decide (ip' = [])) then None
  else
    let frac :=
      match s2 with
      | c :: r =>
          if c =? Char.DOT then
            match Digits.span r with
            | ([], _) => None
            | (fp, s3) => Some (fp, s3)
            end
          else Some ([], s2)
      | [] => Some ([], s2)
      end in
    match frac with
    | None => None
    | Some (fp, s3) =>
        let expo :=
          match s3 with
          | c :: r =>
              if (c =? 101) || (c =? 69) then
                let '(eneg, r1) :=
                  match r with
                  | c' :: r' =>
                      if c' =? Char.PLUS then (false, r')
                      else if c' =? Char.MINUS then (true, r')
                      else (false, r)
                  | [] => (false, r)
                  end in
                match Digits.span r1 with
                | ([], _) => None
                | (es, s4) =>
                    let ex := Z.of_N (Digits.value es) in
                    Some (if eneg then (- ex)%Z else ex, s4)
                end
              else Some (0%Z, s3)
          | [] => Some (0%Z, s3)
          end in
        match expo with
        | None => None
        | Some (ex, s4) =>
            Some (Num.of_digits neg (ip ++ fp) (ex - Z.of_nat (length fp)), s4)
        end
    end
end.

(** The Number that the text of a JSON number denotes. *)
Definition parse_number (s : jstring) : option (number * jstring) :=
match parse_decimal s with
| Some (x, r) => Some (Num.binary64 x, r)
| None => None
end.

(** *** Objects built by the parser *)

(** An array index is a canonical numeric string below [2^32 - 1]; such keys
are enumerated first, in ascending order. *)
Definition array_index (k : jstring) : option N :=
match Digits.span k with
| ([0], []) => Some 0
| (0 :: _, _) => None
| (d :: ds, []) =>
  let n := Digits.value (d :: ds) in
  if n <? 4294967295 then Some n else None
| _ => None
end.

Fixpoint replace_member (k : jstring) (v : value) (ms : list (jstring * value))
: option (list (jstring * value)) :=
match ms with
| [] => None
| (k', v') :: ms' =>
  if decide (k = k') then Some ((k, v) :: ms')
  else match replace_member k v ms' with
       | Some r => Some ((k', v') :: r)
       | None => None
       end
end.

Fixpoint insert_index (i : N) (k : jstring) (v : value) (ms : list (jstring * value))
: list (jstring * value) :=
match ms with
| [] => [(k, v)]
| (k', v') :: ms' =>
  match array_index k' with
  | Some j => if j <? i then (k', v') :: insert_index i k v ms' else (k, v) :: ms
  | None => (k, v) :: ms
  end
end.

(** CreateDataProperty on the object under construction. *)
Definition define_member (ms : list (jstring * value)) (k : jstring) (v : value)
: list (jstring * value) :=
match replace_member k v ms with
| Some ms' => ms'
| None =>
  match array_index k with
  | Some i => insert_index i k v ms
  | None => ms ++ [(k, v)]
  end
end.

(** *** The recursive-descent parser, with fuel for the nesting. *)

(** The rest of [s] after the prefix [p], if [s] starts with [p]. *)
Fixpoint strip_prefix (p s : jstring) : option jstring :=
match p, s with
| [], _ => Some s
| a :: p', c :: s' => if c =? a then strip_prefix p' s' else None
| _ :: _, [] => None
end.

Fixpoint parse_value (fuel : nat) (s : jstring) : option (value * jstring) :=
match fuel with
| O => None
| S fuel' =>
  match s with
  | [] => None
  | c :: r =>
      if c =? Char.QUOTE then
        match parse_chars r with
        | Some (t, r') => Some (VString t, r')
        | None => None
        end
      else if c =? Char.LBRACKET then
        match skip_ws r with
        | [] => None
        | c' :: r' =>
            if c' =? Char.RBRACKET then Some (VArray [], r')
            else
              match parse_elements fuel' (c' :: r') with
              | Some (l, r'') => Some (VArray l, r'')
              | None => None
              end
        end
      else if c =? Char.LBRACE then
        match skip_ws r with
        | [] => None
        | c' :: r' =>
            if c' =? Char.RBRACE then Some (VObject [], r')
            else
              match parse_members fuel' (c' :: r') [] with
              | Some (ms, r'') => Some (VObject ms, r'')
              | None => None
              end
        end
      else
        match strip_prefix (str "null") s with
        | Some r' => Some (VNull, r')
        | None =>
            match strip_prefix (str "true") s with
            | Some r' => Some (VBool true, r')
            | None =>
                match strip_prefix (str "false") s with
                | Some r' => Some (VBool false, r')
                | None =>
                    match parse_number s with
                    | Some (x, r') => Some (VNumber x, r')
                    | None => None
                    end
                end
            end
        end
  end
end

(** elements, after the opening bracket and white space, up to and including
the closing bracket *)
with parse_elements (fuel : nat) (s : jstring) : option (list value * jstring) :=
match fuel with
| O => None
| S fuel' =>
  match parse_value fuel' s with
  | Some (v, r) =>
      match skip_ws r with
      | [] => None
      | c :: r' =>
          if c =? Char.COMMA then
            match parse_elements fuel' (skip_ws r') with
            | Some (l, r'') => Some (v :: l, r'')
            | None => None
            end
          else if c =? Char.RBRACKET then Some ([v], r')
          else None
      end
  | None => None
  end
end

(** members, after the opening brace and white space, up to and including the
closing brace *)
with parse_members (fuel : nat) (s : jstring) (acc : list (jstring * value))
: option (list (jstring * value) * jstring) :=
match fuel with
| O => None
| S fuel' =>
  match s with
  | [] => None
  | q :: r =>
      if q =? Char.QUOTE then
        match parse_chars r with
        | Some (k, r1) =>
            match skip_ws r1 with
            | [] => None
            | c :: r2 =>
                if c =? Char.COLON then
                  match parse_value fuel' (skip_ws r2) with
                  | Some (v, r3) =>
                      let acc' := define_member acc k v in
                      match skip_ws r3 with
                      | [] => None
                      | c' :: r4 =>
                          if c' =? Char.COMMA then parse_members fuel' (skip_ws r4) acc'
                          else if c' =? Char.RBRACE then Some (acc', r4)
                          else None
                      end
                  | None => None
                  end
                else None
            end
        | None => None
        end
      else None
  end
end.

(** [JSON.parse(text)]: one value between optional white space; anything
else is a SyntaxError. *)
Definition parse (text : jstring) : completion value :=
match parse_value (2 * length text + 2) (skip_ws text) with
| Some (v, r) =>
  match skip_ws r with
  | [] => Normal v
  | _ => Throw SyntaxError
  end
| None => Throw SyntaxError
end.
End JSON.

(** ** The browser's local storage *)

(** What evaluating [window.localStorage] does: there is no [window] (the
    script runs outside a browser), the browser denies access to storage, or
    the storage object is returned. *)
Inductive StorageAccess := NoWindow | Blocked | Granted.

Record Storage := {
  access : StorageAccess;
  items : gmap jstring jstring;
  quota : nat
}.

Module localStorage.
(** Code units held by the store. *)
Definition usage (m : gmap jstring jstring) : nat :=
map_fold (fun k t acc => (length k + length t + acc)%nat) 0%nat m.

(** [typeof window === 'undefined'] *)
Definition window_undefined (w : Storage) : bool :=
match access w with
| NoWindow => true
| _ => false
end.

(** The expression [window.localStorage]. *)
Definition resolve (w : Storage) : completion unit :=
match access w with
| NoWindow => Throw ReferenceError
| Blocked => Throw SecurityError
| Granted => Normal tt
end.

(** [window.localStorage.getItem(key)]; [None] is [null]. *)
Definition getItem (w : Storage) (key : jstring) : completion (option jstring) :=
match resolve w with
| Normal _ => Normal (items w !! key)
| Throw e => Throw e
end.

(** [window.localStorage.setItem(key, text)]: the argument is converted to a
string. *)
Definition setItem (w : Storage) (key : jstring) (text : value)
: completion unit * Storage :=
match resolve w with
| Normal _ =>
  match JS.ToString text with
  | Normal t =>
    let items' := <[key := t]> (items w) in
    if (usage items' <=? quota w)%nat
    then (Normal tt, {| access := access w; items := items'; quota := quota w |})
    else (Throw QuotaExceededError, w)
  | Throw e => (Throw e, w)
  end
| Throw e => (Throw e, w)
end.
End localStorage.

(** ** The Persisted Field Store of [App.jsx] *)

(** [[
function readStorage(key, fallback) {
  if (typeof window === 'undefined') return fallback
  try {
    const raw = window.localStorage.getItem(key)
    if (raw == null) return fallback
    return JSON.parse(raw)
  } catch {
    return fallback
  }
}
]] *)
Definition readStorage (w : Storage) (key : jstring) (fallback : value) : completion value :=
  if localStorage.window_undefined w then Normal fallback
  else
    try_catch
      (raw ← localStorage.getItem w key;
       match raw with
       | None => Normal fallback
       | Some text => JSON.parse text
       end)
      (Normal fallback).

(** [[
function writeStorage(key, value) {
  try {
    window.localStorage.setItem(key, JSON.stringify(value))
  } catch {
    return undefined
  }
  return undefined
}
]] *)
Definition writeStorage (w : Storage) (key : jstring) (v : value)
  : completion value * Storage :=
  match localStorage.setItem w key (JSON.stringify v) with
  | (Normal _, w') => (Normal VUndefined, w')
  | (Throw _, w') => (Normal VUndefined, w')
  end.

(** ** React state of [App] *)

Record State := {
  original : value;
  modified : value;
  language : value;
  theme : value;
  sideBySide : value;
  ignoreTrimWhitespace : value;
  fontSize : value;
  toast : value
}.

Inductive field :=
| Original | Modified | Language | Theme | SideBySide | IgnoreTrimWhitespace | FontSize
| Toast.

#[global] Instance field_eq_dec : EqDecision field.
Proof. solve_decision. Defined.

Definition get_field (f : field) (st : State) : value :=
  match f with
  | Original => original st
  | Modified => modified st
  | Language => language st
  | Theme => theme st
  | SideBySide => sideBySide st
  | IgnoreTrimWhitespace => ignoreTrimWhitespace st
  | FontSize => fontSize st
  | Toast => toast st
  end.

Definition set_field (f : field) (v : value) (st : State) : State :=
  {| original := if decide (f = Original) then v else original st;
     modified := if decide (f = Modified) then v else modified st;
     language := if decide (f = Language) then v else language st;
     theme := if decide (f = Theme) then v else theme st;
     sideBySide := if decide (f = SideBySide) then v else sideBySide st;
     ignoreTrimWhitespace :=
       if decide (f = IgnoreTrimWhitespace) then v else ignoreTrimWhitespace st;
     fontSize := if decide (f = FontSize) then v else fontSize st;
     toast := if decide (f = Toast) then v else toast st |}.

(** A call of a state setter. *)
Inductive updater :=
| Assign (v : value)         (* [setX(v)] *)
| KeepIfSame (v : value)     (* [setX((prev) => (prev === v ? prev : v))] *)
| Negate.                    (* [setX((v) => !v)] *)

Definition apply_updater (u : updater) (prev : value) : value :=
  match u with
  | Assign v => v
  | KeepIfSame v => if JS.strict_equal prev v then prev else v
  | Negate => JS.not prev
  end.

Definition apply_update (st : State) (c : field * updater) : State :=
  set_field (fst c) (apply_updater (snd c) (get_field (fst c) st)) st.

Record React := {
  state : State;                     (* the state of the last render *)
  queue : list (field * updater);    (* setter calls since the last render *)
  renders : nat;
  mounted : bool
}.

(** ** Timers, content listeners, the clipboard *)

(** The only timer callback of the component: [() => setToast(null)]. *)
Inductive callback := ClearToast.

Record Timer := { timer_id : N; due : N; action : callback }.

Record Timers := {
  clock : N;                (* milliseconds *)
  next_timer : N;           (* identifiers are positive and never reused *)
  pending : list Timer;     (* in order of creation *)
  fired : list N            (* identifiers of the timers whose callback ran *)
}.

Inductive Side := OriginalEditor | ModifiedEditor.

#[global] Instance Side_eq_dec : EqDecision Side.
Proof. solve_decision. Defined.

(** One of the two code editors of a diff editor. *)
Definition region : Type := nat * Side.

(** The two content listeners of [handleMount], each with the editor it
    captured. *)
Inductive handler :=
| SyncOriginal (originalEditor : region)
| SyncModified (modifiedEditor : region).

Record Listener := { handle : N; target : region; on_change : handler }.

Record Editors := {
  next_handle : N;
  listeners : list Listener;    (* active subscriptions, in order of creation *)
  texts : region -> jstring     (* the text each editor holds *)
}.

(** What [navigator.clipboard.writeText] does: the promise resolves, the
    promise rejects, or [navigator.clipboard] is undefined. *)
Inductive ClipboardAccess := Allowed | Denied | Missing.

Record Clipboard := {
  permission : ClipboardAccess;
  content : jstring;
  writing : list value    (* the texts of the [writeText] calls whose promise
                             has not settled, oldest first *)
}.

Record Refs := {
  toastTimer : N;
  disposablesRef : list N;
  diffEditorRef : option nat
}.

(** ** The component and its environment *)

Record Machine := {
  react : React;
  refs : Refs;
  store : Storage;
  writes : list (jstring * value);   (* the calls of [writeStorage], oldest first *)
  timers : Timers;
  editors : Editors;
  clipboard : Clipboard
}.

(** Computations that read and change the machine and may throw. *)
Definition M (A : Type) : Type := Machine -> completion A * Machine.

#[global] Instance M_ret : MRet M := fun A a m => (Normal a, m).

#[global] Instance M_bind : MBind M := fun A B k c m =>
  match c m with
  | (Normal a, m') => k a m'
  | (Throw e, m') => (Throw e, m')
  end.

Definition throw {A} (e : error) : M A := fun m => (Throw e, m).

(** [try { body } catch { handler }] *)
Definition try_catchM {A} (body handler : M A) : M A := fun m =>
  match body m with
  | (Normal a, m') => (Normal a, m')
  | (Throw _, m') => handler m'
  end.

Definition gets {A} (f : Machine -> A) : M A := fun m => (Normal (f m), m).
Definition liftC {A} (c : completion A) : M A := fun m => (c, m).
Definition modify (f : Machine -> Machine) : M unit := fun m => (Normal tt, f m).
Definition exec {A} (c : M A) (m : Machine) : Machine := snd (c m).

Fixpoint forEach {A} (l : list A) (f : A -> M unit) : M unit :=
  match l with
  | [] => mret tt
  | x :: l' => f x ;; forEach l' f
  end.

Definition with_react (f : React -> React) (m : Machine) : Machine :=
  {| react := f (react m); refs := refs m; store := store m; writes := writes m;
     timers := timers m; editors := editors m; clipboard := clipboard m |}.

Definition with_refs (f : Refs -> Refs) (m : Machine) : Machine :=
  {| react := react m; refs := f (refs m); store := store m; writes := writes m;
     timers := timers m; editors := editors m; clipboard := clipboard m |}.

Definition with_timers (f : Timers -> Timers) (m : Machine) : Machine :=
  {| react := react m; refs := refs m; store := store m; writes := writes m;
     timers := f (timers m); editors := editors m; clipboard := clipboard m |}.

Definition with_editors (f : Editors -> Editors) (m : Machine) : Machine :=
  {| react := react m; refs := refs m; store := store m; writes := writes m;
     timers := timers m; editors := f (editors m); clipboard := clipboard m |}.

Definition with_clipboard (f : Clipboard -> Clipboard) (m : Machine) : Machine :=
  {| react := react m; refs := refs m; store := store m; writes := writes m;
     timers := timers m; editors := editors m; clipboard := f (clipboard m) |}.

Definition with_store (w : Storage) (log : list (jstring * value)) (m : Machine) : Machine :=
  {| react := react m; refs := refs m; store := w; writes := log;
     timers := timers m; editors := editors m; clipboard := clipboard m |}.

(** A setter call is queued until the next render. *)
Definition set (f : field) (u : updater) : M unit :=
  modify (with_react (fun r =>
    {| state := state r; queue := queue r ++ [(f, u)]; renders := renders r;
       mounted := mounted r |})).

Module window.
(** [window.setTimeout(cb, delay)] *)
Definition setTimeout (cb : callback) (delay : N) : M N := fun m =>
let t := timers m in
let id := next_timer t in
(Normal id,
 with_timers (fun _ =>
 {| clock := clock t; next_timer := id + 1;
    pending := pending t ++ [{| timer_id := id; due := clock t + delay; action := cb |}];
    fired := fired t |}) m).

(** [window.clearTimeout(id)] *)
Definition clearTimeout (id : N) : M unit :=
modify (with_timers (fun t =>
{| clock := clock t; next_timer := next_timer t;
   pending := filter (fun x => timer_id x <> id) (pending t);
   fired := fired t |})).
End window.

Module editor.
(** [ed.getValue()] *)
Definition getValue (ed : region) : M jstring := gets (fun m => texts (editors m) ed).

(** [ed.onDidChangeModelContent(h)]: the result is the disposable of the
new subscription. *)
Definition onDidChangeModelContent (ed : region) (h : handler) : M N := fun m =>
let e := editors m in
let d := next_handle e in
(Normal d,
 with_editors (fun _ =>
 {| next_handle := d + 1;
    listeners := listeners e ++ [{| handle := d; target := ed; on_change := h |}];
    texts := texts e |}) m).

(** [d?.dispose?.()] *)
Definition dispose (d : N) : M unit :=
modify (with_editors (fun e =>
{| next_handle := next_handle e;
   listeners := filter (fun l => handle l <> d) (listeners e);
   texts := texts e |})).

(** The editor's model takes a new text. *)
Definition setText (ed : region) (text : jstring) : M unit :=
modify (with_editors (fun e =>
{| next_handle := next_handle e; listeners := listeners e;
   texts := fun r => if decide (r = ed) then text else texts e r |})).
End editor.

Module navigator.
(** [await navigator.clipboard.writeText(text)], when the promise settles.
Without [navigator.clipboard] the call itself throws; the argument is
converted to a string, and a conversion that throws rejects the promise
as a refused write does. *)
Definition clipboard_writeText (text : value) : M unit := fun m =>
match permission (clipboard m), JS.ToString text with
| Missing, _ => (Throw TypeError, m)
| _, Throw e => (Throw e, m)
| Denied, Normal _ => (Throw NotAllowedError, m)
| Allowed, Normal s =>
  (Normal tt,
   with_clipboard (fun c =>
     {| permission := permission c; content := s; writing := writing c |}) m)
end.

(** [navigator.clipboard.writeText(text)] up to the promise it returns: the
write is requested and its outcome is awaited. *)
Definition clipboard_request (text : value) : M unit :=
modify (with_clipboard (fun c =>
  {| permission := permission c; content := content c;
     writing := writing c ++ [text] |})).

(** The oldest requested write leaves the queue: its promise settles. *)
Definition clipboard_settle : M (option value) := fun m =>
match writing (clipboard m) with
| [] => (Normal None, m)
| text :: rest =>
  (Normal (Some text),
   with_clipboard (fun c =>
     {| permission := permission c; content := content c; writing := rest |}) m)
end.
End navigator.

(** ** [App.jsx] *)

Definition lines (ls : list jstring) : jstring := concat (map (fun l => l ++ [Char.LF]) ls).

Definition quoted (s : string) : jstring := [Char.QUOTE] ++ str s ++ [Char.QUOTE].

Definition SAMPLE_ORIGINAL : value :=
  VString (lines
    [ str "export function formatUser(name) {";
      str "  return " ++ quoted "Hello " ++ str " + name + " ++ quoted "!";
      str "}";
      [];
      str "export function toSlug(input) {";
      str "  return input.trim().toLowerCase().replaceAll(" ++ quoted " " ++ str ", " ++
        quoted "-" ++ str ")";
      str "}" ]).

Definition SAMPLE_MODIFIED : value :=
  VString (lines
    [ str "export function formatUser(name) {";
      str "  const clean = name.trim()";
      str "  return `Hello ${clean}!`";
      str "}";
      [];
      str "export function toSlug(input) {";
      str "  return input.trim().toLowerCase().replaceAll(/\s+/g, " ++ quoted "-" ++ str ")";
      str "}" ]).

Definition fourteen : value := VNumber (Finite false 14 0).

(** [[
function useLocalStorageState(key, initialValue) {
  const [value, setValue] = useState(() => readStorage(key, initialValue))
  useEffect(() => writeStorage(key, value), [key, value])
  return [value, setValue]
}
]]
    The hook is embedded as its two phases.  The state initialiser runs in the
    first render only: *)
Definition useLocalStorageState_init (key : jstring) (initialValue : value) : M value :=
  fun m =>
    match readStorage (store m) key initialValue with
    | Normal v => (Normal v, m)
    | Throw e => (Throw e, m)
    end.

(** The effect runs after the first render ([previous] is [None]) and after
    each render in which [value] is not the [previous] one ([key] is constant). *)
Definition useLocalStorageState_effect (key : jstring) (previous : option value) (v : value)
  : M unit := fun m =>
  let changed :=
    match previous with
    | Some p => negb (JS.Object_is p v)
    | None => true
    end in
  if changed then
    match writeStorage (store m) key v with
    | (Normal _, w') => (Normal tt, with_store w' (writes m ++ [(key, v)]) m)
    | (Throw e, w') => (Throw e, with_store w' (writes m ++ [(key, v)]) m)
    end
  else (Normal tt, m).

(** The seven calls of [useLocalStorageState] in [App], in order. *)
Definition persisted : list (field * jstring * value) :=
  [ (Original, str "codeDiff.original", SAMPLE_ORIGINAL);
    (Modified, str "codeDiff.modified", SAMPLE_MODIFIED);
    (Language, str "codeDiff.language", VString (str "javascript"));
    (Theme, str "codeDiff.theme", VString (str "vs-dark"));
    (SideBySide, str "codeDiff.sideBySide", VBool true);
    (IgnoreTrimWhitespace, str "codeDiff.ignoreTrimWhitespace", VBool true);
    (FontSize, str "codeDiff.fontSize", fourteen) ].

(** The [options] object handed to [DiffEditor]. *)
Module DiffOptions.
Record t := {
renderSideBySide : value;
originalEditable : value;
ignoreTrimWhitespace : value;
automaticLayout : value;
fontSize : value;
minimap : value;
scrollBeyondLastLine : value;
scrollbar : value
}.
End DiffOptions.

Definition options (st : State) : completion DiffOptions.t :=
  n ← JS.Number (fontSize st) ;
  Normal
    {| DiffOptions.renderSideBySide := JS.Boolean (sideBySide st);
       DiffOptions.originalEditable := VBool true;
       DiffOptions.ignoreTrimWhitespace := JS.Boolean (ignoreTrimWhitespace st);
       DiffOptions.automaticLayout := VBool true;
       DiffOptions.fontSize := JS.or n fourteen;
       DiffOptions.minimap := VObject [(str "enabled", VBool false)];
       DiffOptions.scrollBeyondLastLine := VBool false;
       DiffOptions.scrollbar :=
         VObject [(str "verticalScrollbarSize", VNumber (Finite false 1 1));
                  (str "horizontalScrollbarSize", VNumber (Finite false 1 1))] |}.

(** ** What a render can throw *)

Module ReactDOM.

(** A value as the child of an element, as in [<span>{language}</span>]:
    React renders a string or a number as text, nothing for [null],
    [undefined] and the booleans, the elements of an array as children, and
    throws an Error for any other object. *)
Fixpoint child (v : value) : completion unit :=
  match v with
  | VObject _ => Throw Error
  | VArray l =>
      (fix each (l : list value) : completion unit :=
         match l with
         | [] => Normal tt
         | x :: r =>
             match child x with
             | Normal _ => each r
             | Throw e => Throw e
             end
         end) l
  | _ => Normal tt
  end.

(** The [value] of a [select] or of an [input]: React sets the control to
    ['' + v], unless [v] is [null] or [undefined]. *)
Definition control_value (v : value) : completion unit :=
  match v with
  | VNull | VUndefined => Normal tt
  | _ => _ ← JS.ToString v ; Normal tt
  end.

End ReactDOM.

(** The body of [App] after the hooks, and the elements it returns that
    convert a state: [options] is built, [language] is a child of a [span]
    and the value of a [select], [theme] is the value of a [select] and
    [fontSize] the value of the number input.  Nothing else of the render
    can throw. *)
Definition render (st : State) : completion unit :=
  _ ← options st ;
  _ ← ReactDOM.child (language st) ;
  _ ← ReactDOM.control_value (language st) ;
  _ ← ReactDOM.control_value (theme st) ;
  ReactDOM.control_value (fontSize st).

Definition set_toastTimer (id : N) : M unit :=
  modify (with_refs (fun r =>
    {| toastTimer := id; disposablesRef := disposablesRef r;
       diffEditorRef := diffEditorRef r |})).

Definition set_disposablesRef (ds : list N) : M unit :=
  modify (with_refs (fun r =>
    {| toastTimer := toastTimer r; disposablesRef := ds;
       diffEditorRef := diffEditorRef r |})).

Definition set_diffEditorRef (ed : nat) : M unit :=
  modify (with_refs (fun r =>
    {| toastTimer := toastTimer r; disposablesRef := disposablesRef r;
       diffEditorRef := Some ed |})).

(** [[
function showToast(message) {
  setToast(message)
  if (toastTimer.current) window.clearTimeout(toastTimer.current)
  toastTimer.current = window.setTimeout(() => setToast(null), 1200)
}
]] *)
Definition showToast (message : value) : M unit :=
  set Toast (Assign message) ;;
  current ← gets (fun m => toastTimer (refs m)) ;
  (if negb (current =? 0) then window.clearTimeout current else mret tt) ;;
  id ← window.setTimeout ClearToast 1200 ;
  set_toastTimer id.

(** [[
function handleMount(editor) {
  diffEditorRef.current = editor
  disposablesRef.current.forEach((d) => d?.dispose?.())
  disposablesRef.current = []
  const originalEditor = editor.getOriginalEditor()
  const modifiedEditor = editor.getModifiedEditor()
  const d1 = originalEditor.onDidChangeModelContent(() => { ... })
  const d2 = modifiedEditor.onDidChangeModelContent(() => { ... })
  disposablesRef.current.push(d1, d2)
}
]] *)
Definition handleMount (ed : nat) : M unit :=
  set_diffEditorRef ed ;;
  ds ← gets (fun m => disposablesRef (refs m)) ;
  forEach ds editor.dispose ;;
  set_disposablesRef [] ;;
  let originalEditor := (ed, OriginalEditor) in
  let modifiedEditor := (ed, ModifiedEditor) in
  d1 ← editor.onDidChangeModelContent originalEditor (SyncOriginal originalEditor) ;
  d2 ← editor.onDidChangeModelContent modifiedEditor (SyncModified modifiedEditor) ;
  ds' ← gets (fun m => disposablesRef (refs m)) ;
  set_disposablesRef (ds' ++ [d1; d2]).

(** The bodies of the two listeners:
    [[
    () => { const v = originalEditor.getValue()
            setOriginal((prev) => (prev === v ? prev : v)) }
    () => { const v = modifiedEditor.getValue()
            setModified((prev) => (prev === v ? prev : v)) }
    ]] *)
Definition run_handler (h : handler) : M unit :=
  match h with
  | SyncOriginal originalEditor =>
      v ← editor.getValue originalEditor ;
      set Original (KeepIfSame (VString v))
  | SyncModified modifiedEditor =>
      v ← editor.getValue modifiedEditor ;
      set Modified (KeepIfSame (VString v))
  end.

(** [[
async function copyToClipboard(text) {
  try {
    await navigator.clipboard.writeText(text)
    return true
  } catch {
    return false
  }
}
]] *)
Definition copyToClipboard (text : value) : M bool :=
  try_catchM
    (navigator.clipboard_writeText text ;; mret true)
    (mret false).

(** [[
async function handleCopy(which) {
  const text = which === 'original' ? original : modified
  const ok = await copyToClipboard(text)
  showToast(ok ? 'Copied' : 'Copy failed')
}
]] *)
Definition handleCopy (which : value) : M unit :=
  st ← gets (fun m => state (react m)) ;
  let text :=
    if JS.strict_equal which (VString (str "original")) then original st else modified st in
  ok ← copyToClipboard text ;
  showToast (if ok : bool then VString (str "Copied") else VString (str "Copy failed")).

(** [handleCopy] has one suspension point, the [await] of the clipboard
    write.  [handleCopy] above is the call whose promise settles before any
    other event.  When other events come first the call is its two halves:
    up to the [await] the text is chosen and the write requested, *)
Definition handleCopy_request (which : value) : M unit :=
  st ← gets (fun m => state (react m)) ;
  let text :=
    if JS.strict_equal which (VString (str "original")) then original st else modified st in
  navigator.clipboard_request text.

(** and from the [await] on, when the write settles, [copyToClipboard]
    returns and the toast is shown. *)
Definition handleCopy_settled : M unit :=
  settled ← navigator.clipboard_settle ;
  match settled with
  | Some text =>
      ok ← copyToClipboard text ;
      showToast (if ok : bool then VString (str "Copied") else VString (str "Copy failed"))
  | None => mret tt
  end.

(** [[
function handleSwap() {
  setOriginal(modified)
  setModified(original)
}
]] *)
Definition handleSwap : M unit :=
  st ← gets (fun m => state (react m)) ;
  set Original (Assign (modified st)) ;;
  set Modified (Assign (original st)).

(** [[
function handleReset() {
  setOriginal(SAMPLE_ORIGINAL)
  setModified(SAMPLE_MODIFIED)
  setLanguage('javascript')
  setTheme('vs-dark')
  setSideBySide(true)
  setIgnoreTrimWhitespace(true)
  setFontSize(14)
  showToast('Reset')
}
]] *)
Definition handleReset : M unit :=
  set Original (Assign SAMPLE_ORIGINAL) ;;
  set Modified (Assign SAMPLE_MODIFIED) ;;
  set Language (Assign (VString (str "javascript"))) ;;
  set Theme (Assign (VString (str "vs-dark"))) ;;
  set SideBySide (Assign (VBool true)) ;;
  set IgnoreTrimWhitespace (Assign (VBool true)) ;;
  set FontSize (Assign fourteen) ;;
  showToast (VString (str "Reset")).

(** The cleanup of the first effect, run when the component unmounts:
    [[
    () => {
      disposablesRef.current.forEach((d) => d?.dispose?.())
      disposablesRef.current = []
      if (toastTimer.current) window.clearTimeout(toastTimer.current)
    }
    ]] *)
Definition cleanup : M unit :=
  ds ← gets (fun m => disposablesRef (refs m)) ;
  forEach ds editor.dispose ;;
  set_disposablesRef [] ;;
  current ← gets (fun m => toastTimer (refs m)) ;
  if negb (current =? 0) then window.clearTimeout current else mret tt.

(** ** Rendering *)

Definition all_fields : list field :=
  [Original; Modified; Language; Theme; SideBySide; IgnoreTrimWhitespace; FontSize; Toast].

Definition state_same (a b : State) : bool :=
  forallb (fun f => JS.Object_is (get_field f a) (get_field f b)) all_fields.

(** The effects of the seven [useLocalStorageState] hooks after a render with
    state [new]; [old] is the state of the previous render, if any. *)
Definition run_effects (old : option State) (new : State) : M unit :=
  forEach persisted (fun p =>
    useLocalStorageState_effect (snd (fst p))
      (match old with
       | Some st => Some (get_field (fst (fst p)) st)
       | None => None
       end)
      (get_field (fst (fst p)) new)).

Definition set_react (st : State) (n : nat) (alive : bool) : Machine -> Machine :=
  with_react (fun _ => {| state := st; queue := []; renders := n; mounted := alive |}).

(** The end of a handler: React applies the queued setter calls in order.  If
    no state changed it bails out; otherwise the component renders once with
    the new state and the effects whose dependencies changed run.  Setter
    calls of an unmounted component are dropped. *)
Definition flush : M unit := fun m =>
  let r := react m in
  if mounted r then
    let new := fold_left apply_update (queue r) (state r) in
    if state_same (state r) new then (Normal tt, set_react (state r) (renders r) true m)
    else run_effects (Some (state r)) new (set_react new (S (renders r)) true m)
  else (Normal tt, set_react (state r) (renders r) false m).

(** The first render of [App] and the effects that follow it.  When the
    render throws, React unmounts the tree: no effect runs and nothing of the
    component is left.  (A later render cannot throw, see
    [reachable_renders], so that [flush] does not look.) *)
Definition App : M unit :=
  original ← useLocalStorageState_init (str "codeDiff.original") SAMPLE_ORIGINAL ;
  modified ← useLocalStorageState_init (str "codeDiff.modified") SAMPLE_MODIFIED ;
  language ← useLocalStorageState_init (str "codeDiff.language") (VString (str "javascript")) ;
  theme ← useLocalStorageState_init (str "codeDiff.theme") (VString (str "vs-dark")) ;
  sideBySide ← useLocalStorageState_init (str "codeDiff.sideBySide") (VBool true) ;
  ignoreTrimWhitespace ←
    useLocalStorageState_init (str "codeDiff.ignoreTrimWhitespace") (VBool true) ;
  fontSize ← useLocalStorageState_init (str "codeDiff.fontSize") fourteen ;
  let st :=
    {| original := original; modified := modified; language := language; theme := theme;
       sideBySide := sideBySide; ignoreTrimWhitespace := ignoreTrimWhitespace;
       fontSize := fontSize; toast := VNull |} in
  match render st with
  | Normal _ => modify (set_react st 1 true) ;; run_effects None st
  | Throw e => modify (set_react st 0 false) ;; liftC (Throw e)
  end.

(** The machine before the component mounts. *)
Definition boot (w : Storage) (c : Clipboard) : Machine :=
  {| react :=
       {| state :=
           {| original := VUndefined; modified := VUndefined; language := VUndefined;
              theme := VUndefined; sideBySide := VUndefined;
              ignoreTrimWhitespace := VUndefined; fontSize := VUndefined;
              toast := VUndefined |};
          queue := []; renders := 0; mounted := false |};
     refs := {| toastTimer := 0; disposablesRef := []; diffEditorRef := None |};
     store := w;
     writes := [];
     timers := {| clock := 0; next_timer := 1; pending := []; fired := [] |};
     editors := {| next_handle := 0; listeners := []; texts := fun _ => [] |};
     clipboard := c |}.

Definition mount (w : Storage) (c : Clipboard) : Machine := exec App (boot w c).

(** ** Events *)

Inductive event :=
| EditorMounted (ed : nat)                        (* [onMount={handleMount}] *)
| ContentChanged (ed : region) (text : jstring)   (* the editor's text became [text] *)
| LanguageSelected (v : jstring)                  (* [setLanguage(e.target.value)] *)
| ThemeSelected (v : jstring)                     (* [setTheme(e.target.value)] *)
| FontSizeInput (typed : jstring)                 (* [setFontSize(Number(e.target.value))],
                                                     the text of the input being [typed] *)
| SideBySideClicked                               (* [setSideBySide((v) => !v)] *)
| IgnoreTrimClicked                               (* [setIgnoreTrimWhitespace((v) => !v)] *)
| SwapClicked
| CopyLeftClicked                                 (* [handleCopy('original')], the write
                                                     settling before anything else *)
| CopyRightClicked                                (* [handleCopy('modified')], likewise *)
| CopyLeftStarted                                 (* [handleCopy('original')] up to its [await] *)
| CopyRightStarted                                (* [handleCopy('modified')] up to its [await] *)
| CopySettled                                     (* the oldest pending clipboard write settles *)
| ResetClicked
| Elapsed (dt : N)                                (* [dt] milliseconds pass *)
| Unmounted.

(** The listeners subscribed to [ed] are called in order of subscription. *)
Definition fire (ed : region) : M unit :=
  ls ← gets (fun m => listeners (editors m)) ;
  forEach (filter (fun l => target l = ed) ls) (fun l => run_handler (on_change l)).

Definition run_callback (cb : callback) : M unit :=
  match cb with
  | ClearToast => set Toast (Assign VNull)
  end.

(** The clock advances by [dt]; the timers that are due run, each as a task
    of its own.  All timers of the component have the same delay, so the
    order of creation is the order of expiry. *)
Definition elapse (dt : N) : M unit := fun m =>
  let t := timers m in
  let now := clock t + dt in
  let ready := filter (fun x => due x <= now) (pending t) in
  forEach ready (fun x => run_callback (action x) ;; flush)
    (with_timers (fun _ =>
       {| clock := now; next_timer := next_timer t;
          pending := filter (fun x => now < due x) (pending t);
          fired := fired t ++ map timer_id ready |}) m).

Definition unmount : M unit :=
  cleanup ;;
  modify (fun m => set_react (state (react m)) (renders (react m)) false m).

Definition dispatch (e : event) : M unit :=
  match e with
  | EditorMounted ed => handleMount ed
  | ContentChanged ed text => editor.setText ed text ;; fire ed
  | LanguageSelected v => set Language (Assign (VString v))
  | ThemeSelected v => set Theme (Assign (VString v))
  | FontSizeInput typed =>
      n ← liftC (JS.Number (VString (HTML.number_input_value typed))) ;
      set FontSize (Assign n)
  | SideBySideClicked => set SideBySide Negate
  | IgnoreTrimClicked => set IgnoreTrimWhitespace Negate
  | SwapClicked => handleSwap
  | CopyLeftClicked => handleCopy (VString (str "original"))
  | CopyRightClicked => handleCopy (VString (str "modified"))
  | CopyLeftStarted => handleCopy_request (VString (str "original"))
  | CopyRightStarted => handleCopy_request (VString (str "modified"))
  | CopySettled => handleCopy_settled
  | ResetClicked => handleReset
  | Elapsed dt => elapse dt
  | Unmounted => unmount
  end.

(** Events of the user interface need the rendered component; an edit in an
    editor, the passing of time, the settlement of a clipboard write and the
    teardown do not. *)
Definition needs_mounted (e : event) : bool :=
  match e with
  | ContentChanged _ _ | Elapsed _ | CopySettled | Unmounted => false
  | _ => true
  end.

Definition step (m : Machine) (e : event) : Machine :=
  if needs_mounted e && negb (mounted (react m)) then m
  else exec (dispatch e ;; flush) m.

Definition run (es : list event) (m : Machine) : Machine := fold_left step es m.

(** ** Vocabulary of the properties *)

(** The [writeStorage] calls of the effects after a render with state [new]. *)
Definition effect_writes (old : option State) (new : State) : list (jstring * value) :=
  flat_map (fun p =>
    let v := get_field (fst (fst p)) new in
    match old with
    | Some st => if JS.Object_is (get_field (fst (fst p)) st) v then [] else [(snd (fst p), v)]
    | None => [(snd (fst p), v)]
    end) persisted.

(** The text that [setItem] receives from [writeStorage]:
    [JSON.stringify(value)] converted to a string. *)
Definition stored_text (v : value) : jstring :=
  match JSON.serialize v with
  | Some t => t
  | None => str "undefined"
  end.

(** The store after a sequence of [writeStorage] calls. *)
Definition store_after (w : Storage) (ws : list (jstring * value)) : Storage :=
  fold_left (fun w p => snd (writeStorage w (fst p) (snd p))) ws w.

(** The listener [handleMount] subscribes to an editor. *)
Definition handler_for (ed : region) : handler :=
  match snd ed with
  | OriginalEditor => SyncOriginal ed
  | ModifiedEditor => SyncModified ed
  end.

(** The state field an editor is synchronised with. *)
Definition field_of (s : Side) : field :=
  match s with
  | OriginalEditor => Original
  | ModifiedEditor => Modified
  end.

(** What the handlers keep true of the refs and of the platform: the active
    subscriptions are those of [disposablesRef], each of the kind that
    [handleMount] creates, and the only timer that can be pending is the one
    of [toastTimer]. *)
Record Stable (m : Machine) : Prop := {
  inv_handles : map handle (listeners (editors m)) = disposablesRef (refs m);
  inv_shape : Forall (fun l => on_change l = handler_for (target l)) (listeners (editors m));
  inv_timer :
    pending (timers m) = [] \/
    (toastTimer (refs m) <> 0 /\
     exists d, pending (timers m) =
                 [{| timer_id := toastTimer (refs m); due := d; action := ClearToast |}]);
  inv_ids : toastTimer (refs m) < next_timer (timers m)
}.

(** What holds of the machine between two events. *)
Definition Inv (m : Machine) : Prop := queue (react m) = [] /\ Stable m.

(** The setter call a listener makes when the editors hold the texts [tx]. *)
Definition setter_call (tx : region -> jstring) (h : handler) : field * updater :=
  match h with
  | SyncOriginal originalEditor => (Original, KeepIfSame (VString (tx originalEditor)))
  | SyncModified modifiedEditor => (Modified, KeepIfSame (VString (tx modifiedEditor)))
  end.

Definition enqueue (calls : list (field * updater)) : Machine -> Machine :=
  with_react (fun r =>
    {| state := state r; queue := queue r ++ calls; renders := renders r;
       mounted := mounted r |}).

(** The timer that [showToast] starts. *)
Definition toast_timer (m : Machine) : Timer :=
  {| timer_id := next_timer (timers m); due := clock (timers m) + 1200;
     action := ClearToast |}.


(** The timers after the clock moved to [now]. *)
Definition tick (now : N) (pd : list Timer) (fd : list N) : Machine -> Machine :=
  with_timers (fun t =>
    {| clock := now; next_timer := next_timer t; pending := pd; fired := fd |}).

(** The setter calls of [handleReset] before [showToast]. *)
Definition reset_calls : list (field * updater) :=
  [ (Original, Assign SAMPLE_ORIGINAL);
    (Modified, Assign SAMPLE_MODIFIED);
    (Language, Assign (VString (str "javascript")));
    (Theme, Assign (VString (str "vs-dark")));
    (SideBySide, Assign (VBool true));
    (IgnoreTrimWhitespace, Assign (VBool true));
    (FontSize, Assign fourteen) ].

(** The machine after a successful clipboard write of the string [s]. *)
Definition copied (s : jstring) : Machine -> Machine :=
  with_clipboard (fun c =>
    {| permission := permission c; content := s; writing := writing c |}).

(** The machine after a clipboard write of [text] is requested, and after
    the oldest request left the queue [rest]. *)
Definition requested (text : value) : Machine -> Machine :=
  with_clipboard (fun c =>
    {| permission := permission c; content := content c;
       writing := writing c ++ [text] |}).

Definition dequeued (rest : list value) : Machine -> Machine :=
  with_clipboard (fun c =>
    {| permission := permission c; content := content c; writing := rest |}).

(** The clipboard takes the text: there is a clipboard, the text converts to
    a string and the write is allowed. *)
Definition copy_succeeds (text : value) (m : Machine) : bool :=
  match permission (clipboard m), JS.ToString text with
  | Allowed, Normal _ => true
  | _, _ => false
  end.

(** The text [handleCopy] takes for [which]. *)
Definition copy_source (which : value) (st : State) : value :=
  if JS.strict_equal which (VString (str "original")) then original st else modified st.

(** ** A sample environment *)

Definition sample_storage : Storage := {| access := Granted; items := ∅; quota := 5000 |}.
Definition sample_clipboard : Clipboard :=
  {| permission := Allowed; content := []; writing := [] |}.
Definition sample_machine : Machine := mount sample_storage sample_clipboard.

(** The state [handleReset] asks for. *)
Definition reset_state : State :=
  {| original := SAMPLE_ORIGINAL;
     modified := SAMPLE_MODIFIED;
     language := VString (str "javascript");
     theme := VString (str "vs-dark");
     sideBySide := VBool true;
     ignoreTrimWhitespace := VBool true;
     fontSize := fourteen;
     toast := VString (str "Reset") |}.

(** The keys of the store with their documented defaults. *)
Definition default_entries : list (jstring * value) :=
  map (fun p => (snd (fst p), snd p)) persisted.

(** A positive finite number. *)
Definition positive_finite (v : value) : bool :=
  match v with
  | VNumber (Finite false _ _) => true
  | _ => false
  end.

(** ** Vocabulary of the JSON round trip *)

Definition is_digits (ds : list N) : Prop := Forall (fun d => d < 10) ds.

(** A text that does not continue a run of digits. *)
Definition no_digit_head (s : jstring) : Prop :=
  match s with
  | [] => True
  | c :: _ => Char.is_digit c = false
  end.

(** A text that can follow a JSON value: nothing, or a comma or a closing
    bracket or brace. *)
Definition delimited (s : jstring) : Prop :=
  match s with
  | [] => True
  | c :: _ => c = Char.COMMA \/ c = Char.RBRACKET \/ c = Char.RBRACE
  end.

(** The text of a number as [JSON.stringify] writes it: sign, integer part,
    fraction, exponent. *)
Definition number_text (neg : bool) (ip fp : list N) (ex : option (bool * list N)) : jstring :=
  (if neg then [Char.MINUS] else []) ++
  Digits.chars ip ++
  (match fp with
   | [] => []
   | _ => [Char.DOT] ++ Digits.chars fp
   end) ++
  (match ex with
   | Some (eneg, es) => [101; if eneg then Char.MINUS else Char.PLUS] ++ Digits.chars es
   | None => []
   end).

Definition exponent_value (ex : option (bool * list N)) : Z :=
  match ex with
  | Some (eneg, es) =>
      if eneg then (- Z.of_N (Digits.value es))%Z else Z.of_N (Digits.value es)
  | None => 0%Z
  end.

(** A decimal in canonical form, other than the negative zero. *)
Definition canonical_decimal (x : number) : bool :=
  match x with
  | Zero false => true
  | Finite _ m _ => negb (N.pos m mod 10 =? 0)
  | _ => false
  end.

(** The numbers [JSON.stringify] writes as themselves: the finite Numbers
    except the negative zero.  A Number is written by its shortest digits, so
    it is the Number that its own decimal denotes. *)
Definition json_number (x : number) : bool :=
  canonical_decimal x && bool_decide (Num.binary64 x = x).

(** The values that [JSON.stringify] followed by [JSON.parse] gives back: no
    [undefined], numbers as [json_number], and objects whose properties are in
    the order in which [JSON.parse] would enumerate them. *)
Fixpoint json_valid (v : value) : bool :=
  match v with
  | VUndefined => false
  | VNull | VBool _ | VString _ => true
  | VNumber x => json_number x
  | VArray l => forallb json_valid l
  | VObject ms =>
      forallb (fun m => json_valid (snd m)) ms &&
      JS.value_eqb
        (VObject (fold_left (fun acc m => JSON.define_member acc (fst m) (snd m)) ms []))
        (VObject ms)
  end.

(** The text of a valid value. *)
Definition text_of (v : value) : jstring :=
  match JSON.serialize v with
  | Some t => t
  | None => str "null"
  end.

(** The text of a property of an object. *)
Definition member_text (m : jstring * value) : jstring :=
  JSON.quote (fst m) ++ [Char.COLON] ++ text_of (snd m).

(** The text of a valid value starts with a character that is neither white
    space nor a closing bracket or brace. *)
Definition opens_value (t : jstring) : Prop :=
  exists c t', t = c :: t' /\ JSON.is_ws c = false /\
               (c =? Char.RBRACKET) = false /\ (c =? Char.RBRACE) = false.


(** What the induction on a value gives for each of its components. *)
Definition parses_back (v : value) : Prop :=
  json_valid v = true ->
  forall fuel rest, (2 * length (text_of v) <= fuel)%nat -> delimited rest ->
  JSON.parse_value fuel (text_of v ++ rest) = Some (v, rest).


(** ** Vocabulary of the further properties *)

(** The timers that are due once [dt] milliseconds have passed. *)
Definition ready (dt : N) (m : Machine) : list Timer :=
  filter (fun x => due x <= clock (timers m) + dt) (pending (timers m)).

(** The message of [handleCopy] for the text [text]. *)
Definition copy_message (text : value) (m : Machine) : value :=
  if copy_succeeds text m then VString (str "Copied") else VString (str "Copy failed").

(** The setter calls an event makes, in order. *)
Definition setter_calls (e : event) (m : Machine) : list (field * updater) :=
  match e with
  | EditorMounted _ => []
  | ContentChanged ed text =>
      repeat (field_of (snd ed), KeepIfSame (VString text))
        (length (filter (fun l => target l = ed) (listeners (editors m))))
  | LanguageSelected v => [(Language, Assign (VString v))]
  | ThemeSelected v => [(Theme, Assign (VString v))]
  | FontSizeInput typed =>
      [(FontSize, Assign (VNumber (JS.StringToNumber (HTML.number_input_value typed))))]
  | SideBySideClicked => [(SideBySide, Negate)]
  | IgnoreTrimClicked => [(IgnoreTrimWhitespace, Negate)]
  | SwapClicked =>
      [(Original, Assign (modified (state (react m))));
       (Modified, Assign (original (state (react m))))]
  | CopyLeftClicked => [(Toast, Assign (copy_message (original (state (react m))) m))]
  | CopyRightClicked => [(Toast, Assign (copy_message (modified (state (react m))) m))]
  | CopyLeftStarted | CopyRightStarted => []
  | CopySettled =>
      match writing (clipboard m) with
      | text :: _ => [(Toast, Assign (copy_message text m))]
      | [] => []
      end
  | ResetClicked => reset_calls ++ [(Toast, Assign (VString (str "Reset")))]
  | Elapsed dt => map (fun _ => (Toast, Assign VNull)) (ready dt m)
  | Unmounted => []
  end.

(** An event that the component takes: the user interface is gone once the
    component is unmounted. *)
Definition taken (e : event) (m : Machine) : bool :=
  negb (needs_mounted e) || mounted (react m).

(** The store key of a state field; the toast has none. *)
Definition key_of (f : field) : option jstring :=
  match f with
  | Original => Some (str "codeDiff.original")
  | Modified => Some (str "codeDiff.modified")
  | Language => Some (str "codeDiff.language")
  | Theme => Some (str "codeDiff.theme")
  | SideBySide => Some (str "codeDiff.sideBySide")
  | IgnoreTrimWhitespace => Some (str "codeDiff.ignoreTrimWhitespace")
  | FontSize => Some (str "codeDiff.fontSize")
  | Toast => None
  end.

(** The last [writeStorage] call for a key. *)
Definition last_write (key : jstring) (ws : list (jstring * value)) : option value :=
  snd <$> last (filter (fun kv => fst kv = key) ws).

(** Every [setItem] of a sequence of [writeStorage] calls succeeds. *)
Fixpoint accepted (w : Storage) (ws : list (jstring * value)) : bool :=
  match ws with
  | [] => true
  | kv :: ws' =>
      negb (throws (fst (localStorage.setItem w (fst kv) (JSON.stringify (snd kv))))) &&
      accepted (snd (writeStorage w (fst kv) (snd kv))) ws'
  end.

(** The seven persisted fields. *)
Definition persisted_fields : list field :=
  [Original; Modified; Language; Theme; SideBySide; IgnoreTrimWhitespace; FontSize].

(** The state with which the component starts when the store gives nothing. *)
Definition default_state : State :=
  {| original := SAMPLE_ORIGINAL;
     modified := SAMPLE_MODIFIED;
     language := VString (str "javascript");
     theme := VString (str "vs-dark");
     sideBySide := VBool true;
     ignoreTrimWhitespace := VBool true;
     fontSize := fourteen;
     toast := VNull |}.

(** The timers after [showToast]. *)
Definition shown_timers (m : Machine) : Timers :=
  {| clock := clock (timers m); next_timer := next_timer (timers m) + 1;
     pending := [toast_timer m]; fired := fired (timers m) |}.

(** The timers after an event that the component takes. *)
Definition timers_after (e : event) (m : Machine) : Timers :=
  match e with
  | CopyLeftClicked | CopyRightClicked | ResetClicked => shown_timers m
  | CopySettled =>
      match writing (clipboard m) with
      | _ :: _ => shown_timers m
      | [] => timers m
      end
  | Elapsed dt =>
      {| clock := clock (timers m) + dt; next_timer := next_timer (timers m);
         pending := filter (fun x => clock (timers m) + dt < due x) (pending (timers m));
         fired := fired (timers m) ++ map timer_id (ready dt m) |}
  | Unmounted =>
      {| clock := clock (timers m); next_timer := next_timer (timers m);
         pending := []; fired := fired (timers m) |}
  | _ => timers m
  end.

(** The clipboard after an event that the component takes. *)
Definition clipboard_after (e : event) (m : Machine) : Clipboard :=
  let write text pending :=
    {| permission := permission (clipboard m);
       content :=
         match permission (clipboard m), JS.ToString text with
         | Allowed, Normal s => s
         | _, _ => content (clipboard m)
         end;
       writing := pending |} in
  let request text :=
    {| permission := permission (clipboard m); content := content (clipboard m);
       writing := writing (clipboard m) ++ [text] |} in
  match e with
  | CopyLeftClicked => write (original (state (react m))) (writing (clipboard m))
  | CopyRightClicked => write (modified (state (react m))) (writing (clipboard m))
  | CopyLeftStarted => request (original (state (react m)))
  | CopyRightStarted => request (modified (state (react m)))
  | CopySettled =>
      match writing (clipboard m) with
      | text :: rest => write text rest
      | [] => clipboard m
      end
  | _ => clipboard m
  end.

(** The two subscriptions of [handleMount] on the diff editor [ed], the first
    with the handle [h]. *)
Definition subscriptions (ed : nat) (h : N) : list Listener :=
  [ {| handle := h; target := (ed, OriginalEditor);
       on_change := SyncOriginal (ed, OriginalEditor) |};
    {| handle := h + 1; target := (ed, ModifiedEditor);
       on_change := SyncModified (ed, ModifiedEditor) |} ].

(** The active subscriptions are those of the diff editor of [diffEditorRef]. *)
Definition Subscribed (m : Machine) : Prop :=
  listeners (editors m) = [] \/
  exists ed h, diffEditorRef (refs m) = Some ed /\
               listeners (editors m) = subscriptions ed h.

(** The footer shows a message ([toast ? ... : ...]) exactly while the timer
    of [showToast] is pending, and that timer is due within 1200 ms. *)
Definition Toasting (m : Machine) : Prop :=
  (toast (state (react m)) = VNull /\ pending (timers m) = []) \/
  (exists t, pending (timers m) = [t] /\
             clock (timers m) < due t <= clock (timers m) + 1200 /\
             JS.ToBoolean (toast (state (react m))) = true).

(** The events that call a setter of a state the [options] depend on. *)
Definition sets_option (e : event) : bool :=
  match e with
  | FontSizeInput _ | SideBySideClicked | IgnoreTrimClicked | ResetClicked => true
  | _ => false
  end.

(** A store the page cannot use. *)
Definition blocked_storage : Storage := {| access := Blocked; items := ∅; quota := 0 |}.


(** The states that the render converts: see [render]. *)
Definition rendered (f : field) : bool :=
  match f with
  | Language | Theme | FontSize => true
  | _ => false
  end.

(** * Properties *)

(** ** Induction on values *)

Section ValueInduction.
Variable P : value -> Prop.
Hypothesis Hundefined : P VUndefined.
Hypothesis Hnull : P VNull.
Hypothesis Hbool : forall b, P (VBool b).
Hypothesis Hnumber : forall x, P (VNumber x).
Hypothesis Hstring : forall s, P (VString s).
Hypothesis Harray : forall l, Forall P l -> P (VArray l).
Hypothesis Hobject : forall ms, Forall (fun m => P (snd m)) ms -> P (VObject ms).

Fixpoint value_ind (v : value) : P v :=
match v with
| VUndefined => Hundefined
| VNull => Hnull
| VBool b => Hbool b
| VNumber x => Hnumber x
| VString s => Hstring s
| VArray l =>
  Harray l ((fix go (l : list value) : Forall P l :=
               match l with
               | [] => List.Forall_nil P
               | x :: r => List.Forall_cons P x r (value_ind x) (go r)
               end) l)
| VObject ms =>
  Hobject ms ((fix go (ms : list (jstring * value)) : Forall (fun m => P (snd m)) ms :=
                 match ms with
                 | [] => List.Forall_nil _
                 | m :: r => List.Forall_cons _ m r (value_ind (snd m)) (go r)
                 end) ms)
end.
End ValueInduction.

Lemma value_eqb_eq (a b : value) : JS.value_eqb a b = true <-> a = b.
Proof.
  revert b. induction a as [| |x|x|s|l IH|ms IH] using value_ind; intros b;
    destruct b as [| |y|y|t|l'|ms']; cbn; try (split; [discriminate | congruence]);
    try (split; reflexivity).
  - destruct x, y; cbn; split; congruence.
  - rewrite bool_decide_eq_true. split; congruence.
  - rewrite bool_decide_eq_true. split; congruence.
  - revert l'. induction IH as [|x r Hx _ IHr]; intros [|y r']; try (split; [discriminate | congruence]).
    + split; reflexivity.
    + rewrite andb_true_iff, Hx, IHr. split.
      * intros [-> E]. congruence.
      * intros E. split; congruence.
  - revert ms'. induction IH as [|[k x] r Hx _ IHr]; intros [|[k' y] r']; try (split; [discriminate | congruence]).
    + split; reflexivity.
    + cbn [fst snd] in *. rewrite !andb_true_iff, bool_decide_eq_true, Hx, IHr. split.
      * intros [[-> ->] E]. congruence.
      * intros E. repeat split; congruence.
Qed.

Lemma value_eqb_refl (a : value) : JS.value_eqb a a = true.
Proof. by apply value_eqb_eq. Qed.

(** ** Running the monad *)

Ltac mred :=
  repeat (progress
    (unfold mbind, mret, M_bind, M_ret, set, gets, modify, throw, try_catchM, exec,
       set_toastTimer, set_disposablesRef, set_diffEditorRef,
       window.setTimeout, window.clearTimeout,
       editor.getValue, editor.onDidChangeModelContent, editor.dispose, editor.setText,
       navigator.clipboard_writeText;
     cbn)).

Lemma exec_seq {A B} (c : M A) (k : M B) (m : Machine) (a : A) :
  fst (c m) = Normal a -> (c ;; k) m = k (exec c m).
Proof.
  unfold mbind, M_bind, exec. destruct (c m) as [[a'|e] m']; cbn; intros E; [done | discriminate].
Qed.

Lemma bind_normal {A B} (c : M A) (k : A -> M B) (m m' : Machine) (a : A) :
  c m = (Normal a, m') -> (c ≫= k) m = k a m'.
Proof. unfold mbind, M_bind. by intros ->. Qed.

(** ** The Persisted Field Store never throws *)

(** The text that [setItem] receives from [writeStorage]. *)
Lemma ToString_stringify (v : value) :
  JS.ToString (JSON.stringify v) = Normal (stored_text v).
Proof. unfold JSON.stringify, stored_text. by destruct (JSON.serialize v). Qed.

Lemma writeStorage_normal (w : Storage) (key : jstring) (v : value) :
  fst (writeStorage w key v) = Normal VUndefined.
Proof.
  unfold writeStorage. by destruct (localStorage.setItem w key (JSON.stringify v)) as [[[]|e] w'].
Qed.

Lemma readStorage_normal (w : Storage) (key : jstring) (fallback : value) :
  exists v, readStorage w key fallback = Normal v.
Proof.
  unfold readStorage, localStorage.window_undefined, localStorage.getItem, localStorage.resolve.
  destruct (access w); cbn; eauto.
  destruct (items w !! key) as [text|]; cbn; eauto.
  destruct (JSON.parse text); cbn; eauto.
Qed.

Lemma useLocalStorageState_init_normal key initialValue m :
  exists v, useLocalStorageState_init key initialValue m = (Normal v, m).
Proof.
  unfold useLocalStorageState_init.
  destruct (readStorage_normal (store m) key initialValue) as [v ->]. eauto.
Qed.

(** ** Rendering *)

Lemma with_store_id (m : Machine) : with_store (store m) (writes m) m = m.
Proof. by destruct m. Qed.

Lemma effects_eq (old : option State) (new : State) (l : list (field * jstring * value))
    (m : Machine) :
  let ws :=
    flat_map (fun p =>
      let v := get_field (fst (fst p)) new in
      match old with
      | Some st => if JS.Object_is (get_field (fst (fst p)) st) v then [] else [(snd (fst p), v)]
      | None => [(snd (fst p), v)]
      end) l in
  forEach l (fun p =>
    useLocalStorageState_effect (snd (fst p))
      (match old with
       | Some st => Some (get_field (fst (fst p)) st)
       | None => None
       end)
      (get_field (fst (fst p)) new)) m
  = (Normal tt, with_store (store_after (store m) ws) (writes m ++ ws) m).
Proof.
  revert m. induction l as [|[[f key] dflt] l IH]; intros m; cbn.
  - rewrite app_nil_r. by rewrite with_store_id.
  - unfold mbind, M_bind. unfold useLocalStorageState_effect at 1. cbn [fst snd].
    assert (Hw := writeStorage_normal (store m) key (get_field f new)).
    destruct old as [st|]; cbn.
    + destruct (JS.Object_is (get_field f st) (get_field f new)); cbn.
      * apply IH.
      * destruct (writeStorage (store m) key (get_field f new)) as [[u|e] w'] eqn:E;
          cbn in Hw; [|discriminate].
        rewrite IH. cbn. unfold store_after. cbn. by rewrite <- app_assoc.
    + destruct (writeStorage (store m) key (get_field f new)) as [[u|e] w'] eqn:E;
        cbn in Hw; [|discriminate].
      rewrite IH. cbn. unfold store_after. cbn. by rewrite <- app_assoc.
Qed.

Lemma run_effects_eq (old : option State) (new : State) (m : Machine) :
  run_effects old new m
  = (Normal tt,
     with_store (store_after (store m) (effect_writes old new))
       (writes m ++ effect_writes old new) m).
Proof. apply effects_eq. Qed.

Lemma state_same_eq (a b : State) : state_same a b = true <-> a = b.
Proof.
  unfold state_same, JS.Object_is. cbn. rewrite !andb_true_iff, !value_eqb_eq.
  destruct a, b. cbn. split.
  - intros (-> & -> & -> & -> & -> & -> & -> & -> & _). reflexivity.
  - intros [= -> -> -> -> -> -> -> ->]. repeat split.
Qed.

(** The state after the queued setter calls. *)
Lemma flush_eq (m : Machine) :
  let new := fold_left apply_update (queue (react m)) (state (react m)) in
  flush m =
  (Normal tt,
   if mounted (react m) then
     if state_same (state (react m)) new then set_react new (renders (react m)) true m
     else
       with_store (store_after (store m) (effect_writes (Some (state (react m))) new))
         (writes m ++ effect_writes (Some (state (react m))) new)
         (set_react new (S (renders (react m))) true m)
   else set_react (state (react m)) (renders (react m)) false m).
Proof.
  cbn zeta. unfold flush. destruct (mounted (react m)); [|done].
  destruct (state_same _ _) eqn:E.
  - apply state_same_eq in E. by rewrite <- E.
  - by rewrite run_effects_eq.
Qed.
(** ** Lists *)

Lemma filter_all {A} (P : A -> Prop) `{forall x, Decision (P x)} (l : list A) :
  Forall P l -> filter P l = l.
Proof.
  induction 1 as [|x l Hx _ IH]; [done|]. by rewrite filter_cons_True, IH.
Qed.

Lemma filter_none {A} (P : A -> Prop) `{forall x, Decision (P x)} (l : list A) :
  Forall (fun x => ~ P x) l -> filter P l = [].
Proof.
  induction 1 as [|x l Hx _ IH]; [done|]. by rewrite filter_cons_False.
Qed.

(** ** Subscriptions *)

Lemma filter_handle_cons (d : N) (ds : list N) (ls : list Listener) :
  filter (fun l => handle l ∉ ds) (filter (fun l => handle l <> d) ls)
  = filter (fun l => handle l ∉ d :: ds) ls.
Proof.
  rewrite list_filter_filter. apply list_filter_iff.
  intros l. rewrite not_elem_of_cons. tauto.
Qed.

Lemma forEach_dispose (ds : list N) (m : Machine) :
  forEach ds editor.dispose m =
  (Normal tt,
   with_editors (fun e =>
     {| next_handle := next_handle e;
        listeners := filter (fun l => handle l ∉ ds) (listeners e);
        texts := texts e |}) m).
Proof.
  revert m. induction ds as [|d ds IH]; intros m.
  - destruct m as [r rf w log t [nh ls tx] c]. cbn. unfold with_editors. cbn.
    rewrite filter_all; [done|]. apply Forall_forall. intros l _. apply not_elem_of_nil.
  - cbn [forEach]. rewrite (exec_seq _ _ _ tt) by reflexivity. rewrite IH.
    destruct m as [r rf w log t [nh ls tx] c]. unfold with_editors, exec. cbn.
    by rewrite filter_handle_cons.
Qed.

Lemma filter_own_handles (ls : list Listener) :
  filter (fun l => handle l ∉ map handle ls) ls = [].
Proof.
  apply filter_none, Forall_forall. intros l Hl Hn. apply Hn.
  apply list_elem_of_fmap. eauto.
Qed.

(** [handleMount] in a state where the subscriptions are those recorded in
    [disposablesRef]. *)
Lemma handleMount_eq (ed : nat) (m : Machine) :
  map handle (listeners (editors m)) = disposablesRef (refs m) ->
  handleMount ed m =
  (Normal tt,
   let h := next_handle (editors m) in
   {| react := react m;
      refs := {| toastTimer := toastTimer (refs m);
                 disposablesRef := [h; h + 1];
                 diffEditorRef := Some ed |};
      store := store m;
      writes := writes m;
      timers := timers m;
      editors :=
        {| next_handle := h + 1 + 1;
           listeners :=
             [ {| handle := h; target := (ed, OriginalEditor);
                  on_change := SyncOriginal (ed, OriginalEditor) |};
               {| handle := h + 1; target := (ed, ModifiedEditor);
                  on_change := SyncModified (ed, ModifiedEditor) |} ];
           texts := texts (editors m) |};
      clipboard := clipboard m |}).
Proof.
  intros Hh. unfold handleMount.
  unfold mbind, M_bind, set_diffEditorRef, gets, modify. cbn.
  rewrite forEach_dispose. cbn. rewrite <- Hh, filter_own_handles.
  reflexivity.
Qed.
(** ** Listeners *)

Lemma enqueue_nil (m : Machine) : enqueue [] m = m.
Proof. destruct m as [[st q n al] rf w log t e c]. unfold enqueue, with_react. cbn. by rewrite app_nil_r. Qed.

Lemma enqueue_enqueue (a b : list (field * updater)) (m : Machine) :
  enqueue b (enqueue a m) = enqueue (a ++ b) m.
Proof. unfold enqueue, with_react. cbn. by rewrite app_assoc. Qed.

Lemma run_handler_eq (h : handler) (m : Machine) :
  run_handler h m = (Normal tt, enqueue [setter_call (texts (editors m)) h] m).
Proof. by destruct h. Qed.

Lemma forEach_run_handler (ls : list Listener) (m : Machine) :
  forEach ls (fun l => run_handler (on_change l)) m =
  (Normal tt, enqueue (map (fun l => setter_call (texts (editors m)) (on_change l)) ls) m).
Proof.
  revert m. induction ls as [|l ls IH]; intros m; cbn [forEach map].
  - by rewrite enqueue_nil.
  - rewrite (exec_seq _ _ _ tt) by (by rewrite run_handler_eq).
    unfold exec. rewrite run_handler_eq. cbn [snd]. rewrite IH, enqueue_enqueue. reflexivity.
Qed.

Lemma fire_eq (ed : region) (m : Machine) :
  fire ed m =
  (Normal tt,
   enqueue (map (fun l => setter_call (texts (editors m)) (on_change l))
              (filter (fun l => target l = ed) (listeners (editors m)))) m).
Proof. unfold fire. erewrite bind_normal by reflexivity. apply forEach_run_handler. Qed.

(** ** Notifications *)

Lemma showToast_eq (msg : value) (m : Machine) :
  showToast msg m =
  (Normal tt,
   {| react := react (enqueue [(Toast, Assign msg)] m);
      refs := {| toastTimer := next_timer (timers m);
                 disposablesRef := disposablesRef (refs m);
                 diffEditorRef := diffEditorRef (refs m) |};
      store := store m;
      writes := writes m;
      timers :=
        {| clock := clock (timers m);
           next_timer := next_timer (timers m) + 1;
           pending :=
             (if toastTimer (refs m) =? 0 then pending (timers m)
              else filter (fun x => timer_id x <> toastTimer (refs m)) (pending (timers m)))
             ++ [toast_timer m];
           fired := fired (timers m) |};
      editors := editors m;
      clipboard := clipboard m |}).
Proof.
  unfold showToast. mred. destruct (toastTimer (refs m) =? 0); reflexivity.
Qed.

(** With at most the timer of [toastTimer] pending, [showToast] leaves its
    own timer alone. *)
Lemma cancel_pending (m : Machine) :
  Stable m ->
  (if toastTimer (refs m) =? 0 then pending (timers m)
   else filter (fun x => timer_id x <> toastTimer (refs m)) (pending (timers m))) = [].
Proof.
  intros [_ _ Ht _]. destruct (N.eqb_spec (toastTimer (refs m)) 0) as [E|E].
  - destruct Ht as [->|[Hn _]]; [done|contradiction].
  - destruct Ht as [->|[_ [d ->]]]; [done|]. by rewrite filter_cons_False by (cbn; tauto).
Qed.

Lemma showToast_stable_eq (msg : value) (m : Machine) :
  Stable m ->
  showToast msg m =
  (Normal tt,
   {| react := react (enqueue [(Toast, Assign msg)] m);
      refs := {| toastTimer := next_timer (timers m);
                 disposablesRef := disposablesRef (refs m);
                 diffEditorRef := diffEditorRef (refs m) |};
      store := store m;
      writes := writes m;
      timers :=
        {| clock := clock (timers m);
           next_timer := next_timer (timers m) + 1;
           pending := [toast_timer m];
           fired := fired (timers m) |};
      editors := editors m;
      clipboard := clipboard m |}).
Proof. intros H. by rewrite showToast_eq, cancel_pending. Qed.

(** ** [Stable] is kept by every handler *)

Lemma Stable_frame (m m' : Machine) :
  refs m' = refs m -> timers m' = timers m -> editors m' = editors m ->
  Stable m -> Stable m'.
Proof. intros Hr Ht He [H1 H2 H3 H4]. split; by rewrite ?Hr, ?Ht, ?He. Qed.

Lemma Stable_enqueue (calls : list (field * updater)) (m : Machine) :
  Stable m -> Stable (enqueue calls m).
Proof. by apply Stable_frame. Qed.

Lemma flush_frame (m : Machine) :
  exists m', flush m = (Normal tt, m') /\
    queue (react m') = [] /\ mounted (react m') = mounted (react m) /\
    refs m' = refs m /\ timers m' = timers m /\ editors m' = editors m /\
    clipboard m' = clipboard m.
Proof.
  eexists. split; [apply flush_eq|]. cbn zeta.
  destruct (mounted (react m)) eqn:Hm; [destruct (state_same _ _)|]; by cbn.
Qed.

Lemma Stable_flush (m : Machine) : Stable m -> Inv (exec flush m).
Proof.
  intros H. destruct (flush_frame m) as (m' & E & Hq & _ & Hr & Ht & He & _).
  unfold exec. rewrite E. split; [done|]. by apply (Stable_frame m).
Qed.

Lemma Stable_showToast (msg : value) (m : Machine) :
  Stable m -> Stable (exec (showToast msg) m).
Proof.
  intros H. unfold exec. rewrite showToast_stable_eq by done.
  destruct H as [H1 H2 H3 H4]. split; cbn; try done.
  - right. split; [lia|]. by exists (clock (timers m) + 1200).
  - lia.
Qed.

Lemma Stable_handleMount (ed : nat) (m : Machine) :
  Stable m -> Stable (exec (handleMount ed) m).
Proof.
  intros H. unfold exec. rewrite handleMount_eq by apply H.
  destruct H as [H1 H2 H3 H4]. split; cbn; try done.
  repeat constructor.
Qed.

Lemma cleanup_eq (m : Machine) :
  Stable m ->
  cleanup m =
  (Normal tt,
   {| react := react m;
      refs := {| toastTimer := toastTimer (refs m); disposablesRef := [];
                 diffEditorRef := diffEditorRef (refs m) |};
      store := store m;
      writes := writes m;
      timers := {| clock := clock (timers m); next_timer := next_timer (timers m);
                   pending := []; fired := fired (timers m) |};
      editors := {| next_handle := next_handle (editors m); listeners := [];
                    texts := texts (editors m) |};
      clipboard := clipboard m |}).
Proof.
  intros H. pose proof (cancel_pending m H) as Hc.
  unfold cleanup. unfold mbind, M_bind, gets. cbn.
  rewrite forEach_dispose. cbn.
  unfold set_disposablesRef, window.clearTimeout, modify, with_refs, with_editors, with_timers.
  cbn. rewrite <- (inv_handles _ H), filter_own_handles.
  destruct m as [r rf w log [ck nt pd fd] e c]. cbn in *.
  destruct (toastTimer rf =? 0); cbn; by rewrite Hc.
Qed.
(** ** Time *)

Lemma elapse_idle (dt : N) (m : Machine) :
  Forall (fun x => clock (timers m) + dt < due x) (pending (timers m)) ->
  elapse dt m =
  (Normal tt, tick (clock (timers m) + dt) (pending (timers m)) (fired (timers m)) m).
Proof.
  intros H. unfold elapse.
  rewrite (filter_none (fun x => due x <= clock (timers m) + dt)), (filter_all _ _ H).
  - cbn. by rewrite app_nil_r.
  - eapply Forall_impl; [exact H|]. cbn. intros x. lia.
Qed.

Lemma elapse_fire (dt : N) (m : Machine) (t : Timer) :
  pending (timers m) = [t] -> due t <= clock (timers m) + dt ->
  elapse dt m =
  (run_callback (action t) ;; flush)
    (tick (clock (timers m) + dt) [] (fired (timers m) ++ [timer_id t]) m).
Proof.
  intros Hp Hd. unfold elapse. rewrite Hp.
  rewrite filter_cons_True by done. rewrite filter_cons_False by (cbn; lia).
  rewrite !filter_nil. cbn [forEach map].
  unfold mbind at 1. unfold M_bind at 1.
  destruct ((run_callback (action t) ;; flush) _) as [[[]|e] m']; reflexivity.
Qed.

(** ** The clipboard *)

Lemma copyToClipboard_eq (text : value) (m : Machine) :
  copyToClipboard text m =
  match permission (clipboard m), JS.ToString text with
  | Allowed, Normal s => (Normal true, copied s m)
  | _, _ => (Normal false, m)
  end.
Proof.
  unfold copyToClipboard, try_catchM, mbind, M_bind, navigator.clipboard_writeText.
  by destruct (permission (clipboard m)), (JS.ToString text).
Qed.

(** The rest of [handleCopy] once the text is chosen. *)
Lemma copy_text_eq (text : value) (m : Machine) :
  (ok ← copyToClipboard text ;
   showToast (if ok : bool then VString (str "Copied") else VString (str "Copy failed"))) m =
  match permission (clipboard m), JS.ToString text with
  | Allowed, Normal s => showToast (VString (str "Copied")) (copied s m)
  | _, _ => showToast (VString (str "Copy failed")) m
  end.
Proof.
  unfold mbind at 1. unfold M_bind at 1. rewrite copyToClipboard_eq.
  by destruct (permission (clipboard m)), (JS.ToString text).
Qed.

Lemma handleCopy_eq (which : value) (m : Machine) :
  handleCopy which m =
  match permission (clipboard m), JS.ToString (copy_source which (state (react m))) with
  | Allowed, Normal s => showToast (VString (str "Copied")) (copied s m)
  | _, _ => showToast (VString (str "Copy failed")) m
  end.
Proof.
  unfold handleCopy. erewrite bind_normal by reflexivity. apply copy_text_eq.
Qed.

Lemma handleCopy_request_eq (which : value) (m : Machine) :
  handleCopy_request which m
  = (Normal tt, requested (copy_source which (state (react m))) m).
Proof. reflexivity. Qed.

Lemma handleCopy_settled_eq (m : Machine) :
  handleCopy_settled m =
  match writing (clipboard m) with
  | [] => (Normal tt, m)
  | text :: rest =>
      match permission (clipboard m), JS.ToString text with
      | Allowed, Normal s => showToast (VString (str "Copied")) (copied s (dequeued rest m))
      | _, _ => showToast (VString (str "Copy failed")) (dequeued rest m)
      end
  end.
Proof.
  unfold handleCopy_settled, navigator.clipboard_settle.
  unfold mbind at 1. unfold M_bind at 1.
  destruct (writing (clipboard m)) as [|text rest]; [reflexivity|].
  apply (copy_text_eq text (dequeued rest m)).
Qed.

(** [handleCopy] is its two halves when no other write is pending. *)
Lemma handleCopy_halves (which : value) (m : Machine) :
  writing (clipboard m) = [] ->
  handleCopy which m
  = (handleCopy_request which ;; handleCopy_settled) m.
Proof.
  intros Hw. rewrite (exec_seq _ _ _ tt) by reflexivity. unfold exec.
  rewrite handleCopy_request_eq. cbn [snd]. rewrite handleCopy_settled_eq, handleCopy_eq.
  unfold requested, dequeued, with_clipboard. cbn [clipboard writing permission].
  rewrite Hw. cbn [app].
  destruct m as [r rf w log t e [p c ws]]. cbn in Hw. subst ws. reflexivity.
Qed.

Lemma set_eq (f : field) (u : updater) (m : Machine) :
  set f u m = (Normal tt, enqueue [(f, u)] m).
Proof. reflexivity. Qed.

Lemma handleSwap_eq (m : Machine) :
  handleSwap m =
  (Normal tt,
   enqueue [(Original, Assign (modified (state (react m))));
            (Modified, Assign (original (state (react m))))] m).
Proof. unfold handleSwap. mred. unfold enqueue, with_react. cbn. by rewrite <- app_assoc. Qed.

Lemma handleReset_eq (m : Machine) :
  handleReset m = showToast (VString (str "Reset")) (enqueue reset_calls m).
Proof.
  unfold handleReset.
  do 7 (rewrite (exec_seq _ _ _ tt) by reflexivity).
  f_equal. unfold exec. rewrite !set_eq. cbn [snd]. by rewrite !enqueue_enqueue.
Qed.

(** ** Every handler returns normally and keeps [Stable] *)

Lemma Stable_tick (now : N) (m : Machine) :
  Stable m -> Stable (tick now (pending (timers m)) (fired (timers m)) m).
Proof. intros [H1 H2 H3 H4]. by split. Qed.

Lemma Stable_tick_nil (now : N) (fd : list N) (m : Machine) :
  Stable m -> Stable (tick now [] fd m).
Proof. intros [H1 H2 H3 H4]. split; cbn; auto. Qed.

Lemma elapse_stable (dt : N) (m : Machine) :
  Inv m -> exists m', elapse dt m = (Normal tt, m') /\ Inv m'.
Proof.
  intros [Hq H]. destruct (inv_timer _ H) as [Hp|[_ [d Hp]]].
  - eexists. split; [apply elapse_idle; by rewrite Hp|]. split; [done|]. by apply Stable_tick.
  - destruct (decide (d <= clock (timers m) + dt)) as [Hd|Hd].
    + erewrite elapse_fire by (try exact Hp; done). cbn [action run_callback].
      rewrite (exec_seq _ _ _ tt) by reflexivity.
      set (m1 := exec _ _).
      assert (Stable m1) as H1 by (by apply (Stable_enqueue [(Toast, Assign VNull)]), Stable_tick_nil).
      destruct (flush_frame m1) as (m' & E & Hq' & _ & Hr & Ht & He & _).
      exists m'. split; [done|]. split; [done|]. by apply (Stable_frame m1).
    + eexists. split; [apply elapse_idle; rewrite Hp; repeat constructor; cbn; lia|].
      split; [done|]. by apply Stable_tick.
Qed.

Lemma showToast_stable (msg : value) (m : Machine) :
  Stable m -> exists m', showToast msg m = (Normal tt, m') /\ Stable m'.
Proof.
  intros H. exists (exec (showToast msg) m). split; [|by apply Stable_showToast].
  unfold exec. by rewrite showToast_eq.
Qed.

Ltac copy_cases m :=
  destruct (permission (clipboard m));
  try (match goal with |- context [JS.ToString ?t] => destruct (JS.ToString t) end).

Lemma dispatch_stable (e : event) (m : Machine) :
  Inv m -> exists m', dispatch e m = (Normal tt, m') /\ Stable m'.
Proof.
  intros [Hq H]. destruct e; cbn [dispatch].
  - exists (exec (handleMount ed) m). split; [|by apply Stable_handleMount].
    unfold exec. by rewrite handleMount_eq by apply H.
  - eexists. split.
    + rewrite (exec_seq _ _ _ tt) by reflexivity. apply fire_eq.
    + apply Stable_enqueue. destruct H as [H1 H2 H3 H4]. by split.
  - eexists. split; [reflexivity|]. by apply (Stable_enqueue [_]).
  - eexists. split; [reflexivity|]. by apply (Stable_enqueue [_]).
  - eexists. split; [reflexivity|]. by apply (Stable_frame m).
  - eexists. split; [reflexivity|]. by apply (Stable_enqueue [_]).
  - eexists. split; [reflexivity|]. by apply (Stable_enqueue [_]).
  - eexists. split; [apply handleSwap_eq|]. by apply Stable_enqueue.
  - rewrite handleCopy_eq.
    copy_cases m; apply showToast_stable; try done; by apply (Stable_frame m).
  - rewrite handleCopy_eq.
    copy_cases m; apply showToast_stable; try done; by apply (Stable_frame m).
  - eexists. split; [apply handleCopy_request_eq|]. by apply (Stable_frame m).
  - eexists. split; [apply handleCopy_request_eq|]. by apply (Stable_frame m).
  - rewrite handleCopy_settled_eq. destruct (writing (clipboard m)) as [|text rest]; [eauto|].
    copy_cases m; apply showToast_stable; by apply (Stable_frame m).
  - rewrite handleReset_eq. apply showToast_stable. by apply Stable_enqueue.
  - destruct (elapse_stable dt m) as (m' & E & _ & H'); [by split|]. eauto.
  - unfold unmount. rewrite (exec_seq _ _ _ tt) by (by rewrite cleanup_eq).
    eexists. split; [reflexivity|]. unfold exec. rewrite cleanup_eq by done.
    destruct H as [H1 H2 H3 H4]. split; cbn; auto.
Qed.

Lemma step_eq (m : Machine) (e : event) :
  Inv m ->
  step m e =
  if needs_mounted e && negb (mounted (react m)) then m
  else exec flush (exec (dispatch e) m).
Proof.
  intros H. unfold step. destruct (_ && _); [done|].
  destruct (dispatch_stable e m H) as (m' & E & _).
  unfold exec at 1. by rewrite (exec_seq _ _ _ tt) by (by rewrite E).
Qed.

Lemma step_Inv (m : Machine) (e : event) : Inv m -> Inv (step m e).
Proof.
  intros H. rewrite step_eq by done. destruct (_ && _); [done|].
  destruct (dispatch_stable e m H) as (m' & E & H').
  unfold exec at 2. rewrite E. by apply Stable_flush.
Qed.

(** The machine after the first render: with the effects run when the render
    completes, with nothing mounted when it throws. *)
Lemma mount_eq (w : Storage) (c : Clipboard) :
  exists st,
    mount w c =
    match render st with
    | Normal _ =>
        {| react := {| state := st; queue := []; renders := 1; mounted := true |};
           refs := refs (boot w c);
           store := store_after w (effect_writes None st);
           writes := effect_writes None st;
           timers := timers (boot w c);
           editors := editors (boot w c);
           clipboard := c |}
    | Throw _ =>
        {| react := {| state := st; queue := []; renders := 0; mounted := false |};
           refs := refs (boot w c);
           store := w;
           writes := [];
           timers := timers (boot w c);
           editors := editors (boot w c);
           clipboard := c |}
    end.
Proof.
  unfold mount, exec, App.
  repeat (match goal with
          | |- context [useLocalStorageState_init ?k ?v ≫= _] =>
              let x := fresh "v" in
              destruct (useLocalStorageState_init_normal k v (boot w c)) as [x ?];
              erewrite bind_normal by eassumption
          end).
  match goal with |- context [render ?s] => exists s; destruct (render s) as [[]|e] end.
  - rewrite (exec_seq _ _ _ tt) by reflexivity. rewrite run_effects_eq. reflexivity.
  - reflexivity.
Qed.

Lemma mount_Inv (w : Storage) (c : Clipboard) : Inv (mount w c).
Proof.
  destruct (mount_eq w c) as (st & ->).
  destruct (render st); (split; [done|]); split; cbn; auto; lia.
Qed.

(** Every state the component reaches satisfies the invariant. *)
Lemma run_Inv (es : list event) (m : Machine) : Inv m -> Inv (run es m).
Proof.
  revert m. induction es as [|e es IH]; intros m H; [done|]. apply IH. by apply step_Inv.
Qed.

Lemma reachable_Inv (w : Storage) (c : Clipboard) (es : list event) :
  Inv (run es (mount w c)).
Proof. apply run_Inv, mount_Inv. Qed.
(** ** Content changes *)

Lemma keep_if_same_string (prev : value) (t : jstring) :
  apply_updater (KeepIfSame (VString t)) prev = VString t.
Proof.
  cbn. destruct (JS.strict_equal prev (VString t)) eqn:E; [|done].
  destruct prev as [| |b|x|s|l|ms]; cbn in E; try discriminate.
  - destruct x; discriminate.
  - apply bool_decide_eq_true in E. by subst.
Qed.

Lemma set_field_same (f : field) (st : State) : set_field f (get_field f st) st = st.
Proof. by destruct st, f. Qed.

Lemma get_set_field (f : field) (v : value) (st : State) : get_field f (set_field f v st) = v.
Proof. by destruct f. Qed.

Lemma apply_same_text (f : field) (t : jstring) (st : State) (n : nat) :
  get_field f st = VString t ->
  fold_left apply_update (repeat (f, KeepIfSame (VString t)) n) st = st.
Proof.
  intros H. induction n as [|n IH]; [done|]. cbn [repeat fold_left].
  unfold apply_update at 2. cbn [fst snd]. rewrite keep_if_same_string.
  replace (set_field f (VString t) st) with st; [exact IH|].
  rewrite <- H. symmetry. apply set_field_same.
Qed.

Lemma handler_call (ed : region) (tx : region -> jstring) :
  setter_call tx (handler_for ed) = (field_of (snd ed), KeepIfSame (VString (tx ed))).
Proof. destruct ed as [n []]; reflexivity. Qed.

(** The setter calls of a content change: one for each subscription to the
    editor. *)
Lemma content_change_eq (ed : region) (text : jstring) (m : Machine) :
  Stable m ->
  dispatch (ContentChanged ed text) m =
  (Normal tt,
   enqueue
     (repeat (field_of (snd ed), KeepIfSame (VString text))
        (length (filter (fun l => target l = ed) (listeners (editors m)))))
     (exec (editor.setText ed text) m)).
Proof.
  intros H. cbn [dispatch]. rewrite (exec_seq _ _ _ tt) by reflexivity.
  rewrite fire_eq. do 2 f_equal.
  change (listeners (editors (exec (editor.setText ed text) m))) with (listeners (editors m)).
  pose proof (inv_shape _ H) as Hs.
  induction Hs as [|l ls Hl _ IH]; [done|].
  rewrite filter_cons. destruct (decide (target l = ed)) as [E|E]; [|exact IH].
  cbn [map length repeat]. rewrite IH. f_equal.
  rewrite Hl, E, handler_call. cbn. by rewrite decide_True.
Qed.

Lemma Stable_setText (ed : region) (text : jstring) (m : Machine) :
  Stable m -> Stable (exec (editor.setText ed text) m).
Proof. intros [H1 H2 H3 H4]. by split. Qed.

Lemma Inv_handleMount (ed : nat) (m : Machine) : Inv m -> Inv (exec (handleMount ed) m).
Proof.
  intros [Hq H]. split; [|by apply Stable_handleMount].
  unfold exec. by rewrite handleMount_eq by apply H.
Qed.

Lemma step_content_eq (ed : region) (text : jstring) (m : Machine) :
  Inv m ->
  step m (ContentChanged ed text) =
  exec flush
    (enqueue
       (repeat (field_of (snd ed), KeepIfSame (VString text))
          (length (filter (fun l => target l = ed) (listeners (editors m)))))
       (exec (editor.setText ed text) m)).
Proof.
  intros H. rewrite step_eq by done. cbn [needs_mounted andb].
  unfold exec at 2. by rewrite content_change_eq by apply H.
Qed.

(** The component after a render. *)
Lemma flush_react (m : Machine) :
  let new := fold_left apply_update (queue (react m)) (state (react m)) in
  react (exec flush m) =
  if mounted (react m) then
    {| state := new; queue := [];
       renders := if state_same (state (react m)) new then renders (react m)
                  else S (renders (react m));
       mounted := true |}
  else
    {| state := state (react m); queue := []; renders := renders (react m);
       mounted := false |}.
Proof.
  cbn zeta. unfold exec. rewrite flush_eq. cbn zeta. cbn [snd].
  destruct (mounted (react m)); [|done]. by destruct (state_same _ _).
Qed.

(** C1. Calling [handleMount] twice in succession, on the same or on another
    diff editor, in any state the component can reach: the second call
    disposes every handle the first one stored and leaves [disposablesRef]
    with the two new handles only; exactly one subscription is active on each
    of the two editors, and none elsewhere; and a content change of either
    editor makes exactly one setter call, for the matching buffer, which a
    mounted component applies in at most one render. *)
Theorem handleMount_twice
    (w : Storage) (c : Clipboard) (es : list event) (ed1 ed2 : nat)
    (side : Side) (text : jstring) :
  let m0 := run es (mount w c) in
  let m1 := exec (handleMount ed1) m0 in
  let m2 := exec (handleMount ed2) m1 in
  let h := next_handle (editors m1) in
  let change := ContentChanged (ed2, side) text in
  Forall (fun d => d ∉ map handle (listeners (editors m2))) (disposablesRef (refs m1)) /\
  disposablesRef (refs m2) = [h; h + 1] /\
  listeners (editors m2) =
    [ {| handle := h; target := (ed2, OriginalEditor);
         on_change := SyncOriginal (ed2, OriginalEditor) |};
      {| handle := h + 1; target := (ed2, ModifiedEditor);
         on_change := SyncModified (ed2, ModifiedEditor) |} ] /\
  length (filter (fun l => target l = (ed2, side)) (listeners (editors m2))) = 1%nat /\
  queue (react (exec (dispatch change) m2)) = [(field_of side, KeepIfSame (VString text))] /\
  get_field (field_of side) (state (react (step m2 change))) =
    (if mounted (react m0) then VString text
     else get_field (field_of side) (state (react m0))) /\
  (renders (react (step m2 change)) <= S (renders (react m0)))%nat.
Proof.
  intros m0 m1 m2 h change. subst change.
  assert (Inv m0) as H0 by apply reachable_Inv.
  assert (Inv m1) as H1 by (by apply Inv_handleMount).
  assert (Inv m2) as H2 by (by apply Inv_handleMount).
  assert (m1 = snd (handleMount ed1 m0)) as E1 by reflexivity.
  rewrite handleMount_eq in E1 by apply H0. cbn [snd] in E1.
  assert (m2 = snd (handleMount ed2 m1)) as E2 by reflexivity.
  rewrite handleMount_eq in E2 by apply H1. cbn [snd] in E2. fold h in E2.
  assert (length (filter (fun l => target l = (ed2, side)) (listeners (editors m2))) = 1%nat)
    as Hone.
  { rewrite E2. cbn [editors listeners]. destruct side.
    - rewrite filter_cons_True by done. by rewrite filter_cons_False by (cbn; congruence).
    - rewrite filter_cons_False by (cbn; congruence). by rewrite filter_cons_True by done. }
  assert (disposablesRef (refs m1) = [next_handle (editors m0); next_handle (editors m0) + 1])
    as Hd1 by (by rewrite E1).
  assert (h = next_handle (editors m0) + 1 + 1) as Hh by (unfold h; by rewrite E1).
  split; [|split; [|split; [|split; [|split]]]].
  - rewrite Hd1, E2. cbn. repeat constructor; rewrite !elem_of_cons, elem_of_nil; lia.
  - by rewrite E2.
  - by rewrite E2.
  - exact Hone.
  - unfold exec. rewrite content_change_eq by apply H2. cbn [snd fst]. rewrite Hone.
    cbn. destruct H2 as [-> _]. reflexivity.
  - assert (react m2 = react m0) as Hr by (by rewrite E2, E1).
    rewrite step_content_eq by done. cbn [snd]. rewrite Hone, flush_react. cbn zeta.
    change (react (enqueue ?q (exec ?k m2))) with (react (enqueue q m2)).
    unfold enqueue, with_react. cbn [react mounted state queue renders].
    rewrite Hr. destruct H0 as [Hq0 _]. rewrite Hq0. cbn [app repeat fold_left].
    unfold apply_update. cbn [fst snd]. rewrite keep_if_same_string.
    destruct (mounted (react m0)); cbn [state renders]; [|split; [reflexivity|lia]].
    rewrite get_set_field. split; [reflexivity|]. destruct (state_same _ _); lia.
Qed.
(** C2. A content change of an editor whose text is the stored value of its
    buffer, in any state the component can reach: each listener's updater
    returns the previous value, the state is unchanged, the component does not
    render, and no [writeStorage] call is made (the store is untouched). *)
Theorem content_change_same_text
    (w : Storage) (c : Clipboard) (es : list event) (ed : region) (text : jstring) :
  let m := run es (mount w c) in
  get_field (field_of (snd ed)) (state (react m)) = VString text ->
  let m' := step m (ContentChanged ed text) in
  Forall (fun call => apply_updater (snd call) (get_field (fst call) (state (react m)))
                      = get_field (fst call) (state (react m)))
    (queue (react (exec (dispatch (ContentChanged ed text)) m))) /\
  state (react m') = state (react m) /\
  renders (react m') = renders (react m) /\
  writes m' = writes m /\
  store m' = store m.
Proof.
  intros m Hsame m'. subst m'.
  assert (Inv m) as H by apply reachable_Inv.
  rewrite step_content_eq by done.
  unfold exec at 1. rewrite content_change_eq by apply H. cbn [snd].
  set (n := length _). set (m1 := enqueue _ _).
  assert (queue (react m1) = repeat (field_of (snd ed), KeepIfSame (VString text)) n) as Hq.
  { unfold m1, enqueue, with_react, exec. cbn. by rewrite (proj1 H). }
  assert (state (react m1) = state (react m)) as Hst by reflexivity.
  split.
  - rewrite Hq. apply Forall_forall. intros call Hc. apply list_elem_of_In, repeat_spec in Hc.
    subst call. cbn [fst snd]. by rewrite keep_if_same_string.
  - unfold exec. rewrite flush_eq. cbn zeta. rewrite Hq, Hst, apply_same_text by done.
    rewrite (proj2 (state_same_eq _ _) eq_refl).
    destruct (mounted (react m1)); cbn; auto.
Qed.

Lemma content_change_same_text_witness :
  let m := run [EditorMounted 0; ContentChanged (0%nat, OriginalEditor) (str "hello")]
             sample_machine in
  let m' := step m (ContentChanged (0%nat, OriginalEditor) (str "hello")) in
  original (state (react m)) = VString (str "hello") /\
  length (filter (fun l => target l = (0%nat, OriginalEditor)) (listeners (editors m))) = 1%nat /\
  state (react m') = state (react m) /\
  writes m' = writes m.
Proof.
  pose proof (content_change_same_text sample_storage sample_clipboard
                [EditorMounted 0; ContentChanged (0%nat, OriginalEditor) (str "hello")]
                (0%nat, OriginalEditor) (str "hello")) as T.
  cbn zeta in T. cbn zeta.
  split; [vm_compute; reflexivity|]. split; [vm_compute; reflexivity|].
  destruct T as (_ & Hs & _ & Hw & _); [vm_compute; reflexivity|]. split; assumption.
Defined.
(** ** Reset *)

Lemma reset_fold (st : State) :
  fold_left apply_update (reset_calls ++ [(Toast, Assign (VString (str "Reset")))]) st
  = reset_state.
Proof. reflexivity. Qed.

Lemma reset_defaults :
  Forall (fun p => (snd (fst p), get_field (fst (fst p)) reset_state) ∈ default_entries)
    persisted.
Proof.
  unfold default_entries, persisted. cbn [map fst snd].
  repeat constructor; cbn [fst snd get_field reset_state original modified language theme
                           sideBySide ignoreTrimWhitespace fontSize];
    repeat first [apply list_elem_of_here | apply list_elem_of_further].
Qed.

Lemma reset_writes (old : State) :
  Forall (fun kv => kv ∈ default_entries) (effect_writes (Some old) reset_state).
Proof.
  unfold effect_writes. apply Forall_flat_map.
  eapply Forall_impl; [apply reset_defaults|]. intros [[f key] dflt] Hp. cbn [fst snd] in *.
  destruct (JS.Object_is _ _); [constructor|]. constructor; [exact Hp|constructor].
Qed.

(** C5. [handleReset] in any state of the mounted component: the handler
    itself changes no state (its setter calls are queued), and the render that
    follows shows every buffer and option at its default with the toast
    "Reset"; there is at most one render, so no render sees some of the
    defaults without the others, and every [writeStorage] call of that
    render writes the default of its key. *)
Theorem handleReset_restores (w : Storage) (c : Clipboard) (es : list event) :
  let m := run es (mount w c) in
  mounted (react m) = true ->
  let m' := step m ResetClicked in
  state (react m') =
    {| original := SAMPLE_ORIGINAL;
       modified := SAMPLE_MODIFIED;
       language := VString (str "javascript");
       theme := VString (str "vs-dark");
       sideBySide := VBool true;
       ignoreTrimWhitespace := VBool true;
       fontSize := fourteen;
       toast := VString (str "Reset") |} /\
  state (react (exec handleReset m)) = state (react m) /\
  (renders (react m') <= S (renders (react m)))%nat /\
  Forall (fun kv => kv ∈ default_entries) (drop (length (writes m)) (writes m')).
Proof.
  intros m Hm m'. subst m'.
  assert (Inv m) as [Hq H] by apply reachable_Inv.
  assert (exec handleReset m
          = snd (showToast (VString (str "Reset")) (enqueue reset_calls m))) as E
    by (unfold exec; by rewrite handleReset_eq).
  rewrite showToast_stable_eq in E by (by apply Stable_enqueue). cbn [snd] in E.
  rewrite step_eq by (by split). cbn [needs_mounted dispatch]. rewrite Hm. cbn [negb andb].
  rewrite E. split; [|split; [reflexivity|split]].
  - rewrite flush_react. cbn zeta. cbn [react mounted enqueue with_react queue state].
    rewrite Hm, Hq. cbn [app]. by rewrite (reset_fold (state (react m))).
  - rewrite flush_react. cbn zeta. cbn [react mounted enqueue with_react queue state renders].
    rewrite Hm. cbn [renders]. destruct (state_same _ _); lia.
  - unfold exec. rewrite flush_eq. cbn zeta.
    cbn [snd react mounted enqueue with_react queue state renders].
    rewrite Hm, Hq. cbn [app]. rewrite (reset_fold (state (react m))).
    destruct (state_same _ _).
    + cbn. rewrite drop_all. constructor.
    + cbn [writes with_store]. rewrite drop_app_length. apply reset_writes.
Qed.

Lemma handleReset_restores_witness :
  let m := run [ EditorMounted 0;
                 ContentChanged (0%nat, OriginalEditor) (str "left");
                 ContentChanged (0%nat, ModifiedEditor) (str "right");
                 LanguageSelected (str "python");
                 ThemeSelected (str "light");
                 SideBySideClicked;
                 IgnoreTrimClicked;
                 FontSizeInput (str "20") ] sample_machine in
  state (react m) =
    {| original := VString (str "left");
       modified := VString (str "right");
       language := VString (str "python");
       theme := VString (str "light");
       sideBySide := VBool false;
       ignoreTrimWhitespace := VBool false;
       fontSize := VNumber (Finite false 2 1);
       toast := VNull |} /\
  state (react (step m ResetClicked)) = reset_state.
Proof.
  cbn zeta. split; [vm_compute; reflexivity|].
  apply (handleReset_restores sample_storage sample_clipboard
           [ EditorMounted 0;
             ContentChanged (0%nat, OriginalEditor) (str "left");
             ContentChanged (0%nat, ModifiedEditor) (str "right");
             LanguageSelected (str "python");
             ThemeSelected (str "light");
             SideBySideClicked;
             IgnoreTrimClicked;
             FontSizeInput (str "20") ]).
  vm_compute. reflexivity.
Defined.
(** ** The notification and its timer *)

Lemma Inv_pending (m : Machine) : Inv m -> (length (pending (timers m)) <= 1)%nat.
Proof. intros [_ H]. destruct (inv_timer _ H) as [->|[_ [d ->]]]; cbn; lia. Qed.

(** A call of [showToast] and the render that follows it. *)
Lemma show_step (msg : value) (m : Machine) :
  Inv m ->
  let m' := exec (showToast msg ;; flush) m in
  Inv m' /\
  timers m' =
    {| clock := clock (timers m); next_timer := next_timer (timers m) + 1;
       pending := [toast_timer m]; fired := fired (timers m) |} /\
  mounted (react m') = mounted (react m) /\
  toast (state (react m')) = (if mounted (react m) then msg else toast (state (react m))).
Proof.
  intros [Hq H]. cbn zeta.
  assert (exec (showToast msg ;; flush) m = exec flush (exec (showToast msg) m)) as ->.
  { unfold exec at 1. by rewrite (exec_seq _ _ _ tt) by (by rewrite showToast_eq). }
  assert (exec (showToast msg) m = snd (showToast msg m)) as E by reflexivity.
  rewrite showToast_stable_eq in E by done. cbn [snd] in E.
  split; [apply Stable_flush; by apply Stable_showToast|].
  destruct (flush_frame (exec (showToast msg) m)) as (m' & Ef & _ & Hm & _ & Ht & _).
  split; [|split].
  - unfold exec at 1. rewrite Ef. cbn [snd]. rewrite Ht. by rewrite E.
  - unfold exec at 1. rewrite Ef. cbn [snd]. rewrite Hm. by rewrite E.
  - rewrite flush_react. cbn zeta. rewrite E.
    cbn [react enqueue with_react mounted queue state]. rewrite Hq.
    by destruct (mounted (react m)).
Qed.

(** Time passes and no timer is due. *)
Lemma elapse_step_idle (dt : N) (m : Machine) :
  Inv m ->
  Forall (fun x => clock (timers m) + dt < due x) (pending (timers m)) ->
  let m' := step m (Elapsed dt) in
  timers m' =
    {| clock := clock (timers m) + dt; next_timer := next_timer (timers m);
       pending := pending (timers m); fired := fired (timers m) |} /\
  refs m' = refs m /\
  state (react m') = state (react m) /\
  mounted (react m') = mounted (react m).
Proof.
  intros [Hq H] Hp. cbn zeta. rewrite step_eq by (by split). cbn [needs_mounted andb dispatch].
  assert (exec (elapse dt) m
          = tick (clock (timers m) + dt) (pending (timers m)) (fired (timers m)) m) as ->
    by (unfold exec; by rewrite elapse_idle by done).
  set (m1 := tick _ _ _ m).
  destruct (flush_frame m1) as (m' & Ef & _ & Hm & Hr & Ht & _).
  pose proof (flush_react m1) as Hf. cbn zeta in Hf.
  assert (exec flush m1 = m') as E by (unfold exec; by rewrite Ef).
  rewrite E in *. rewrite Ht, Hr, Hf. change (react m1) with (react m). rewrite Hq.
  repeat split; by destruct (mounted (react m)).
Qed.

(** Time passes and the pending timer fires. *)
Lemma elapse_step_fire (dt : N) (m : Machine) (t : Timer) :
  Inv m ->
  pending (timers m) = [t] -> due t <= clock (timers m) + dt ->
  let m' := step m (Elapsed dt) in
  timers m' =
    {| clock := clock (timers m) + dt; next_timer := next_timer (timers m);
       pending := []; fired := fired (timers m) ++ [timer_id t] |} /\
  toast (state (react m')) = (if mounted (react m) then VNull else toast (state (react m))).
Proof.
  intros [Hq H] Hp Hd. cbn zeta. rewrite step_eq by (by split).
  cbn [needs_mounted andb dispatch].
  assert (action t = ClearToast) as Ha by (by destruct (action t)).
  assert (exec (elapse dt) m
          = exec flush (exec (set Toast (Assign VNull))
                          (tick (clock (timers m) + dt) [] (fired (timers m) ++ [timer_id t]) m)))
    as ->.
  { unfold exec at 1. rewrite (elapse_fire _ _ t) by done. rewrite Ha. cbn [run_callback].
    by rewrite (exec_seq _ _ _ tt) by reflexivity. }
  set (m1 := exec (set Toast (Assign VNull)) _).
  assert (queue (react m1) = [(Toast, Assign VNull)]) as Hq1.
  { unfold m1, exec, set, modify, with_react, tick, with_timers. cbn. by rewrite Hq. }
  assert (state (react m1) = state (react m)) as Hs1 by reflexivity.
  assert (mounted (react m1) = mounted (react m)) as Hm1 by reflexivity.
  destruct (flush_frame m1) as (m2 & E2 & Hq2 & Hm2 & Hr2 & Ht2 & _).
  assert (queue (react (exec flush m1)) = []) as Hq3 by (unfold exec; by rewrite E2).
  split.
  - destruct (flush_frame (exec flush m1)) as (m3 & E3 & _ & _ & _ & Ht3 & _).
    unfold exec at 1. rewrite E3. cbn [snd]. rewrite Ht3. unfold exec. rewrite E2. cbn [snd].
    by rewrite Ht2.
  - rewrite flush_react. cbn zeta. rewrite Hq3. cbn [fold_left].
    rewrite !flush_react. cbn zeta. rewrite Hq1, Hs1, Hm1.
    destruct (mounted (react m)); reflexivity.
Qed.

(** C7. In any state the component can reach at most one timer is pending.
    For the mounted component: when [showToast X] is followed, less than
    1200 ms later, by [showToast Y], the toast is [Y], the only pending timer
    is the one of the second call and the timer of the first call never
    fires; the toast is still [Y] until 1200 ms after the second call, and
    from then on it is [null], exactly one timer having fired. *)
Theorem showToast_single_timer
    (w : Storage) (c : Clipboard) (es : list event) (X Y : value) (dt1 dt2 : N) :
  let m0 := run es (mount w c) in
  let m1 := exec (showToast X ;; flush) m0 in
  let m2 := step m1 (Elapsed dt1) in
  let m3 := exec (showToast Y ;; flush) m2 in
  let m4 := step m3 (Elapsed dt2) in
  (length (pending (timers m0)) <= 1)%nat /\
  (mounted (react m0) = true -> dt1 < 1200 ->
   toast (state (react m1)) = X /\
   pending (timers m1) = [toast_timer m0] /\
   toast (state (react m3)) = Y /\
   pending (timers m3) = [toast_timer m2] /\
   due (toast_timer m2) = clock (timers m3) + 1200 /\
   fired (timers m3) = fired (timers m0) /\
   (if decide (dt2 < 1200)
    then toast (state (react m4)) = Y /\
         pending (timers m4) = [toast_timer m2] /\
         fired (timers m4) = fired (timers m0)
    else toast (state (react m4)) = VNull /\
         pending (timers m4) = [] /\
         fired (timers m4) = fired (timers m0) ++ [timer_id (toast_timer m2)])).
Proof.
  intros m0 m1 m2 m3 m4.
  assert (Inv m0) as H0 by apply reachable_Inv.
  split; [by apply Inv_pending|]. intros Hm Hdt.
  destruct (show_step X m0 H0) as (H1 & Ht1 & Hm1 & Hx). fold m1 in H1, Ht1, Hm1, Hx.
  rewrite Hm in Hx, Hm1.
  destruct (elapse_step_idle dt1 m1 H1) as (Ht2 & Hr2 & Hs2 & Hm2).
  { rewrite Ht1. cbn. repeat constructor. cbn. lia. }
  fold m2 in Ht2, Hr2, Hs2, Hm2. rewrite Hm1 in Hm2.
  assert (Inv m2) as H2 by (by apply step_Inv).
  destruct (show_step Y m2 H2) as (H3 & Ht3 & Hm3 & Hy). fold m3 in H3, Ht3, Hm3, Hy.
  rewrite Hm2 in Hy, Hm3.
  split; [done|]. split; [by rewrite Ht1|]. split; [done|]. split; [by rewrite Ht3|].
  split; [by rewrite Ht3|]. split; [by rewrite Ht3, Ht2, Ht1|].
  destruct (decide (dt2 < 1200)) as [Hlt|Hge].
  - destruct (elapse_step_idle dt2 m3 H3) as (Ht4 & _ & Hs4 & _).
    { rewrite Ht3. cbn. repeat constructor. cbn. lia. }
    fold m4 in Ht4, Hs4. rewrite Hs4, Ht4, Ht3, Ht2, Ht1. by cbn.
  - destruct (elapse_step_fire dt2 m3 (toast_timer m2) H3) as (Ht4 & Hn).
    { by rewrite Ht3. }
    { rewrite Ht3. cbn. lia. }
    fold m4 in Ht4, Hn. rewrite Hm3 in Hn. rewrite Hn, Ht4, Ht3, Ht2, Ht1. by cbn.
Qed.

Lemma showToast_single_timer_witness :
  let m0 := sample_machine in
  let m1 := exec (showToast (VString (str "X")) ;; flush) m0 in
  let m2 := step m1 (Elapsed 500) in
  let m3 := exec (showToast (VString (str "Y")) ;; flush) m2 in
  (mounted (react m0) = true /\ 500 < 1200) /\
  toast (state (react m3)) = VString (str "Y") /\
  length (pending (timers m3)) = 1%nat /\
  toast (state (react (step m3 (Elapsed 1199)))) = VString (str "Y") /\
  toast (state (react (step m3 (Elapsed 1200)))) = VNull /\
  fired (timers (step m3 (Elapsed 1200))) = [2].
Proof.
  cbn zeta. split; [split; [reflexivity|lia]|].
  pose proof (showToast_single_timer sample_storage sample_clipboard []
                (VString (str "X")) (VString (str "Y")) 500 1199) as [_ A].
  pose proof (showToast_single_timer sample_storage sample_clipboard []
                (VString (str "X")) (VString (str "Y")) 500 1200) as [_ B].
  cbn zeta in A, B.
  destruct A as (_ & _ & Hy & Hp & _ & _ & A); [reflexivity|lia|].
  destruct B as (_ & _ & _ & _ & _ & _ & B); [reflexivity|lia|].
  rewrite decide_True in A by lia. rewrite decide_False in B by lia.
  destruct A as (A & _). destruct B as (B1 & _ & B2).
  split; [exact Hy|]. split; [vm_compute; reflexivity|]. split; [exact A|].
  split; [exact B1|]. vm_compute. reflexivity.
Defined.
(** ** Teardown *)

Lemma unmount_eq (m : Machine) :
  Stable m ->
  unmount m =
  (Normal tt,
   {| react := {| state := state (react m); queue := []; renders := renders (react m);
                  mounted := false |};
      refs := {| toastTimer := toastTimer (refs m); disposablesRef := [];
                 diffEditorRef := diffEditorRef (refs m) |};
      store := store m;
      writes := writes m;
      timers := {| clock := clock (timers m); next_timer := next_timer (timers m);
                   pending := []; fired := fired (timers m) |};
      editors := {| next_handle := next_handle (editors m); listeners := [];
                    texts := texts (editors m) |};
      clipboard := clipboard m |}).
Proof.
  intros H. unfold unmount. rewrite (exec_seq _ _ _ tt) by (by rewrite cleanup_eq).
  unfold exec. by rewrite cleanup_eq.
Qed.


(** ** The clipboard adapter *)

(** C8. [copyToClipboard] returns [true] when the clipboard write succeeds
    (there is a clipboard, the text converts to a string and the write is
    allowed; the clipboard then holds the text) and [false] on any failure
    (the promise rejects, the clipboard API is missing, or the conversion of
    the text throws; nothing changes); it never throws.  [handleCopy] never
    throws either: on success it is [showToast('Copied')], on any failure it
    is [showToast('Copy failed')] in the unchanged state, so the last setter
    call it makes is [setToast('Copy failed')]. *)
Theorem copy_never_throws (m : Machine) (text which : value) :
  fst (copyToClipboard text m) =
    Normal (match permission (clipboard m), JS.ToString text with
            | Allowed, Normal _ => true
            | _, _ => false
            end) /\
  snd (copyToClipboard text m) =
    match permission (clipboard m), JS.ToString text with
    | Allowed, Normal s => copied s m
    | _, _ => m
    end /\
  fst (handleCopy which m) = Normal tt /\
  match permission (clipboard m), JS.ToString (copy_source which (state (react m))) with
  | Allowed, Normal s =>
      handleCopy which m = showToast (VString (str "Copied")) (copied s m)
  | _, _ =>
      handleCopy which m = showToast (VString (str "Copy failed")) m /\
      last (queue (react (exec (handleCopy which) m)))
      = Some (Toast, Assign (VString (str "Copy failed")))
  end.
Proof.
  rewrite copyToClipboard_eq. unfold exec. rewrite handleCopy_eq.
  destruct (permission (clipboard m)), (JS.ToString text),
    (JS.ToString (copy_source which (state (react m))));
    rewrite !showToast_eq; cbn [fst snd];
    repeat split; try reflexivity;
    cbn [react enqueue with_react queue]; apply last_snoc.
Qed.

(** ** The Persisted Field Store *)

(** C4. [readStorage] never throws: it returns the parsed value when the store
    can be read, holds a text for the key and the text parses, and [fallback]
    in every other case (no [window], access denied, key absent, text that
    does not parse).  [writeStorage] never throws and returns [undefined]:
    when [setItem] throws (access denied, quota exceeded, no [window]) the
    store is left as it was, otherwise the store holds the serialised
    value. *)
Theorem storage_failures_absorbed (w : Storage) (key : jstring) (fallback v : value) :
  throws (readStorage w key fallback) = false /\
  readStorage w key fallback =
    Normal (match localStorage.getItem w key with
            | Normal (Some text) =>
                match JSON.parse text with
                | Normal r => r
                | Throw _ => fallback
                end
            | Normal None => fallback
            | Throw _ => fallback
            end) /\
  fst (writeStorage w key v) = Normal VUndefined /\
  (if throws (fst (localStorage.setItem w key (JSON.stringify v)))
   then snd (writeStorage w key v) = w
   else exists text, JS.ToString (JSON.stringify v) = Normal text /\
                     items (snd (writeStorage w key v)) !! key = Some text).
Proof.
  assert (readStorage w key fallback =
            Normal (match localStorage.getItem w key with
                    | Normal (Some text) =>
                        match JSON.parse text with
                        | Normal r => r
                        | Throw _ => fallback
                        end
                    | Normal None => fallback
                    | Throw _ => fallback
                    end)) as E.
  { unfold readStorage, localStorage.window_undefined, localStorage.getItem,
      localStorage.resolve.
    destruct (access w); cbn; try reflexivity.
    destruct (items w !! key) as [text|]; cbn; [|reflexivity].
    by destruct (JSON.parse text). }
  split; [by rewrite E|]. split; [exact E|]. split; [apply writeStorage_normal|].
  unfold writeStorage, localStorage.setItem, localStorage.resolve.
  rewrite ToString_stringify.
  destruct (access w); cbn; try reflexivity.
  destruct (_ <=? _)%nat; cbn; [|reflexivity].
  eexists. split; [reflexivity|]. apply lookup_insert_eq.
Qed.

(** ** Decimal digits *)

Lemma value_app (ds : list N) (d : N) :
  Digits.value (ds ++ [d]) = Digits.value ds * 10 + d.
Proof. unfold Digits.value. by rewrite fold_left_app. Qed.

Lemma value_aux (ds : list N) (acc : N) :
  fold_left (fun a d => a * 10 + d) ds acc
  = acc * 10 ^ N.of_nat (length ds) + Digits.value ds.
Proof.
  unfold Digits.value. revert acc. induction ds as [|d ds IH]; intros acc.
  - cbn. lia.
  - cbn [fold_left length]. rewrite IH, (IH (0 * 10 + d)).
    rewrite Nat2N.inj_succ, N.pow_succ_r'. lia.
Qed.

Lemma value_cons (d : N) (ds : list N) :
  Digits.value (d :: ds) = d * 10 ^ N.of_nat (length ds) + Digits.value ds.
Proof. unfold Digits.value at 1. cbn [fold_left]. rewrite value_aux. lia. Qed.

Lemma value_zeros_l (n : nat) (ds : list N) :
  Digits.value (Digits.zeros n ++ ds) = Digits.value ds.
Proof.
  induction n as [|n IH]; [done|]. cbn [Digits.zeros repeat app].
  rewrite value_cons. fold (Digits.zeros n). rewrite IH. lia.
Qed.

Lemma of_N_aux_spec (fuel : nat) (n : N) (acc : list N) :
  (N.to_nat (N.log2 n) <= fuel)%nat ->
  exists ds, Digits.of_N_aux fuel n acc = ds ++ acc /\
             is_digits ds /\ Digits.value ds = n /\ ds <> [] /\
             (n <> 0 -> head ds <> Some 0) /\ last ds = Some (n mod 10).
Proof.
  revert n acc. induction fuel as [|fuel IH]; intros n acc Hf.
  - assert (n < 2) as Hn.
    { destruct (decide (n = 0)) as [->|Hz]; [lia|].
      assert (N.log2 n = 0) as Hl by lia. apply N.log2_null in Hl. lia. }
    exists [n]. cbn. repeat split; try done.
    + repeat constructor. lia.
    + intros Hz [= ->]. done.
    + f_equal. symmetry. apply N.mod_small. lia.
  - cbn [Digits.of_N_aux]. destruct (N.ltb_spec n 10) as [Hn|Hn].
    + exists [n]. cbn. repeat split; try done.
      * by repeat constructor.
      * intros Hz [= ->]. done.
      * f_equal. symmetry. by apply N.mod_small.
    + destruct (IH (n / 10) (n mod 10 :: acc)) as (ds & E & Hd & Hv & Hne & Hh & Hl).
      { assert (N.log2 (n / 10) < N.log2 n); [|lia].
        assert (n / 10 <= n / 2) by (apply N.div_le_compat_l; lia).
        assert (N.log2 (n / 10) <= N.log2 (n / 2)) by (by apply N.log2_le_mono).
        rewrite <- N.div2_div, N.div2_spec, N.log2_shiftr in *.
        assert (0 < N.log2 n) by (apply N.log2_pos; lia). lia. }
      exists (ds ++ [n mod 10]). rewrite E, <- app_assoc. split; [done|].
      assert (n mod 10 < 10) by (apply N.mod_lt; lia).
      repeat split.
      * apply Forall_app. split; [done|]. by repeat constructor.
      * rewrite value_app, Hv. rewrite (N.div_mod n 10) at 3 by lia. lia.
      * by destruct ds.
      * intros _. destruct ds as [|d ds]; [done|]. cbn. cbn in Hh. apply Hh.
        assert (10 / 10 <= n / 10) by (apply N.Div0.div_le_mono; lia).
        rewrite N.div_same in * by lia. lia.
      * by rewrite last_snoc.
Qed.

Lemma of_N_spec (n : N) :
  is_digits (Digits.of_N n) /\ Digits.value (Digits.of_N n) = n /\ Digits.of_N n <> [] /\
  (n <> 0 -> head (Digits.of_N n) <> Some 0) /\ last (Digits.of_N n) = Some (n mod 10).
Proof.
  unfold Digits.of_N.
  destruct (of_N_aux_spec (N.to_nat (N.log2 n)) n []) as (ds & E & H); [lia|].
  rewrite E, app_nil_r. exact H.
Qed.

Lemma span_chars (ds : list N) (rest : jstring) :
  is_digits ds -> no_digit_head rest ->
  Digits.span (Digits.chars ds ++ rest) = (ds, rest).
Proof.
  intros Hd Hr. induction Hd as [|d ds Hlt _ IH].
  - destruct rest as [|c rest]; [done|]. change (Char.is_digit c = false) in Hr.
    cbn [Digits.chars map app Digits.span]. by rewrite Hr.
  - cbn [Digits.chars map app Digits.span]. fold (Digits.chars ds). rewrite IH.
    replace (Char.is_digit (Char.ZERO + d)) with true.
    + f_equal. f_equal. unfold Char.ZERO. lia.
    + symmetry. unfold Char.is_digit, Char.ZERO. apply andb_true_iff.
      split; apply N.leb_le; lia.
Qed.

Lemma strip_leading_zeros_app (n : nat) (ds : list N) :
  Digits.strip_leading_zeros (Digits.zeros n ++ ds) = Digits.strip_leading_zeros ds.
Proof. induction n as [|n IH]; [done|]. exact IH. Qed.

Lemma strip_leading_nonzero (ds : list N) :
  head ds <> Some 0 -> Digits.strip_leading_zeros ds = ds.
Proof. destruct ds as [|[|p] ds]; cbn; congruence. Qed.

Lemma rev_zeros (n : nat) : rev (Digits.zeros n) = Digits.zeros n.
Proof.
  unfold Digits.zeros. induction n as [|n IH]; [done|].
  cbn [repeat rev]. rewrite IH. clear IH. induction n as [|n IH]; [done|].
  cbn. by rewrite IH.
Qed.

Lemma head_rev {A} (l : list A) : head (rev l) = last l.
Proof.
  induction l as [|x l _] using rev_ind; [done|].
  by rewrite rev_app_distr, last_snoc.
Qed.

Lemma strip_trailing_zeros_app (ds : list N) (n : nat) (d : N) :
  last ds = Some d -> d <> 0 ->
  Digits.strip_trailing_zeros (ds ++ Digits.zeros n) = ds.
Proof.
  intros Hl Hd. unfold Digits.strip_trailing_zeros.
  rewrite rev_app_distr, rev_zeros, strip_leading_zeros_app.
  rewrite strip_leading_nonzero; [apply rev_involutive|].
  rewrite head_rev, Hl. congruence.
Qed.

(** The number read from the digits of [m], between leading and trailing
    zeros. *)
Lemma of_digits_canonical (neg : bool) (m : positive) (lead trail : nat) (e : Z) :
  N.pos m mod 10 <> 0 ->
  Num.of_digits neg (Digits.zeros lead ++ Digits.of_N (N.pos m) ++ Digits.zeros trail) e
  = Finite neg m (e + Z.of_nat trail).
Proof.
  intros Hm. destruct (of_N_spec (N.pos m)) as (Hd & Hv & Hne & Hh & Hl).
  unfold Num.of_digits.
  rewrite app_assoc, (strip_trailing_zeros_app _ _ (N.pos m mod 10)); [|
    by rewrite last_app, Hl | done].
  rewrite value_zeros_l, Hv. f_equal. unfold Digits.zeros.
  rewrite !length_app, !repeat_length. lia.
Qed.

(** ** JSON numbers *)

Lemma delimited_no_digit (rest : jstring) : delimited rest -> no_digit_head rest.
Proof. destruct rest as [|c rest]; [done|]. cbn. intros [-> | [-> | ->]]; reflexivity. Qed.

Lemma chars_cons (d : N) (ds : list N) :
  Digits.chars (d :: ds) = (Char.ZERO + d) :: Digits.chars ds.
Proof. reflexivity. Qed.

Lemma parse_number_text
    (neg : bool) (ip fp : list N) (ex : option (bool * list N)) (rest : jstring) :
  is_digits ip -> ip <> [] -> (head ip = Some 0 -> ip = [0]) ->
  is_digits fp ->
  match ex with
  | Some (_, es) => is_digits es /\ es <> []
  | None => True
  end ->
  delimited rest ->
  JSON.parse_decimal (number_text neg ip fp ex ++ rest)
  = Some (Num.of_digits neg (ip ++ fp) (exponent_value ex - Z.of_nat (length fp)), rest).
Proof.
  intros Hip Hne Hz Hfp Hex Hrest.
  pose proof (delimited_no_digit rest Hrest) as Hnd.
  assert (forall d, d < 10 -> (Char.ZERO + d =? Char.MINUS) = false) as Hchar.
  { intros d Hd. unfold Char.ZERO, Char.MINUS. apply N.eqb_neq. lia. }
  (* the tail after the exponent *)
  set (etext := match ex with
                | Some (eneg, es) =>
                    [101; if eneg then Char.MINUS else Char.PLUS] ++ Digits.chars es
                | None => []
                end).
  set (ftext := match fp with [] => [] | _ => [Char.DOT] ++ Digits.chars fp end).
  assert (no_digit_head (etext ++ rest)) as Hnd_e.
  { unfold etext. destruct ex as [[eneg es]|]; [reflexivity|exact Hnd]. }
  assert (no_digit_head (ftext ++ etext ++ rest)) as Hnd_f.
  { unfold ftext. destruct fp; [exact Hnd_e|reflexivity]. }
  (* the exponent part *)
  assert ((match etext ++ rest with
           | c :: r =>
               if (c =? 101) || (c =? 69) then
                 let '(eneg, r1) :=
                   match r with
                   | c' :: r' =>
                       if c' =? Char.PLUS then (false, r')
                       else if c' =? Char.MINUS then (true, r')
                       else (false, r)
                   | [] => (false, r)
                   end in
                 match Digits.span r1 with
                 | ([], _) => None
                 | (es, s4) =>
                     let v := Z.of_N (Digits.value es) in
                     Some (if eneg then (- v)%Z else v, s4)
                 end
               else Some (0%Z, etext ++ rest)
           | [] => Some (0%Z, etext ++ rest)
           end) = Some (exponent_value ex, rest)) as Hexp.
  { unfold etext. destruct ex as [[eneg es]|].
    - destruct Hex as [Hes Hnes]. cbn [app orb N.eqb Pos.eqb].
      destruct eneg; cbn [N.eqb Pos.eqb Char.PLUS Char.MINUS];
        rewrite span_chars by done; destruct es; done.
    - cbn [app]. destruct rest as [|c rest']; [done|].
      destruct Hrest as [-> | [-> | ->]]; reflexivity. }
  (* the fraction part *)
  assert ((match ftext ++ etext ++ rest with
           | c :: r =>
               if c =? Char.DOT then
                 match Digits.span r with
                 | ([], _) => None
                 | (fp', s3) => Some (fp', s3)
                 end
               else Some ([], ftext ++ etext ++ rest)
           | [] => Some ([], ftext ++ etext ++ rest)
           end) = Some (fp, etext ++ rest)) as Hfrac.
  { unfold ftext. destruct fp as [|f fp'].
    - cbn [app]. destruct (etext ++ rest) as [|c r] eqn:E; [done|].
      replace (c =? Char.DOT) with false; [done|].
      unfold etext in E. destruct ex as [[eneg es]|]; cbn in E.
      + by injection E as <- _.
      + subst rest. destruct Hrest as [-> | [-> | ->]]; reflexivity.
    - cbn [app N.eqb Pos.eqb Char.DOT]. by rewrite span_chars. }
  unfold JSON.parse_decimal, number_text. fold etext ftext.
  assert (exists d ip', ip = d :: ip' /\ d < 10 /\
                        (d =? 0) && negb (bool_decide (ip' = [])) = false)
    as (d & ip' & -> & Hd & Hlead).
  { destruct ip as [|d ip']; [done|]. exists d, ip'. split; [done|].
    split; [by inversion Hip|].
    destruct (N.eqb_spec d 0) as [->|]; [|done].
    specialize (Hz eq_refl). injection Hz as ->. done. }
  pose proof (Hchar d Hd) as Hm.
  cbv beta iota zeta in Hexp, Hfrac. rewrite <- !app_assoc.
  destruct neg.
  - cbn [app N.eqb Pos.eqb Char.MINUS].
    rewrite span_chars by done. rewrite Hlead. cbv beta iota zeta.
    rewrite Hfrac. cbv beta iota zeta. rewrite Hexp. reflexivity.
  - cbn [app]. rewrite chars_cons. cbn [app]. rewrite Hm.
    change (Char.ZERO + d :: Digits.chars ip' ++ ftext ++ etext ++ rest)
      with (Digits.chars (d :: ip') ++ ftext ++ etext ++ rest).
    rewrite span_chars by done. rewrite Hlead. cbv beta iota zeta.
    rewrite Hfrac. cbv beta iota zeta. rewrite Hexp. reflexivity.
Qed.
Lemma is_digits_zeros (n : nat) : is_digits (Digits.zeros n).
Proof. apply Forall_forall. intros d Hd. apply list_elem_of_In, repeat_spec in Hd. lia. Qed.

Lemma is_digits_nil : is_digits [].
Proof. constructor. Qed.

Lemma chars_app (a b : list N) : Digits.chars (a ++ b) = Digits.chars a ++ Digits.chars b.
Proof. apply map_app. Qed.

(** The text of a number that [JSON.stringify] writes as itself parses back
    to the number. *)
Ltac same_exponent tac :=
  match goal with
  | |- Some (Finite _ _ ?a, _) = Some (Finite _ _ ?b, _) =>
      replace a with b; [reflexivity|tac]
  end.

Lemma parse_decimal_serialize (x : number) (rest : jstring) :
  canonical_decimal x = true -> delimited rest ->
  JSON.parse_decimal (JSON.serialize_number x ++ rest) = Some (x, rest).
Proof.
  intros Hx Hrest. destruct x as [|neg|[|]|neg m e]; try discriminate.
  - (* zero *)
    change (JSON.serialize_number (Zero false)) with (number_text false [0] [] None).
    rewrite parse_number_text; try done; try apply is_digits_nil.
    by repeat (constructor; try lia).
  - cbn in Hx. apply negb_true_iff, N.eqb_neq in Hx.
    destruct (of_N_spec (N.pos m)) as (Hd & Hv & Hne & Hh & Hl).
    specialize (Hh ltac:(lia)).
    cbn [JSON.serialize_number Num.toString].
    remember (Digits.of_N (N.pos m)) as ds eqn:Eds0.
    set (k := Z.of_nat (length ds)). set (n := (e + k)%Z).
    assert (0 < k)%Z as Hk by (unfold k; destruct ds; [done|cbn; lia]).
    destruct ((k <=? n)%Z && (n <=? 21)%Z) eqn:C1.
    { (* digits followed by zeros *)
      apply andb_true_iff in C1 as [C1 _]. apply Z.leb_le in C1.
      replace ((if neg then [Char.MINUS] else []) ++
               Digits.chars (ds ++ Digits.zeros (Z.to_nat (n - k))))
        with (number_text neg (ds ++ Digits.zeros (Z.to_nat (n - k))) [] None)
        by (unfold number_text; by rewrite !app_nil_r).
      rewrite parse_number_text; try done; try apply is_digits_nil.
      - rewrite app_nil_r.
        change (ds ++ Digits.zeros (Z.to_nat (n - k)))
          with (Digits.zeros 0 ++ ds ++ Digits.zeros (Z.to_nat (n - k))).
        rewrite Eds0.
        rewrite of_digits_canonical by done. cbn [exponent_value length].
        same_exponent ltac:(subst n k; lia).
      - apply Forall_app. split; [done|apply is_digits_zeros].
      - by destruct ds.
      - destruct ds; [done|]. cbn. intros [= ->]. done. }
    destruct ((0 <? n)%Z && (n <=? 21)%Z) eqn:C2.
    { (* digits around a decimal point *)
      apply andb_true_iff in C2 as [C2 C2']. apply Z.ltb_lt in C2. apply Z.leb_le in C2'.
      assert (n < k)%Z as Hnk.
      { apply andb_false_iff in C1 as [C1|C1]; [apply Z.leb_gt in C1; lia|].
        apply Z.leb_gt in C1. lia. }
      assert (drop (Z.to_nat n) ds <> []) as Hdrop.
      { intros E. apply (f_equal length) in E. rewrite length_drop in E. cbn in E.
        unfold k in Hnk. lia. }
      replace ((if neg then [Char.MINUS] else []) ++
               Digits.chars (take (Z.to_nat n) ds) ++ [Char.DOT] ++
               Digits.chars (drop (Z.to_nat n) ds))
        with (number_text neg (take (Z.to_nat n) ds) (drop (Z.to_nat n) ds) None).
      2:{ unfold number_text. rewrite app_nil_r. by destruct (drop (Z.to_nat n) ds). }
      rewrite parse_number_text; try done; try apply is_digits_nil.
      - rewrite take_drop. rewrite <- (app_nil_r ds) at 1.
        change (ds ++ []) with (Digits.zeros 0 ++ ds ++ Digits.zeros 0).
        rewrite Eds0 at 1.
        rewrite of_digits_canonical by done. cbn [exponent_value].
        same_exponent ltac:(rewrite length_drop; subst n k; lia).
      - by apply Forall_take.
      - intros E. apply (f_equal length) in E. rewrite length_take in E. cbn in E.
        unfold k in *. lia.
      - destruct ds as [|d ds']; [done|].
        destruct (Z.to_nat n) eqn:En; [lia|]. cbn. intros [= ->]. done.
      - by apply Forall_drop. }
    destruct ((-6 <? n)%Z && (n <=? 0)%Z) eqn:C3.
    { (* zero, point, zeros, digits *)
      apply andb_true_iff in C3 as [_ C3]. apply Z.leb_le in C3.
      replace ((if neg then [Char.MINUS] else []) ++
               str "0." ++ Digits.chars (Digits.zeros (Z.to_nat (- n)) ++ ds))
        with (number_text neg [0] (Digits.zeros (Z.to_nat (- n)) ++ ds) None).
      2:{ unfold number_text. rewrite app_nil_r.
          destruct (Digits.zeros (Z.to_nat (- n)) ++ ds) eqn:E; [|done].
          apply app_eq_nil in E as [_ ->]. done. }
      rewrite parse_number_text; try done; try apply is_digits_nil.
      - rewrite <- (app_nil_r ds) at 1.
        change ([0] ++ Digits.zeros (Z.to_nat (- n)) ++ ds ++ [])
          with (Digits.zeros (S (Z.to_nat (- n))) ++ ds ++ Digits.zeros 0).
        rewrite Eds0 at 1.
        rewrite of_digits_canonical by done. cbn [exponent_value].
        same_exponent ltac:(unfold Digits.zeros; rewrite length_app, repeat_length;
                            subst n k; lia).
      - by repeat constructor.
      - apply Forall_app. split; [apply is_digits_zeros|done]. }
    (* exponent notation *)
    destruct ds as [|d1 fs]; [done|].
    set (ex := (n - 1)%Z).
    assert (JSON.parse_decimal
              (number_text neg [d1] fs (Some ((ex <? 0)%Z, Digits.of_N (Z.abs_N ex))) ++ rest)
            = Some (Finite neg m e, rest)) as Hgoal; [|by destruct fs].
    destruct (of_N_spec (Z.abs_N ex)) as (Hde & Hve & Hnee & _).
    rewrite parse_number_text; try done; try apply is_digits_nil.
    + replace ([d1] ++ fs) with (Digits.zeros 0 ++ (d1 :: fs) ++ Digits.zeros 0)
        by (cbn; by rewrite app_nil_r).
      rewrite Eds0. rewrite of_digits_canonical by done.
      cbn [exponent_value]. rewrite Hve.
      same_exponent ltac:(subst ex n k; cbn [length];
                          destruct (Z.ltb_spec (e + Z.of_nat (S (length fs)) - 1) 0); lia).
    + inversion Hd. by repeat constructor.
    + by inversion Hd.
Qed.
(** ** JSON strings *)

Lemma hex_value_char (d : N) : d < 16 -> Char.hex_value (Char.hex_char d) = Some d.
Proof.
  intros Hd. unfold Char.hex_char, Char.hex_value.
  destruct (N.ltb_spec d 10).
  - replace ((48 <=? 48 + d) && (48 + d <=? 57)) with true
      by (symmetry; apply andb_true_iff; split; apply N.leb_le; lia).
    f_equal. lia.
  - replace ((48 <=? 87 + d) && (87 + d <=? 57)) with false
      by (symmetry; apply andb_false_iff; right; apply N.leb_gt; lia).
    replace ((97 <=? 87 + d) && (87 + d <=? 102)) with true
      by (symmetry; apply andb_true_iff; split; apply N.leb_le; lia).
    f_equal. lia.
Qed.

Lemma hex4_value_hex4 (c : N) :
  c < 65536 ->
  match JSON.hex4 c with
  | [h1; h2; h3; h4] => JSON.hex4_value h1 h2 h3 h4
  | _ => None
  end = Some c.
Proof.
  intros Hc. unfold JSON.hex4, JSON.hex4_value. cbn [map].
  rewrite !hex_value_char by (apply N.mod_lt; lia). f_equal.
  zify. Z.to_euclidean_division_equations. lia.
Qed.

Lemma parse_chars_literal (c : N) (t : jstring) :
  c <> Char.QUOTE -> c <> Char.BACKSLASH -> 32 <= c ->
  JSON.parse_chars (c :: t) = JSON.prepend c (JSON.parse_chars t).
Proof.
  intros H1 H2 H3. cbn [JSON.parse_chars].
  apply N.eqb_neq in H1, H2. rewrite H1, H2.
  by replace (c <? 32) with false by (symmetry; apply N.ltb_ge; lia).
Qed.

Lemma parse_chars_unicode (c : N) (t : jstring) :
  c < 65536 ->
  JSON.parse_chars (JSON.unicode_escape c ++ t) = JSON.prepend c (JSON.parse_chars t).
Proof.
  intros Hc. pose proof (hex4_value_hex4 c Hc) as H.
  unfold JSON.unicode_escape. unfold JSON.hex4 in *. cbn [map app] in *.
  cbn [JSON.parse_chars N.eqb Pos.eqb Char.BACKSLASH Char.QUOTE]. by rewrite H.
Qed.

Lemma parse_chars_escape (e u : N) (t : jstring) :
  e <> 117 -> JSON.escape_value e = Some u ->
  JSON.parse_chars (Char.BACKSLASH :: e :: t) = JSON.prepend u (JSON.parse_chars t).
Proof.
  intros He Hu. cbn [JSON.parse_chars N.eqb Pos.eqb Char.BACKSLASH Char.QUOTE].
  apply N.eqb_neq in He. by rewrite He, Hu.
Qed.

Lemma parse_quote_chars (s rest : jstring) :
  JSON.parse_chars (JSON.quote_chars s ++ Char.QUOTE :: rest) = Some (s, rest).
Proof.
  remember (length s) as n eqn:Hn. revert s Hn.
  induction n as [n IH] using lt_wf_ind. intros s Hn.
  assert (forall t, (length t < n)%nat ->
            JSON.parse_chars (JSON.quote_chars t ++ Char.QUOTE :: rest) = Some (t, rest))
    as IH' by (intros t Ht; by eapply IH).
  clear IH. destruct s as [|c s']; [reflexivity|]. cbn [length] in Hn.
  assert (JSON.parse_chars (JSON.quote_chars s' ++ Char.QUOTE :: rest) = Some (s', rest))
    as IHs by (apply IH'; lia).
  cbn [JSON.quote_chars].
  destruct (N.eqb_spec c 8) as [->|H8].
  { cbn [app]. by rewrite (parse_chars_escape 98 8), IHs. }
  destruct (N.eqb_spec c 9) as [->|H9].
  { cbn [app]. by rewrite (parse_chars_escape 116 9), IHs. }
  destruct (N.eqb_spec c 10) as [->|H10].
  { cbn [app]. by rewrite (parse_chars_escape 110 10), IHs. }
  destruct (N.eqb_spec c 12) as [->|H12].
  { cbn [app]. by rewrite (parse_chars_escape 102 12), IHs. }
  destruct (N.eqb_spec c 13) as [->|H13].
  { cbn [app]. by rewrite (parse_chars_escape 114 13), IHs. }
  destruct (N.eqb_spec c Char.QUOTE) as [->|Hq].
  { cbn [app]. by rewrite (parse_chars_escape Char.QUOTE Char.QUOTE), IHs. }
  destruct (N.eqb_spec c Char.BACKSLASH) as [->|Hb].
  { cbn [app]. by rewrite (parse_chars_escape Char.BACKSLASH Char.BACKSLASH), IHs. }
  destruct (N.ltb_spec c 32) as [Hlt|Hge].
  { rewrite <- app_assoc, parse_chars_unicode by lia. by rewrite IHs. }
  destruct (Char.is_high_surrogate c) eqn:Hhi.
  { apply andb_true_iff in Hhi as [Hh1 Hh2]. apply N.leb_le in Hh1, Hh2.
    destruct s' as [|c2 s'']; [by rewrite parse_chars_unicode by lia|].
    destruct (Char.is_low_surrogate c2) eqn:Hlo.
    - apply andb_true_iff in Hlo as [Hl1 Hl2]. apply N.leb_le in Hl1, Hl2.
      cbn [app]. rewrite !parse_chars_literal by (unfold Char.QUOTE, Char.BACKSLASH; lia).
      rewrite IH' by (cbn [length] in *; lia). reflexivity.
    - rewrite <- app_assoc, parse_chars_unicode by lia. by rewrite IHs. }
  destruct (Char.is_low_surrogate c) eqn:Hlo.
  { apply andb_true_iff in Hlo as [Hl1 Hl2]. apply N.leb_le in Hl1, Hl2.
    rewrite <- app_assoc, parse_chars_unicode by lia. by rewrite IHs. }
  cbn [app]. rewrite parse_chars_literal by done. by rewrite IHs.
Qed.
(** ** JSON values *)

(** The Number that a Number's own text denotes is that Number. *)
Lemma parse_number_serialize (x : number) (rest : jstring) :
  json_number x = true -> delimited rest ->
  JSON.parse_number (JSON.serialize_number x ++ rest) = Some (x, rest).
Proof.
  intros Hx Hr. apply andb_true_iff in Hx as [Hc Hb]. apply bool_decide_eq_true in Hb.
  unfold JSON.parse_number. rewrite parse_decimal_serialize by done. by rewrite Hb.
Qed.

Lemma parse_number_head (s r : jstring) (x : number) :
  JSON.parse_number s = Some (x, r) ->
  exists c s', s = c :: s' /\ (c = Char.MINUS \/ Char.is_digit c = true).
Proof.
  unfold JSON.parse_number.
  destruct (JSON.parse_decimal s) as [[y r']|] eqn:H; [|discriminate]. intros _.
  unfold JSON.parse_decimal in H. destruct s as [|c s']; [discriminate|].
  exists c, s'. split; [done|].
  destruct (N.eqb_spec c Char.MINUS) as [->|Hc]; [by left|]. right.
  cbn [Digits.span] in H. by destruct (Char.is_digit c).
Qed.

Lemma parse_value_number (fuel : nat) (c : N) (s : jstring) :
  c = Char.MINUS \/ Char.is_digit c = true ->
  JSON.parse_value (S fuel) (c :: s) =
  match JSON.parse_number (c :: s) with
  | Some (x, r) => Some (VNumber x, r)
  | None => None
  end.
Proof.
  intros Hc.
  assert (c = 45 \/ 48 <= c <= 57) as Hr.
  { destruct Hc as [->|Hd]; [by left|]. right.
    apply andb_true_iff in Hd as [H1 H2]. apply N.leb_le in H1, H2. lia. }
  cbn [JSON.parse_value].
  change (str "null") with [110; 117; 108; 108].
  change (str "true") with [116; 114; 117; 101].
  change (str "false") with [102; 97; 108; 115; 101].
  cbn [JSON.strip_prefix].
  unfold Char.QUOTE, Char.LBRACKET, Char.LBRACE.
  replace (c =? 34) with false by (symmetry; apply N.eqb_neq; lia).
  replace (c =? 91) with false by (symmetry; apply N.eqb_neq; lia).
  replace (c =? 123) with false by (symmetry; apply N.eqb_neq; lia).
  replace (c =? 110) with false by (symmetry; apply N.eqb_neq; lia).
  replace (c =? 116) with false by (symmetry; apply N.eqb_neq; lia).
  replace (c =? 102) with false by (symmetry; apply N.eqb_neq; lia).
  reflexivity.
Qed.

Lemma join_cons (sep p q : jstring) (ps : list jstring) :
  JS.join sep (p :: q :: ps) = p ++ sep ++ JS.join sep (q :: ps).
Proof. cbn. by rewrite <- app_assoc. Qed.

Lemma serialize_opens (v : value) (t : jstring) :
  json_valid v = true -> JSON.serialize v = Some t -> opens_value t.
Proof.
  intros Hv Ht. destruct v as [| |[]|x|s|l|ms]; try discriminate;
    injection Ht as <-; try (by eexists _, _).
  destruct (parse_number_head (JSON.serialize_number x ++ []) [] x) as (c & s' & E & Hc).
  { by apply parse_number_serialize. }
  rewrite app_nil_r in E. rewrite E. exists c, s'. split; [done|].
  destruct Hc as [->|Hd]; [done|].
  apply andb_true_iff in Hd as [H1 H2]. apply N.leb_le in H1, H2.
  unfold JSON.is_ws, Char.TAB, Char.LF, Char.CR, Char.SPACE, Char.RBRACKET, Char.RBRACE.
  repeat split; rewrite ?orb_false_iff; repeat split; apply N.eqb_neq; lia.
Qed.

Lemma skip_ws_opens (t rest : jstring) :
  opens_value t -> JSON.skip_ws (t ++ rest) = t ++ rest.
Proof. intros (c & t' & -> & Hw & _). cbn. by rewrite Hw. Qed.
Lemma parse_value_array (fuel : nat) (r : jstring) :
  JSON.parse_value (S fuel) (Char.LBRACKET :: r) =
  match JSON.skip_ws r with
  | [] => None
  | c' :: r' =>
      if c' =? Char.RBRACKET then Some (VArray [], r')
      else match JSON.parse_elements fuel (c' :: r') with
           | Some (l, r'') => Some (VArray l, r'')
           | None => None
           end
  end.
Proof. reflexivity. Qed.

Lemma parse_value_object (fuel : nat) (r : jstring) :
  JSON.parse_value (S fuel) (Char.LBRACE :: r) =
  match JSON.skip_ws r with
  | [] => None
  | c' :: r' =>
      if c' =? Char.RBRACE then Some (VObject [], r')
      else match JSON.parse_members fuel (c' :: r') [] with
           | Some (ms, r'') => Some (VObject ms, r'')
           | None => None
           end
  end.
Proof. reflexivity. Qed.

Lemma parse_elements_unfold (fuel : nat) (s : jstring) :
  JSON.parse_elements (S fuel) s =
  match JSON.parse_value fuel s with
  | Some (v, r) =>
      match JSON.skip_ws r with
      | [] => None
      | c :: r' =>
          if c =? Char.COMMA then
            match JSON.parse_elements fuel (JSON.skip_ws r') with
            | Some (l, r'') => Some (v :: l, r'')
            | None => None
            end
          else if c =? Char.RBRACKET then Some ([v], r')
          else None
      end
  | None => None
  end.
Proof. reflexivity. Qed.

Lemma parse_members_unfold (fuel : nat) (r : jstring) (acc : list (jstring * value)) :
  JSON.parse_members (S fuel) (Char.QUOTE :: r) acc =
  match JSON.parse_chars r with
  | Some (k, r1) =>
      match JSON.skip_ws r1 with
      | [] => None
      | c :: r2 =>
          if c =? Char.COLON then
            match JSON.parse_value fuel (JSON.skip_ws r2) with
            | Some (v, r3) =>
                match JSON.skip_ws r3 with
                | [] => None
                | c' :: r4 =>
                    if c' =? Char.COMMA then
                      JSON.parse_members fuel (JSON.skip_ws r4) (JSON.define_member acc k v)
                    else if c' =? Char.RBRACE then Some (JSON.define_member acc k v, r4)
                    else None
                end
            | None => None
            end
          else None
      end
  | None => None
  end.
Proof. reflexivity. Qed.

Lemma text_of_opens (v : value) : json_valid v = true -> opens_value (text_of v).
Proof.
  intros Hv. unfold text_of. destruct (JSON.serialize v) as [t|] eqn:E.
  - by apply (serialize_opens v).
  - by destruct v as [| |[]|x|s|l|ms].
Qed.

Lemma parse_elements_texts (l : list value) :
  Forall parses_back l -> forallb json_valid l = true -> l <> [] ->
  forall fuel rest,
    (2 * length (JS.join [Char.COMMA] (map text_of l)) + 1 <= fuel)%nat ->
    JSON.parse_elements fuel (JS.join [Char.COMMA] (map text_of l) ++ Char.RBRACKET :: rest)
    = Some (l, rest).
Proof.
  intros IH. induction IH as [|e l He _ IHl]; intros Hv Hne fuel rest Hf; [done|].
  cbn [forallb] in Hv. apply andb_true_iff in Hv as [Hve Hvl].
  destruct fuel as [|fuel]; [lia|]. rewrite parse_elements_unfold.
  destruct l as [|e2 l'].
  - cbn [map JS.join concat] in *. rewrite app_nil_r in *.
    rewrite He; [|done|lia|cbn; auto]. reflexivity.
  - cbn [map] in *. rewrite join_cons in *. rewrite <- !app_assoc.
    rewrite !length_app in Hf. cbn [length] in Hf.
    rewrite He; [|done|lia|cbn; auto]. cbn [app].
    change (JSON.skip_ws (Char.COMMA :: ?t)) with (Char.COMMA :: t).
    cbn [N.eqb Pos.eqb Char.COMMA].
    fold Char.COMMA.
    assert (opens_value (JS.join [Char.COMMA] (text_of e2 :: map text_of l'))) as Ho.
    { cbn [forallb] in Hvl. apply andb_true_iff in Hvl as [Hv2 _].
      destruct (text_of_opens e2 Hv2) as (c & t' & E & Hc). cbn [JS.join]. rewrite E.
      by eexists _, _. }
    rewrite skip_ws_opens by done. rewrite IHl; [done|done|done|].
    cbn [map]. lia.
Qed.
Lemma member_text_app (k : jstring) (v : value) (t : jstring) :
  member_text (k, v) ++ t
  = Char.QUOTE :: (JSON.quote_chars k ++ Char.QUOTE :: Char.COLON :: text_of v ++ t).
Proof.
  unfold member_text, JSON.quote. cbn [fst snd app]. by rewrite <- !app_assoc.
Qed.

Lemma length_member_text (k : jstring) (v : value) :
  (length (text_of v) < length (member_text (k, v)))%nat.
Proof.
  unfold member_text, JSON.quote. cbn [fst snd]. rewrite !length_app. cbn [length]. lia.
Qed.

Lemma parse_members_texts (ms : list (jstring * value)) :
  Forall (fun m => parses_back (snd m)) ms ->
  forallb (fun m => json_valid (snd m)) ms = true -> ms <> [] ->
  forall fuel rest acc,
    (2 * length (JS.join [Char.COMMA] (map member_text ms)) + 1 <= fuel)%nat ->
    JSON.parse_members fuel
      (JS.join [Char.COMMA] (map member_text ms) ++ Char.RBRACE :: rest) acc
    = Some (fold_left (fun a m => JSON.define_member a (fst m) (snd m)) ms acc, rest).
Proof.
  intros IH. induction IH as [|[k v] ms He _ IHms]; intros Hv Hne fuel rest acc Hf; [done|].
  cbn [forallb snd] in Hv. apply andb_true_iff in Hv as [Hve Hvl]. cbn [snd] in He.
  destruct fuel as [|fuel]; [lia|].
  pose proof (length_member_text k v) as Hlen.
  pose proof (text_of_opens v Hve) as Hov.
  destruct ms as [|[k2 v2] ms'].
  - cbn [map JS.join concat fold_left fst snd] in *. rewrite app_nil_r in *.
    rewrite member_text_app, parse_members_unfold, parse_quote_chars.
    change (JSON.skip_ws (Char.COLON :: ?t)) with (Char.COLON :: t).
    cbn [N.eqb Pos.eqb Char.COLON]. rewrite skip_ws_opens by done.
    rewrite He; [|done|lia|cbn; auto]. reflexivity.
  - cbn [map] in *. rewrite join_cons in *. rewrite <- !app_assoc.
    rewrite !length_app in Hf. cbn [length] in Hf.
    rewrite member_text_app, parse_members_unfold, parse_quote_chars.
    change (JSON.skip_ws (Char.COLON :: ?t)) with (Char.COLON :: t).
    cbn [N.eqb Pos.eqb Char.COLON]. rewrite skip_ws_opens by done.
    rewrite He; [|done|lia|cbn; auto]. cbn [app].
    change (JSON.skip_ws (Char.COMMA :: ?t)) with (Char.COMMA :: t).
    cbn [N.eqb Pos.eqb Char.COMMA]. fold Char.COMMA.
    assert (opens_value (JS.join [Char.COMMA] (member_text (k2, v2) :: map member_text ms')))
      as Ho by (by eexists _, _).
    rewrite skip_ws_opens by done. cbn [fold_left fst snd].
    rewrite IHms; [done|done|done|]. cbn [map]. lia.
Qed.

Lemma omap_members (ms : list (jstring * value)) :
  forallb (fun m => json_valid (snd m)) ms = true ->
  omap (fun m => match JSON.serialize (snd m) with
                 | Some t => Some (JSON.quote (fst m) ++ [Char.COLON] ++ t)
                 | None => None
                 end) ms
  = map member_text ms.
Proof.
  induction ms as [|[k v] ms IH]; [done|]. cbn [forallb snd]. intros H.
  apply andb_true_iff in H as [Hv Hms]. cbn [omap list_omap map fst snd].
  unfold member_text, text_of. cbn [fst snd].
  destruct (JSON.serialize v) as [t|] eqn:E.
  - f_equal. by apply IH.
  - by destruct v as [| |[]|x|s|l|ms'].
Qed.

(** A valid value is read back from its text, whatever delimiter follows. *)
Lemma parse_text_of (v : value) : parses_back v.
Proof.
  induction v as [| |b|x|s|l IH|ms IH] using value_ind; intros Hv fuel rest Hf Hrest.
  - discriminate.
  - destruct fuel as [|fuel]; [cbn in Hf; lia|]. reflexivity.
  - destruct fuel as [|fuel]; [destruct b; cbn in Hf; lia|]. by destruct b.
  - destruct fuel as [|fuel].
    { destruct (text_of_opens (VNumber x) Hv) as (c & t & E & _). rewrite E in Hf.
      cbn in Hf. lia. }
    change (text_of (VNumber x)) with (JSON.serialize_number x).
    pose proof (parse_number_serialize x rest Hv Hrest) as Hp.
    destruct (parse_number_head _ _ _ Hp) as (c & t & E & Hc).
    rewrite E in *. by rewrite parse_value_number, Hp.
  - destruct fuel as [|fuel]; [cbn in Hf; lia|].
    change (text_of (VString s)) with (JSON.quote s). unfold JSON.quote.
    cbn [app]. rewrite <- app_assoc. cbn [app JSON.parse_value N.eqb Pos.eqb Char.QUOTE].
    fold Char.QUOTE. by rewrite parse_quote_chars.
  - change (text_of (VArray l))
      with ([Char.LBRACKET] ++ JS.join [Char.COMMA] (map text_of l) ++ [Char.RBRACKET]) in *.
    cbn [app length] in Hf. rewrite length_app in Hf. cbn [length] in Hf.
    destruct fuel as [|fuel]; [lia|]. cbn [app]. rewrite <- app_assoc. cbn [app].
    rewrite parse_value_array. cbn [json_valid] in Hv.
    destruct l as [|e l'].
    + reflexivity.
    + assert (opens_value (JS.join [Char.COMMA] (map text_of (e :: l')))) as Ho.
      { cbn [forallb] in Hv. apply andb_true_iff in Hv as [Hve _].
        destruct (text_of_opens e Hve) as (c & t' & E & Hc). cbn [map JS.join]. rewrite E.
        by eexists _, _. }
      rewrite skip_ws_opens by done.
      pose proof (parse_elements_texts (e :: l') IH Hv ltac:(done) fuel rest ltac:(lia)) as Hp.
      destruct Ho as (c & t' & E & _ & Hb & _). rewrite E in *. cbn [app] in *.
      by rewrite Hb, Hp.
  - cbn [json_valid] in Hv. apply andb_true_iff in Hv as [Hvm Hnorm].
    apply value_eqb_eq in Hnorm. injection Hnorm as Hnorm.
    assert (text_of (VObject ms)
            = [Char.LBRACE] ++ JS.join [Char.COMMA] (map member_text ms) ++ [Char.RBRACE])
      as Et by (unfold text_of; cbn [JSON.serialize]; by rewrite omap_members).
    rewrite Et in *.
    cbn [app length] in Hf. rewrite length_app in Hf. cbn [length] in Hf.
    destruct fuel as [|fuel]; [lia|]. cbn [app]. rewrite <- app_assoc. cbn [app].
    rewrite parse_value_object.
    destruct ms as [|[k v] ms'].
    + reflexivity.
    + assert (opens_value (JS.join [Char.COMMA] (map member_text ((k, v) :: ms')))) as Ho
        by (by eexists _, _).
      rewrite skip_ws_opens by done.
      pose proof (parse_members_texts ((k, v) :: ms') IH Hvm ltac:(done) fuel rest []
                    ltac:(lia)) as Hp.
      destruct Ho as (c & t' & E & _ & _ & Hb). rewrite E in *. cbn [app] in *.
      by rewrite Hb, Hp, Hnorm.
Qed.
Lemma stringify_valid (v : value) :
  json_valid v = true -> JSON.stringify v = VString (text_of v).
Proof.
  intros Hv. unfold JSON.stringify, text_of.
  destruct (JSON.serialize v) eqn:E; [done|]. by destruct v as [| |[]|x|s|l|ms].
Qed.

(** [JSON.parse(JSON.stringify(v))] is [v] for every valid value. *)
Lemma parse_stringify (v : value) :
  json_valid v = true -> JSON.parse (text_of v) = Normal v.
Proof.
  intros Hv. unfold JSON.parse.
  pose proof (skip_ws_opens (text_of v) [] (text_of_opens v Hv)) as Hs.
  rewrite app_nil_r in Hs. rewrite Hs.
  pose proof (parse_text_of v Hv (2 * length (text_of v) + 2)%nat [] ltac:(lia) I) as Hp.
  rewrite app_nil_r in Hp. by rewrite Hp.
Qed.

(** C3. A valid value written under a key is read back from the same store:
    when the store is accessible and accepts the write (the quota is not
    exceeded), [readStorage] after [writeStorage] returns the value and not
    the fallback.  The valid values are those of JSON: [null], booleans,
    strings, finite numbers other than the negative zero, and arrays and
    objects of these. *)
Theorem write_then_read (w : Storage) (key : jstring) (v fallback : value) :
  json_valid v = true ->
  access w = Granted ->
  (localStorage.usage (<[key := text_of v]> (items w)) <= quota w)%nat ->
  readStorage (snd (writeStorage w key v)) key fallback = Normal v.
Proof.
  intros Hv Ha Hq.
  unfold writeStorage, localStorage.setItem, localStorage.resolve.
  rewrite Ha.
  rewrite stringify_valid by done. cbn [JS.ToString].
  apply Nat.leb_le in Hq. rewrite Hq. cbn [snd].
  unfold readStorage, localStorage.window_undefined, localStorage.getItem,
    localStorage.resolve.
  cbn [access items]. rewrite lookup_insert_eq.
  pose proof (parse_stringify v Hv) as Hp.
  unfold mbind, completion_bind, bind, try_catch. by rewrite Hp.
Qed.

Lemma write_then_read_witness :
  readStorage (snd (writeStorage sample_storage (str "codeDiff.original") SAMPLE_ORIGINAL))
    (str "codeDiff.original") VNull
  = Normal SAMPLE_ORIGINAL.
Proof.
  apply write_then_read; [reflexivity|reflexivity|vm_compute; lia].
Defined.

(** The values left out of C3 are not read back: [NaN] is written as [null]. *)
Remark write_NaN_reads_null :
  readStorage (snd (writeStorage sample_storage (str "codeDiff.fontSize") (VNumber NaN)))
    (str "codeDiff.fontSize") fourteen
  = Normal VNull.
Proof. vm_compute. reflexivity. Qed.
(** * Further properties of the component *)

(** ** What a step does to the state and to the store *)

Lemma effect_writes_same (old new : State) :
  (forall f, f <> Toast -> get_field f new = get_field f old) ->
  effect_writes (Some old) new = [].
Proof.
  intros H. unfold effect_writes.
  assert (Forall (fun p : field * jstring * value => fst (fst p) <> Toast) persisted) as Hp
    by (repeat constructor; discriminate).
  induction Hp as [|p l Hf _ IH]; [done|]. cbn [flat_map].
  rewrite IH, app_nil_r. rewrite (H _ Hf).
  unfold JS.Object_is. by rewrite value_eqb_refl.
Qed.

Lemma store_after_app (w : Storage) (a b : list (jstring * value)) :
  store_after w (a ++ b) = store_after (store_after w a) b.
Proof. unfold store_after. apply fold_left_app. Qed.

(** The machine after a render, in full. *)
Lemma flush_writes (m : Machine) :
  let old := state (react m) in
  let new := if mounted (react m) then fold_left apply_update (queue (react m)) old
             else old in
  state (react (exec flush m)) = new /\
  writes (exec flush m) = writes m ++ effect_writes (Some old) new /\
  store (exec flush m) = store_after (store m) (effect_writes (Some old) new).
Proof.
  cbn zeta. unfold exec. rewrite flush_eq. cbn zeta. cbn [snd].
  destruct (mounted (react m)).
  - destruct (state_same _ _) eqn:E.
    + apply state_same_eq in E. rewrite <- E.
      rewrite effect_writes_same by done. by rewrite app_nil_r.
    + done.
  - rewrite effect_writes_same by done. by rewrite app_nil_r.
Qed.

(** An event other than the passing of time only queues its setter calls:
    the state of the last render, the store and its log are untouched until
    the render. *)
(** What the second half of [handleCopy] does for the text [text]. *)
Lemma copy_text_calls (text : value) (m : Machine) :
  Stable m -> queue (react m) = [] ->
  exists m1,
    (ok ← copyToClipboard text ;
     showToast (if ok : bool then VString (str "Copied") else VString (str "Copy failed"))) m
    = (Normal tt, m1) /\
    state (react m1) = state (react m) /\
    queue (react m1) = [(Toast, Assign (copy_message text m))] /\
    mounted (react m1) = mounted (react m) /\
    store m1 = store m /\ writes m1 = writes m /\
    timers m1 = shown_timers m /\
    clipboard m1 =
      {| permission := permission (clipboard m);
         content := match permission (clipboard m), JS.ToString text with
                    | Allowed, Normal s => s
                    | _, _ => content (clipboard m)
                    end;
         writing := writing (clipboard m) |}.
Proof.
  intros H Hq. rewrite copy_text_eq. unfold copy_message, copy_succeeds.
  destruct (permission (clipboard m)) eqn:Hp, (JS.ToString text) eqn:Ht;
    (eexists; split; [apply showToast_stable_eq; by try apply (Stable_frame m)|]);
    cbn [react enqueue with_react state queue mounted store writes timers clipboard
           copied with_clipboard app];
    rewrite Hq; repeat split; try reflexivity;
    destruct (clipboard m) as [p c ws]; cbn in Hp; by subst.
Qed.

Lemma dispatch_calls (e : event) (m : Machine) :
  Inv m -> (forall dt, e <> Elapsed dt) ->
  exists m1, dispatch e m = (Normal tt, m1) /\
    state (react m1) = state (react m) /\
    queue (react m1) = setter_calls e m /\
    mounted (react m1) = (if e is Unmounted then false else mounted (react m)) /\
    store m1 = store m /\ writes m1 = writes m /\
    timers m1 = timers_after e m /\ clipboard m1 = clipboard_after e m.
Proof.
  intros [Hq H] He. destruct e; cbn [dispatch setter_calls timers_after clipboard_after].
  - eexists. split; [apply handleMount_eq, H|]. cbn. by rewrite Hq.
  - eexists. split; [by apply content_change_eq|].
    unfold enqueue, with_react, exec. cbn. by rewrite Hq.
  - eexists. split; [reflexivity|]. cbn. by rewrite Hq.
  - eexists. split; [reflexivity|]. cbn. by rewrite Hq.
  - eexists. split; [reflexivity|]. cbn. by rewrite Hq.
  - eexists. split; [reflexivity|]. cbn. by rewrite Hq.
  - eexists. split; [reflexivity|]. cbn. by rewrite Hq.
  - eexists. split; [apply handleSwap_eq|]. cbn. by rewrite Hq.
  - destruct (copy_text_calls (original (state (react m))) m H Hq) as (m1 & E & Hrest).
    exists m1. split; [|exact Hrest].
    unfold handleCopy. erewrite bind_normal by reflexivity. exact E.
  - destruct (copy_text_calls (modified (state (react m))) m H Hq) as (m1 & E & Hrest).
    exists m1. split; [|exact Hrest].
    unfold handleCopy. erewrite bind_normal by reflexivity. exact E.
  - eexists. split; [apply handleCopy_request_eq|]. cbn. by rewrite Hq.
  - eexists. split; [apply handleCopy_request_eq|]. cbn. by rewrite Hq.
  - unfold handleCopy_settled, navigator.clipboard_settle.
    unfold mbind at 1. unfold M_bind at 1.
    destruct (writing (clipboard m)) as [|text rest] eqn:Hw.
    + eexists. split; [reflexivity|]. by rewrite Hq.
    + destruct (copy_text_calls text (dequeued rest m)) as (m1 & E & Hrest);
        [by apply (Stable_frame m)|done|].
      exists m1. split; [exact E|exact Hrest].
  - rewrite handleReset_eq. eexists. split; [by apply showToast_stable_eq, Stable_enqueue|].
    cbn [react enqueue with_react state queue mounted store writes]. rewrite Hq.
    by rewrite app_nil_l.
  - by destruct (He dt).
  - eexists. split; [by apply unmount_eq|]. done.
Qed.

Lemma fold_toast_null (st : State) (n : nat) :
  forall f, f <> Toast ->
    get_field f (fold_left apply_update (repeat (Toast, Assign VNull) n) st) = get_field f st.
Proof.
  intros f Hf. revert st. induction n as [|n IH]; intros st; [done|].
  cbn [repeat fold_left]. rewrite IH. by destruct f.
Qed.

(** The state, the log and the store after a step: the setter calls of the
    event are applied in order by a mounted component, and the effects write
    the persisted fields whose value changed, each under its key. *)
Lemma step_effects (e : event) (m : Machine) :
  Inv m ->
  let old := state (react m) in
  let new := if mounted (react m) then fold_left apply_update (setter_calls e m) old
             else old in
  state (react (step m e)) = new /\
  writes (step m e) = writes m ++ effect_writes (Some old) new /\
  store (step m e) = store_after (store m) (effect_writes (Some old) new).
Proof.
  intros H. cbn zeta.
  assert ((exists dt, e = Elapsed dt) \/ (forall dt, e <> Elapsed dt)) as [[dt ->]|He]
    by (destruct e; eauto).
  - (* time passes *)
    destruct H as [Hq Hs]. cbn [setter_calls]. unfold ready.
    rewrite step_eq by (by split). cbn [needs_mounted andb dispatch].
    destruct (inv_timer _ Hs) as [Hp|[_ [d Hp]]];
      [|destruct (decide (d <= clock (timers m) + dt)) as [Hd|Hd]].
    + assert (exec (elapse dt) m
              = tick (clock (timers m) + dt) (pending (timers m)) (fired (timers m)) m) as ->
        by (unfold exec; rewrite elapse_idle; [done|by rewrite Hp]).
      rewrite Hp, filter_nil. cbn [map fold_left].
      destruct (flush_writes (tick (clock (timers m) + dt) [] (fired (timers m)) m))
        as (A & B & C).
      cbn zeta in A, B, C. cbn [react tick with_timers state queue mounted] in A, B, C.
      rewrite Hq in A, B, C. cbn [fold_left] in A, B, C.
      destruct (mounted (react m)); by rewrite A, B, C.
    + set (t := {| timer_id := toastTimer (refs m); due := d; action := ClearToast |}) in *.
      assert (exec (elapse dt) m
              = exec flush (enqueue [(Toast, Assign VNull)]
                  (tick (clock (timers m) + dt) [] (fired (timers m) ++ [timer_id t]) m))) as ->.
      { unfold exec at 1. rewrite (elapse_fire _ _ t) by done. cbn [action t run_callback].
        by rewrite (exec_seq _ _ _ tt) by reflexivity. }
      rewrite Hp, filter_cons_True by done. rewrite filter_nil. cbn [map fold_left].
      set (m1 := enqueue _ _).
      destruct (flush_writes m1) as (A & B & C). cbn zeta in A, B, C.
      assert (queue (react m1) = [(Toast, Assign VNull)]) as Hq1
        by (unfold m1, enqueue, with_react; cbn; by rewrite Hq).
      change (state (react m1)) with (state (react m)) in *.
      change (mounted (react m1)) with (mounted (react m)) in *.
      change (writes m1) with (writes m) in *. change (store m1) with (store m) in *.
      rewrite Hq1 in A, B, C. cbn [fold_left] in A, B, C.
      assert (queue (react (exec flush m1)) = []) as Hq2.
      { destruct (flush_frame m1) as (m' & E & Hq' & _). unfold exec. by rewrite E. }
      assert (mounted (react (exec flush m1)) = mounted (react m)) as Hm2.
      { destruct (flush_frame m1) as (m' & E & _ & Hm' & _). unfold exec. by rewrite E. }
      destruct (flush_writes (exec flush m1)) as (A' & B' & C'). cbn zeta in A', B', C'.
      rewrite Hq2, Hm2 in A', B', C'. cbn [fold_left] in A', B', C'.
      assert (forall st, effect_writes (Some st) st = []) as Hsame
        by (intros st; by apply effect_writes_same).
      replace (if mounted (react m) then state (react (exec flush m1))
               else state (react (exec flush m1)))
        with (state (react (exec flush m1))) in A', B', C' by (by destruct (mounted _)).
      rewrite Hsame, app_nil_r in B'. rewrite Hsame in C'. cbn [store_after fold_left] in C'.
      by rewrite A', B', C', A, B, C.
    + assert (exec (elapse dt) m
              = tick (clock (timers m) + dt) (pending (timers m)) (fired (timers m)) m) as ->.
      { unfold exec. rewrite elapse_idle; [done|]. rewrite Hp. repeat constructor. cbn. lia. }
      destruct (flush_writes (tick (clock (timers m) + dt) (pending (timers m))
                                (fired (timers m)) m)) as (A & B & C).
      cbn zeta in A, B, C. cbn [react tick with_timers state queue mounted] in A, B, C.
      rewrite Hq in A, B, C. cbn [fold_left] in A, B, C. rewrite A, B, C.
      rewrite Hp, filter_cons_False by (cbn; lia). rewrite filter_nil. cbn [map fold_left].
      by destruct (mounted (react m)).
  - (* any other event *)
    destruct (dispatch_calls e m H He) as (m1 & E & Hst & Hq1 & Hm1 & Hw1 & Hl1 & _).
    assert (forall st, effect_writes (Some st) st = []) as Hsame
      by (intros st; by apply effect_writes_same).
    rewrite step_eq by done.
    destruct (needs_mounted e && negb (mounted (react m))) eqn:Hig.
    + apply andb_true_iff in Hig as [_ Hm]. apply negb_true_iff in Hm. rewrite Hm.
      rewrite Hsame, app_nil_r. done.
    + unfold exec at 2 4 6. rewrite E. cbn [snd].
      destruct (flush_writes m1) as (A & B & C). cbn zeta in A, B, C.
      rewrite Hst, Hq1, Hm1 in A. rewrite Hst, Hq1, Hm1, Hl1 in B.
      rewrite Hst, Hq1, Hm1, Hw1 in C.
      destruct e; try (by rewrite A, B, C).
      cbn [setter_calls fold_left]. rewrite A, B, C.
      destruct (mounted (react m)); repeat split; reflexivity.
Qed.

Lemma callbacks_frame (l : list Timer) (m : Machine) :
  exists m', forEach l (fun x => run_callback (action x) ;; flush) m = (Normal tt, m') /\
    mounted (react m') = mounted (react m) /\ timers m' = timers m /\
    clipboard m' = clipboard m.
Proof.
  revert m. induction l as [|x l IH]; intros m; [by eexists|].
  cbn [forEach]. destruct (action x). cbn [run_callback].
  destruct (flush_frame (exec (set Toast (Assign VNull)) m))
    as (m1 & E1 & _ & Hm1 & _ & Ht1 & _ & Hc1).
  destruct (IH m1) as (m2 & E2 & Hm2 & Ht2 & Hc2).
  exists m2. split; [|by rewrite Hm2, Ht2, Hc2, Hm1, Ht1, Hc1].
  rewrite (exec_seq _ _ _ tt).
  - unfold exec. rewrite (exec_seq _ _ _ tt) by reflexivity.
    fold (exec (set Toast (Assign VNull)) m). rewrite E1. exact E2.
  - rewrite (exec_seq _ _ _ tt) by reflexivity.
    fold (exec (set Toast (Assign VNull)) m). by rewrite E1.
Qed.

(** The rest of the machine after a step. *)
Lemma step_platform (e : event) (m : Machine) :
  Inv m ->
  mounted (react (step m e)) = (if e is Unmounted then false else mounted (react m)) /\
  timers (step m e) = (if taken e m then timers_after e m else timers m) /\
  clipboard (step m e) = (if taken e m then clipboard_after e m else clipboard m).
Proof.
  intros H.
  assert ((exists dt, e = Elapsed dt) \/ (forall dt, e <> Elapsed dt)) as [[dt ->]|He]
    by (destruct e; eauto).
  - cbn [taken needs_mounted negb orb timers_after clipboard_after]. unfold ready.
    rewrite step_eq by done. cbn [needs_mounted andb dispatch].
    unfold exec at 2 4 6. unfold elapse.
    set (m0 := with_timers _ m).
    destruct (callbacks_frame
                (filter (fun x => due x <= clock (timers m) + dt) (pending (timers m))) m0)
      as (m1 & E1 & Hm1 & Ht1 & Hc1).
    rewrite E1. cbn [snd].
    destruct (flush_frame m1) as (m2 & E2 & _ & Hm2 & _ & Ht2 & _ & Hc2).
    unfold exec. rewrite E2. cbn [snd]. by rewrite Hm2, Ht2, Hc2, Hm1, Ht1, Hc1.
  - destruct (dispatch_calls e m H He) as (m1 & E & _ & _ & Hm1 & _ & _ & Ht1 & Hc1).
    rewrite step_eq by done. unfold taken.
    destruct (needs_mounted e && negb (mounted (react m))) eqn:Hig.
    + apply andb_true_iff in Hig as [Hn Hm]. apply negb_true_iff in Hm.
      rewrite Hn, Hm. cbn. split; [|done]. by destruct e.
    + replace (negb (needs_mounted e) || mounted (react m)) with true
        by (destruct (needs_mounted e), (mounted (react m)); done).
      unfold exec at 2 4 6. rewrite E. cbn [snd].
      destruct (flush_frame m1) as (m' & Ef & _ & Hm' & _ & Ht' & _ & Hc').
      unfold exec. rewrite Ef. cbn [snd]. by rewrite Hm', Ht', Hc', Hm1, Ht1, Hc1.
Qed.

(** ** The store log follows the state *)

Lemma Object_is_sym (a b : value) : JS.Object_is a b = JS.Object_is b a.
Proof.
  unfold JS.Object_is. destruct (JS.value_eqb a b) eqn:E.
  - apply value_eqb_eq in E as ->. symmetry. apply value_eqb_refl.
  - destruct (JS.value_eqb b a) eqn:E'; [|done].
    apply value_eqb_eq in E' as ->. by rewrite value_eqb_refl in E.
Qed.

Lemma Object_is_eq (a b : value) : JS.Object_is a b = true <-> a = b.
Proof. apply value_eqb_eq. Qed.

(** The writes of the effects, field by field. *)
Lemma effect_writes_fields (old : option State) (new : State) :
  effect_writes old new =
  flat_map (fun f =>
    match key_of f with
    | Some k =>
        match old with
        | Some st =>
            if JS.Object_is (get_field f st) (get_field f new) then []
            else [(k, get_field f new)]
        | None => [(k, get_field f new)]
        end
    | None => []
    end) persisted_fields.
Proof. reflexivity. Qed.

Lemma last_write_app (k : jstring) (a b : list (jstring * value)) :
  last_write k (a ++ b) =
  match last_write k b with
  | Some v => Some v
  | None => last_write k a
  end.
Proof.
  unfold last_write. rewrite filter_app.
  destruct (filter _ b) as [|x l] using rev_ind; [by rewrite app_nil_r|].
  by rewrite app_assoc, !last_snoc.
Qed.

Lemma last_write_one (k k' : jstring) (v : value) (b : bool) :
  last_write k (if b then [] else [(k', v)]) =
  if b then None else if decide (k' = k) then Some v else None.
Proof.
  destruct b; [done|]. unfold last_write. rewrite filter_cons, filter_nil. cbn [fst].
  by destruct (decide (k' = k)).
Qed.

Ltac different_keys := intros E; vm_compute in E; discriminate.

Lemma last_write_effects (f : field) (k : jstring) (old : option State) (new : State) :
  key_of f = Some k ->
  last_write k (effect_writes old new) =
  match old with
  | Some st =>
      if JS.Object_is (get_field f st) (get_field f new) then None
      else Some (get_field f new)
  | None => Some (get_field f new)
  end.
Proof.
  intros Hk. rewrite effect_writes_fields.
  assert (forall g k', key_of g = Some k' -> k' = k -> g = f) as Hinj.
  { intros g k' Hg ->. destruct f, g; try reflexivity; try discriminate;
      exfalso; cbn in Hk, Hg; injection Hk as <-; injection Hg; different_keys. }
  assert (forall (b : bool) g v,
            last_write k (match key_of g with
                          | Some k' => if b then [] else [(k', v)]
                          | None => []
                          end)
            = if decide (g = f) then (if b then None else Some v) else None) as Hone.
  { intros b g v. destruct (key_of g) as [k'|] eqn:Hg.
    - rewrite last_write_one. destruct b; [by destruct (decide (g = f))|].
      destruct (decide (k' = k)) as [->|Hne].
      + by rewrite decide_True by (by eapply Hinj).
      + rewrite decide_False; [done|]. intros ->. congruence.
    - rewrite decide_False; [done|]. intros ->. congruence. }
  unfold persisted_fields. cbn [flat_map]. rewrite !last_write_app.
  destruct old as [st|].
  - rewrite !Hone. change (last_write k []) with (@None value).
    destruct f; try discriminate; cbn [decide field_eq_dec decide_rel];
      repeat (match goal with |- context [decide (?a = ?b)] =>
                destruct (decide (a = b)); try congruence end);
      by destruct (JS.Object_is _ _).
  - pose proof (fun g v => Hone false g v) as Hone'. cbn iota in Hone'.
    rewrite !Hone'. change (last_write k []) with (@None value).
    destruct f; try discriminate;
      repeat (match goal with |- context [decide (?a = ?b)] =>
                destruct (decide (a = b)); try congruence end); done.
Qed.

Lemma mount_mounted (w : Storage) (c : Clipboard) :
  mounted (react (mount w c)) = negb (throws (render (state (react (mount w c))))).
Proof. destruct (mount_eq w c) as (st & ->). by destruct (render st) eqn:E; cbn; rewrite E. Qed.

(** Nothing mounts the component again. *)
Lemma run_mounted (es : list event) (m : Machine) :
  Inv m -> mounted (react (run es m)) = true -> mounted (react m) = true.
Proof.
  revert m. induction es as [|e es IH]; intros m H Hm; [done|].
  apply IH in Hm; [|by apply step_Inv].
  destruct (step_platform e m H) as (C & _). rewrite C in Hm. by destruct e.
Qed.

(** Nothing changes the state or the store of a component that is not
    mounted. *)
Lemma run_unmounted (es : list event) (m : Machine) :
  Inv m -> mounted (react m) = false ->
  state (react (run es m)) = state (react m) /\
  writes (run es m) = writes m /\
  store (run es m) = store m.
Proof.
  revert m. induction es as [|e es IH]; intros m H Hm; [done|].
  destruct (step_effects e m H) as (A & B & C). cbn zeta in A, B, C. rewrite Hm in A, B, C.
  rewrite effect_writes_same in B, C by done. rewrite app_nil_r in B.
  change (store_after (store m) []) with (store m) in C.
  destruct (step_platform e m H) as (D & _). rewrite Hm in D.
  destruct (IH (step m e) (step_Inv m e H)) as (A' & B' & C'); [by destruct e|].
  change (run (e :: es) m) with (run es (step m e)).
  by rewrite A', B', C', A, B, C.
Qed.

Lemma mount_writes (w : Storage) (c : Clipboard) :
  writes (mount w c) =
    (if mounted (react (mount w c)) then effect_writes None (state (react (mount w c)))
     else []) /\
  store (mount w c) = store_after w (writes (mount w c)).
Proof. destruct (mount_eq w c) as (st & ->). by destruct (render st). Qed.

Lemma last_write_reached (w : Storage) (c : Clipboard) (es : list event) (f : field)
    (k : jstring) :
  mounted (react (mount w c)) = true ->
  key_of f = Some k ->
  last_write k (writes (run es (mount w c)))
  = Some (get_field f (state (react (run es (mount w c))))).
Proof.
  intros Hmount Hk.
  assert (forall m, Inv m ->
            last_write k (writes m) = Some (get_field f (state (react m))) ->
            forall l, last_write k (writes (run l m))
                      = Some (get_field f (state (react (run l m))))) as Hrun.
  { intros m Hm Hl l. revert m Hm Hl. induction l as [|e l IH]; intros m Hm Hl; [done|].
    cbn [run fold_left]. apply IH; [by apply step_Inv|].
    destruct (step_effects e m Hm) as (A & B & _). cbn zeta in A, B.
    rewrite B, last_write_app, (last_write_effects f k) by done. rewrite <- A.
    destruct (JS.Object_is _ _) eqn:E; [|done].
    apply Object_is_eq in E. by rewrite Hl, E. }
  apply Hrun; [apply mount_Inv|].
  destruct (mount_writes w c) as [-> _]. rewrite Hmount. by rewrite (last_write_effects f k).
Qed.

(** The store is the initial store after the logged calls. *)
Lemma store_is_log (w : Storage) (c : Clipboard) (es : list event) :
  store (run es (mount w c)) = store_after w (writes (run es (mount w c))).
Proof.
  assert (forall m, Inv m -> store m = store_after w (writes m) ->
            forall l, store (run l m) = store_after w (writes (run l m))) as Hrun.
  { intros m Hm Hs l. revert m Hm Hs. induction l as [|e l IH]; intros m Hm Hs; [done|].
    cbn [run fold_left]. apply IH; [by apply step_Inv|].
    destruct (step_effects e m Hm) as (_ & B & C). cbn zeta in B, C.
    by rewrite B, C, store_after_app, Hs. }
  apply Hrun; [apply mount_Inv|]. by destruct (mount_writes w c) as [_ ->].
Qed.

(** What an accepting store holds after a sequence of [writeStorage] calls. *)
Lemma accepted_lookup (ws : list (jstring * value)) (w : Storage) (k : jstring) :
  accepted w ws = true ->
  access (store_after w ws) = access w /\
  items (store_after w ws) !! k =
    match last_write k ws with
    | Some v => Some (stored_text v)
    | None => items w !! k
    end.
Proof.
  revert w. induction ws as [|[k' v] ws IH]; intros w Ha; [done|].
  cbn [accepted fst snd] in Ha. apply andb_true_iff in Ha as [Hok Ha].
  change (store_after w ((k', v) :: ws))
    with (store_after (snd (writeStorage w k' v)) ws).
  destruct (IH _ Ha) as [IHa IHl]. rewrite IHa, IHl.
  change ((k', v) :: ws) with ([(k', v)] ++ ws). rewrite last_write_app.
  unfold writeStorage in *. unfold localStorage.setItem in *.
  rewrite ToString_stringify in *.
  destruct (localStorage.resolve w); [|done].
  destruct (_ <=? _)%nat; [|done]. cbn [snd access items].
  split; [done|]. destruct (last_write k ws); [done|].
  unfold last_write. rewrite filter_cons, filter_nil. cbn [fst].
  destruct (decide (k' = k)) as [->|Hne].
  - cbn. apply lookup_insert_eq.
  - cbn. by apply lookup_insert_ne.
Qed.

Lemma readStorage_stored (w : Storage) (key : jstring) (v fallback : value) :
  access w = Granted -> items w !! key = Some (stored_text v) ->
  json_valid v = true ->
  readStorage w key fallback = Normal v.
Proof.
  intros Ha Hi Hv.
  assert (stored_text v = text_of v) as Et.
  { pose proof (stringify_valid v Hv) as E. unfold JSON.stringify, stored_text, text_of in *.
    by destruct (JSON.serialize v). }
  unfold readStorage, localStorage.window_undefined, localStorage.getItem,
    localStorage.resolve.
  rewrite Ha, Hi, Et. unfold mbind, completion_bind, bind, try_catch.
  by rewrite parse_stringify.
Qed.

Lemma mount_state (w : Storage) (c : Clipboard) :
  Forall (fun p => readStorage w (snd (fst p)) (snd p)
                   = Normal (get_field (fst (fst p)) (state (react (mount w c)))))
    persisted /\
  toast (state (react (mount w c))) = VNull.
Proof.
  unfold mount, exec, App.
  repeat (match goal with
          | |- context [useLocalStorageState_init ?k ?v ≫= _] =>
              let x := fresh "v" in
              let H := fresh "H" in
              destruct (readStorage_normal w k v) as [x H];
              erewrite (bind_normal (useLocalStorageState_init k v))
                by (unfold useLocalStorageState_init; cbn [store boot]; rewrite H; reflexivity)
          end).
  match goal with |- context [render ?s] => destruct (render s) as [[]|e] end.
  - rewrite (exec_seq _ _ _ tt) by reflexivity. rewrite run_effects_eq.
    cbn [snd react with_store exec modify set_react with_react state get_field toast].
    split; [|reflexivity]. unfold persisted. repeat constructor; cbn [fst snd get_field];
      assumption.
  - split; [|reflexivity]. unfold persisted. repeat constructor; cbn [fst snd get_field];
      assumption.
Qed.

(** ** Subscriptions *)

Lemma dispatch_editors (e : event) (m : Machine) :
  Inv m -> (forall dt, e <> Elapsed dt) ->
  exists m1, dispatch e m = (Normal tt, m1) /\
    listeners (editors m1) =
      match e with
      | EditorMounted ed => subscriptions ed (next_handle (editors m))
      | Unmounted => []
      | _ => listeners (editors m)
      end /\
    diffEditorRef (refs m1) =
      match e with
      | EditorMounted ed => Some ed
      | _ => diffEditorRef (refs m)
      end.
Proof.
  intros [Hq H] He. destruct e; cbn [dispatch].
  - eexists. split; [apply handleMount_eq, H|]. done.
  - eexists. split; [by apply content_change_eq|]. done.
  - eexists. split; [reflexivity|]. done.
  - eexists. split; [reflexivity|]. done.
  - eexists. split; [reflexivity|]. done.
  - eexists. split; [reflexivity|]. done.
  - eexists. split; [reflexivity|]. done.
  - eexists. split; [apply handleSwap_eq|]. done.
  - rewrite handleCopy_eq. copy_cases m;
      (eexists; split; [apply showToast_stable_eq; by try apply (Stable_frame m)|]); done.
  - rewrite handleCopy_eq. copy_cases m;
      (eexists; split; [apply showToast_stable_eq; by try apply (Stable_frame m)|]); done.
  - eexists. split; [apply handleCopy_request_eq|]. done.
  - eexists. split; [apply handleCopy_request_eq|]. done.
  - rewrite handleCopy_settled_eq. destruct (writing (clipboard m)) as [|text rest]; [eauto|].
    copy_cases m;
      (eexists; split; [apply showToast_stable_eq; by apply (Stable_frame m)|]); done.
  - rewrite handleReset_eq. eexists. split; [by apply showToast_stable_eq, Stable_enqueue|].
    done.
  - by destruct (He dt).
  - eexists. split; [by apply unmount_eq|]. done.
Qed.

Lemma callbacks_editors (l : list Timer) (m : Machine) :
  exists m', forEach l (fun x => run_callback (action x) ;; flush) m = (Normal tt, m') /\
    refs m' = refs m /\ editors m' = editors m.
Proof.
  revert m. induction l as [|x l IH]; intros m; [by eexists|].
  cbn [forEach]. destruct (action x). cbn [run_callback].
  destruct (flush_frame (exec (set Toast (Assign VNull)) m))
    as (m1 & E1 & _ & _ & Hr1 & _ & He1 & _).
  destruct (IH m1) as (m2 & E2 & Hr2 & He2).
  exists m2. split; [|by rewrite Hr2, He2, Hr1, He1].
  rewrite (exec_seq _ _ _ tt).
  - unfold exec. rewrite (exec_seq _ _ _ tt) by reflexivity.
    fold (exec (set Toast (Assign VNull)) m). rewrite E1. exact E2.
  - rewrite (exec_seq _ _ _ tt) by reflexivity.
    fold (exec (set Toast (Assign VNull)) m). by rewrite E1.
Qed.

(** The subscriptions and the editor of [diffEditorRef] after a step. *)
Lemma step_editors (e : event) (m : Machine) :
  Inv m ->
  listeners (editors (step m e)) =
    match e with
    | EditorMounted ed =>
        if mounted (react m) then subscriptions ed (next_handle (editors m))
        else listeners (editors m)
    | Unmounted => []
    | _ => listeners (editors m)
    end /\
  diffEditorRef (refs (step m e)) =
    match e with
    | EditorMounted ed => if mounted (react m) then Some ed else diffEditorRef (refs m)
    | _ => diffEditorRef (refs m)
    end.
Proof.
  intros H.
  assert ((exists dt, e = Elapsed dt) \/ (forall dt, e <> Elapsed dt)) as [[dt ->]|He]
    by (destruct e; eauto).
  - rewrite step_eq by done. cbn [needs_mounted andb dispatch].
    unfold exec at 2 4. unfold elapse.
    set (m0 := with_timers _ m).
    destruct (callbacks_editors
                (filter (fun x => due x <= clock (timers m) + dt) (pending (timers m))) m0)
      as (m1 & E1 & Hr1 & He1).
    rewrite E1. cbn [snd].
    destruct (flush_frame m1) as (m2 & E2 & _ & _ & Hr2 & _ & He2 & _).
    unfold exec. rewrite E2. cbn [snd]. by rewrite Hr2, He2, Hr1, He1.
  - destruct (dispatch_editors e m H He) as (m1 & E & Hl1 & Hd1).
    rewrite step_eq by done.
    destruct (needs_mounted e && negb (mounted (react m))) eqn:Hig.
    + apply andb_true_iff in Hig as [Hn Hm]. apply negb_true_iff in Hm.
      rewrite Hm. by destruct e.
    + unfold exec at 2 4. rewrite E. cbn [snd].
      destruct (flush_frame m1) as (m' & Ef & _ & _ & Hr' & _ & He' & _).
      unfold exec. rewrite Ef. cbn [snd]. rewrite Hr', He', Hl1, Hd1.
      destruct e; try done. cbn in Hig. apply negb_false_iff in Hig. by rewrite Hig.
Qed.

Lemma reachable_Subscribed (w : Storage) (c : Clipboard) (es : list event) :
  Subscribed (run es (mount w c)).
Proof.
  assert (forall m, Inv m -> Subscribed m -> forall l, Subscribed (run l m)) as Hrun.
  { intros m Hm Hs l. revert m Hm Hs. induction l as [|e l IH]; intros m Hm Hs; [done|].
    cbn [run fold_left]. apply IH; [by apply step_Inv|].
    destruct (step_editors e m Hm) as [Hl Hd]. unfold Subscribed. rewrite Hl, Hd.
    destruct e; try exact Hs; [|by left].
    destruct (mounted (react m)); [|exact Hs]. right. by eexists _, _. }
  apply Hrun; [apply mount_Inv|]. left.
  destruct (mount_eq w c) as (st & ->). by destruct (render st).
Qed.

(** ** Setter calls and the fields they touch *)

Lemma get_set_other (f g : field) (v : value) (st : State) :
  f <> g -> get_field f (set_field g v st) = get_field f st.
Proof. intros Hne. destruct f, g; try reflexivity; by destruct Hne. Qed.

Lemma fold_untouched (f : field) (calls : list (field * updater)) (st : State) :
  Forall (fun call => fst call <> f) calls ->
  get_field f (fold_left apply_update calls st) = get_field f st.
Proof.
  intros H. revert st. induction H as [|call l Hc _ IH]; intros st; [done|].
  cbn [fold_left]. rewrite IH. unfold apply_update. by apply get_set_other.
Qed.

(** The effects after a render in which one field was set. *)
Lemma effect_writes_set (f : field) (k : jstring) (v : value) (st : State) :
  key_of f = Some k ->
  effect_writes (Some st) (set_field f v st) =
  if JS.Object_is (get_field f st) v then [] else [(k, v)].
Proof.
  intros Hk. destruct (JS.Object_is (get_field f st) v) eqn:E.
  - apply Object_is_eq in E as <-. rewrite set_field_same. by apply effect_writes_same.
  - rewrite effect_writes_fields. unfold persisted_fields. cbn [flat_map].
    assert (forall g, g <> f ->
              JS.Object_is (get_field g st) (get_field g (set_field f v st)) = true) as Hother.
    { intros g Hg. rewrite get_set_other by done. by apply Object_is_eq. }
    destruct f; try discriminate; rewrite Hk, get_set_field, E; cbn [key_of];
      repeat (match goal with
              | |- context [JS.Object_is (get_field ?g st) (get_field ?g (set_field _ v st))] =>
                  rewrite (Hother g) by discriminate
              end);
      reflexivity.
Qed.

(** The state, the log and the store after an event of the mounted
    component. *)
Lemma step_mounted (e : event) (m : Machine) :
  Inv m -> mounted (react m) = true ->
  let new := fold_left apply_update (setter_calls e m) (state (react m)) in
  state (react (step m e)) = new /\
  writes (step m e) = writes m ++ effect_writes (Some (state (react m))) new /\
  store (step m e) = store_after (store m) (effect_writes (Some (state (react m))) new).
Proof. intros H Hm. pose proof (step_effects e m H) as He. by rewrite Hm in He. Qed.

Lemma step_stays_mounted (e : event) (m : Machine) :
  Inv m -> mounted (react m) = true -> e <> Unmounted ->
  mounted (react (step m e)) = true.
Proof.
  intros H Hm He. destruct (step_platform e m H) as [-> _]. by destruct e.
Qed.

(** ** Swapping the buffers *)

(** X1. [handleSwap] in any state of the mounted component: the render that
    follows shows the two buffers exchanged and everything else as it was;
    when the buffers differ both are written to the store, each under its own
    key, and when they are the same primitive value (the same text, say)
    nothing is written; no timer is started and the clipboard is not touched.
    (Two arrays or objects recovered from storage are never the same object,
    whatever they hold: nothing is said of the store calls then.) *)
Theorem handleSwap_exchanges (w : Storage) (c : Clipboard) (es : list event) :
  let m := run es (mount w c) in
  mounted (react m) = true ->
  let st := state (react m) in
  let m' := step m SwapClicked in
  state (react m') =
    {| original := modified st; modified := original st; language := language st;
       theme := theme st; sideBySide := sideBySide st;
       ignoreTrimWhitespace := ignoreTrimWhitespace st; fontSize := fontSize st;
       toast := toast st |} /\
  (JS.Object_is (original st) (modified st) = false ->
   writes m' =
     writes m ++
     [(str "codeDiff.original", modified st); (str "codeDiff.modified", original st)]) /\
  (JS.is_primitive (original st) || JS.is_primitive (modified st) = true ->
   JS.Object_is (original st) (modified st) = true ->
   writes m' = writes m) /\
  timers m' = timers m /\
  clipboard m' = clipboard m.
Proof.
  intros m Hm st m'. subst m'.
  enough (state (react (step m SwapClicked)) =
            {| original := modified st; modified := original st; language := language st;
               theme := theme st; sideBySide := sideBySide st;
               ignoreTrimWhitespace := ignoreTrimWhitespace st; fontSize := fontSize st;
               toast := toast st |} /\
          writes (step m SwapClicked) =
            writes m ++
            (if JS.Object_is (original st) (modified st) then []
             else [(str "codeDiff.original", modified st);
                   (str "codeDiff.modified", original st)]) /\
          timers (step m SwapClicked) = timers m /\
          clipboard (step m SwapClicked) = clipboard m) as (A & B & T & C).
  { split; [exact A|]. split; [|split; [|by split]].
    - intros E. by rewrite E in B.
    - intros _ E. rewrite E in B. by rewrite app_nil_r in B. }
  assert (Inv m) as H by apply reachable_Inv.
  destruct (step_mounted SwapClicked m H Hm) as (A & B & _). cbn zeta in A, B.
  destruct (step_platform SwapClicked m H) as (_ & T & C).
  unfold taken in T, C. rewrite Hm in T, C. cbn in T, C.
  cbn [setter_calls fold_left] in A, B. fold st in A, B.
  assert (apply_update (apply_update st (Original, Assign (modified st)))
            (Modified, Assign (original st))
          = {| original := modified st; modified := original st; language := language st;
               theme := theme st; sideBySide := sideBySide st;
               ignoreTrimWhitespace := ignoreTrimWhitespace st; fontSize := fontSize st;
               toast := toast st |}) as E by reflexivity.
  rewrite E in A, B. split; [done|]. split; [|done].
  rewrite B. f_equal. rewrite effect_writes_fields. unfold persisted_fields.
  cbn [flat_map key_of get_field original modified language theme sideBySide
         ignoreTrimWhitespace fontSize].
  rewrite (Object_is_sym (modified st)).
  rewrite !(proj2 (Object_is_eq _ _) eq_refl).
  by destruct (JS.Object_is (original st) (modified st)).
Qed.

Lemma handleSwap_exchanges_witness :
  let m := step sample_machine SwapClicked in
  original (state (react m)) = SAMPLE_MODIFIED /\
  modified (state (react m)) = SAMPLE_ORIGINAL /\
  drop 7 (writes m) =
    [(str "codeDiff.original", SAMPLE_MODIFIED); (str "codeDiff.modified", SAMPLE_ORIGINAL)].
Proof.
  cbn zeta.
  destruct (handleSwap_exchanges sample_storage sample_clipboard []) as (A & B & _);
    [reflexivity|].
  cbn zeta in A, B. change (run [] (mount sample_storage sample_clipboard))
    with sample_machine in A, B.
  rewrite A, B by (vm_compute; reflexivity). repeat split; vm_compute; reflexivity.
Defined.

(** X2. Swapping twice gives the state back: [handleSwap] is its own inverse
    on the state of the mounted component, whatever the buffers hold. *)
Theorem handleSwap_twice (w : Storage) (c : Clipboard) (es : list event) :
  let m := run es (mount w c) in
  mounted (react m) = true ->
  state (react (step (step m SwapClicked) SwapClicked)) = state (react m).
Proof.
  intros m Hm.
  assert (Inv m) as H by apply reachable_Inv.
  assert (Inv (step m SwapClicked)) as H' by (by apply step_Inv).
  assert (mounted (react (step m SwapClicked)) = true) as Hm'
    by (by apply step_stays_mounted).
  destruct (step_mounted SwapClicked _ H' Hm') as (-> & _). cbn [setter_calls].
  destruct (step_mounted SwapClicked m H Hm) as (-> & _). cbn [setter_calls fold_left].
  by destruct (state (react m)).
Qed.

Lemma handleSwap_twice_witness :
  state (react (step (step sample_machine SwapClicked) SwapClicked))
  = state (react sample_machine).
Proof. apply (handleSwap_twice sample_storage sample_clipboard []). reflexivity. Defined.

(** ** Editing *)

Lemma one_subscription (ed : nat) (h : N) (side : Side) :
  length (filter (fun l => target l = (ed, side)) (subscriptions ed h)) = 1%nat.
Proof.
  unfold subscriptions. destruct side.
  - rewrite filter_cons_True by done. by rewrite filter_cons_False, filter_nil by done.
  - rewrite filter_cons_False by done. by rewrite filter_cons_True, filter_nil by done.
Qed.

Lemma no_subscription (ed ed' : nat) (h : N) (side : Side) :
  ed <> ed' -> filter (fun l => target l = (ed, side)) (subscriptions ed' h) = [].
Proof.
  intros Hne. unfold subscriptions.
  rewrite filter_cons_False by (cbn; congruence).
  by rewrite filter_cons_False, filter_nil by (cbn; congruence).
Qed.

(** X3. An edit in the diff editor the component holds: after [handleMount],
    when the text of one of its two editors changes, the next render shows
    the new text in the buffer of that side and every other state as it was,
    and the new text is written to the store under the key of that buffer,
    once, unless the buffer held this text already. *)
Theorem edit_is_persisted
    (w : Storage) (c : Clipboard) (es : list event) (ed : nat) (side : Side)
    (text : jstring) :
  let m0 := run es (mount w c) in
  mounted (react m0) = true ->
  let m := step m0 (EditorMounted ed) in
  let m' := step m (ContentChanged (ed, side) text) in
  let key :=
    match side with
    | OriginalEditor => str "codeDiff.original"
    | ModifiedEditor => str "codeDiff.modified"
    end in
  state (react m) = state (react m0) /\
  writes m = writes m0 /\
  state (react m') = set_field (field_of side) (VString text) (state (react m0)) /\
  writes m' =
    writes m0 ++
    (if JS.Object_is (get_field (field_of side) (state (react m0))) (VString text) then []
     else [(key, VString text)]) /\
  texts (editors m') (ed, side) = text.
Proof.
  intros m0 Hm0 m m' key.
  assert (Inv m0) as H0 by apply reachable_Inv.
  assert (Inv m) as H by (by apply step_Inv).
  assert (mounted (react m) = true) as Hm by (by apply step_stays_mounted).
  destruct (step_mounted (EditorMounted ed) m0 H0 Hm0) as (A & B & _).
  cbn zeta in A, B. cbn [setter_calls fold_left] in A, B.
  rewrite effect_writes_same, app_nil_r in B by done. fold m in A, B.
  destruct (step_editors (EditorMounted ed) m0 H0) as [L _]. rewrite Hm0 in L. fold m in L.
  destruct (step_mounted (ContentChanged (ed, side) text) m H Hm) as (A' & B' & _).
  cbn zeta in A', B'. cbn [setter_calls snd] in A', B'.
  rewrite L, one_subscription in A', B'. cbn [repeat fold_left] in A', B'.
  unfold apply_update in A', B'. cbn [fst snd] in A', B'.
  rewrite keep_if_same_string in A', B'. fold m' in A', B'.
  rewrite A, B in *.
  split; [done|]. split; [done|]. split; [done|]. split.
  - rewrite B'. f_equal. apply effect_writes_set. by destruct side.
  - subst m'. rewrite step_content_eq by done. unfold exec.
    destruct (flush_frame
                (enqueue
                   (repeat (field_of (snd (ed, side)), KeepIfSame (VString text))
                      (length (filter (fun l => target l = (ed, side))
                                 (listeners (editors m)))))
                   (snd (editor.setText (ed, side) text m))))
      as (m2 & E2 & _ & _ & _ & _ & He2 & _).
    rewrite E2. cbn [snd]. rewrite He2. cbn. by rewrite decide_True.
Qed.

Lemma edit_is_persisted_witness :
  let m := step sample_machine (EditorMounted 0) in
  let m' := step m (ContentChanged (0%nat, ModifiedEditor) (str "x = 1")) in
  modified (state (react m')) = VString (str "x = 1") /\
  original (state (react m')) = SAMPLE_ORIGINAL /\
  drop 7 (writes m') = [(str "codeDiff.modified", VString (str "x = 1"))].
Proof.
  cbn zeta.
  destruct (edit_is_persisted sample_storage sample_clipboard [] 0 ModifiedEditor
              (str "x = 1")) as (_ & _ & A & B & _); [reflexivity|].
  cbn zeta in A, B. change (run [] (mount sample_storage sample_clipboard))
    with sample_machine in A, B.
  rewrite A, B. repeat split; vm_compute; reflexivity.
Defined.

(** X4. In every state the component reaches, the active content listeners
    are none, or exactly the two that [handleMount] subscribed to the two
    editors of the diff editor that [diffEditorRef] holds; their handles are
    the ones kept in [disposablesRef]. *)
Theorem listeners_of_current_editor (w : Storage) (c : Clipboard) (es : list event) :
  let m := run es (mount w c) in
  Subscribed m /\
  map handle (listeners (editors m)) = disposablesRef (refs m) /\
  (length (listeners (editors m)) <= 2)%nat.
Proof.
  intros m. pose proof (reachable_Subscribed w c es) as Hs. fold m in Hs.
  destruct (reachable_Inv w c es) as [_ H]. fold m in H.
  split; [done|]. split; [apply H|].
  destruct Hs as [->|(ed & h & _ & ->)]; cbn; lia.
Qed.

(** X5. A content change in an editor of a diff editor that the component
    does not hold (one that was never given to [handleMount], or one that a
    later [handleMount] replaced) reaches no listener: the state, the log of
    store calls and the store stay as they are. *)
Theorem stale_editor_ignored
    (w : Storage) (c : Clipboard) (es : list event) (ed : nat) (side : Side)
    (text : jstring) :
  let m := run es (mount w c) in
  diffEditorRef (refs m) <> Some ed ->
  let m' := step m (ContentChanged (ed, side) text) in
  state (react m') = state (react m) /\ writes m' = writes m /\ store m' = store m.
Proof.
  intros m Hne m'.
  assert (Inv m) as H by apply reachable_Inv.
  assert (filter (fun l => target l = (ed, side)) (listeners (editors m)) = []) as Hl.
  { destruct (reachable_Subscribed w c es) as [E|(ed' & h & Hd & E)]; fold m in E |- *.
    - by rewrite E.
    - fold m in Hd. rewrite E. apply no_subscription. congruence. }
  destruct (step_effects (ContentChanged (ed, side) text) m H) as (A & B & C).
  cbn zeta in A, B, C. cbn [setter_calls] in A, B, C. rewrite Hl in A, B, C.
  cbn [length repeat fold_left] in A, B, C.
  replace (if mounted (react m) then state (react m) else state (react m))
    with (state (react m)) in A, B, C by (by destruct (mounted _)).
  rewrite effect_writes_same in B, C by done. rewrite app_nil_r in B.
  done.
Qed.

Lemma stale_editor_ignored_witness :
  let m := run [EditorMounted 0; EditorMounted 1] sample_machine in
  let m' := step m (ContentChanged (0%nat, OriginalEditor) (str "late")) in
  diffEditorRef (refs m) = Some 1%nat /\
  state (react m') = state (react m) /\ writes m' = writes m.
Proof.
  cbn zeta. split; [reflexivity|].
  destruct (stale_editor_ignored sample_storage sample_clipboard
              [EditorMounted 0; EditorMounted 1] 0 OriginalEditor (str "late"))
    as (A & B & _); [vm_compute; congruence|].
  split; [exact A|exact B].
Defined.

(** ** Copying *)

(** X6. [handleCopy] in any state of the mounted component, for either side,
    when its clipboard write settles before any other event: the buffers and
    the options stay as they are and nothing is written to the store; when
    the clipboard takes the text (there is a clipboard, the text converts to
    a string and the write is allowed) it holds the text of the chosen
    buffer, the original for ['original'] and the modified one otherwise, and
    the toast is "Copied"; in every other case the clipboard is as before and
    the toast is "Copy failed". *)
Theorem handleCopy_copies (w : Storage) (c : Clipboard) (es : list event) (left : bool) :
  let m := run es (mount w c) in
  mounted (react m) = true ->
  let st := state (react m) in
  let text := if left then original st else modified st in
  let m' := step m (if left then CopyLeftClicked else CopyRightClicked) in
  state (react m') =
    set_field Toast
      (match permission (clipboard m), JS.ToString text with
       | Allowed, Normal _ => VString (str "Copied")
       | _, _ => VString (str "Copy failed")
       end) st /\
  writes m' = writes m /\
  store m' = store m /\
  clipboard m' =
    match permission (clipboard m), JS.ToString text with
    | Allowed, Normal s =>
        {| permission := Allowed; content := s; writing := writing (clipboard m) |}
    | _, _ => clipboard m
    end.
Proof.
  intros m Hm st text m'. subst m'.
  assert (Inv m) as H by apply reachable_Inv.
  set (e := if left then CopyLeftClicked else CopyRightClicked).
  destruct (step_mounted e m H Hm) as (A & B & C). cbn zeta in A, B, C.
  destruct (step_platform e m H) as (_ & _ & K).
  assert (setter_calls e m = [(Toast, Assign (copy_message text m))]) as Hc
    by (by destruct left).
  assert (taken e m = true) as Ht by (unfold taken; rewrite Hm; by destruct left).
  rewrite Hc in A, B, C. rewrite Ht in K. cbn [fold_left] in A, B, C.
  unfold apply_update in A, B, C. cbn [fst snd apply_updater] in A, B, C.
  rewrite effect_writes_same in B, C by (intros f Hf; by apply get_set_other).
  rewrite app_nil_r in B. fold st in A.
  assert (clipboard_after e m =
          {| permission := permission (clipboard m);
             content := match permission (clipboard m), JS.ToString text with
                        | Allowed, Normal s => s
                        | _, _ => content (clipboard m)
                        end;
             writing := writing (clipboard m) |}) as Hk by (by destruct left).
  rewrite Hk in K. unfold copy_message, copy_succeeds in A.
  split; [|split; [exact B|split; [exact C|]]].
  - rewrite A. by destruct (permission (clipboard m)), (JS.ToString text).
  - rewrite K. destruct (clipboard m) as [p ct ws]. cbn.
    by destruct p, (JS.ToString text).
Qed.

Lemma handleCopy_copies_witness :
  let m' := step sample_machine CopyRightClicked in
  toast (state (react m')) = VString (str "Copied") /\
  VString (content (clipboard m')) = SAMPLE_MODIFIED.
Proof.
  cbn zeta.
  destruct (handleCopy_copies sample_storage sample_clipboard [] false)
    as (A & _ & _ & K); [reflexivity|].
  cbn zeta in A, K. change (run [] (mount sample_storage sample_clipboard))
    with sample_machine in A, K.
  rewrite A, K. split; vm_compute; reflexivity.
Defined.

(** ** The toast and its timer *)

Lemma step_Toasting (e : event) (m : Machine) :
  Inv m -> mounted (react (step m e)) = true -> Toasting m -> Toasting (step m e).
Proof.
  intros H Hm' HT.
  destruct (step_platform e m H) as (M & T & _). rewrite Hm' in M.
  assert (mounted (react m) = true /\ e <> Unmounted) as [Hm He] by (by destruct e).
  destruct (step_mounted e m H Hm) as (A & _). cbn zeta in A.
  assert (taken e m = true) as Ht by (unfold taken; rewrite Hm; apply orb_true_r).
  rewrite Ht in T. unfold Toasting. rewrite A, T.
  assert (forall msg calls,
            Forall (fun call : field * updater => fst call <> Toast) calls ->
            toast (fold_left apply_update (calls ++ [(Toast, Assign msg)]) (state (react m)))
            = msg) as Hmsg.
  { intros msg calls Hc. rewrite fold_left_app. cbn [fold_left]. reflexivity. }
  assert (forall calls,
            Forall (fun call : field * updater => fst call <> Toast) calls ->
            toast (fold_left apply_update calls (state (react m)))
            = toast (state (react m))) as Hkeep
    by (intros calls Hc; by apply (fold_untouched Toast)).
  assert (forall msg, JS.ToBoolean msg = true -> forall st,
            toast st = msg ->
            (toast st = VNull /\ pending (shown_timers m) = []) \/
            (exists t, pending (shown_timers m) = [t] /\
                       clock (shown_timers m) < due t <= clock (shown_timers m) + 1200 /\
                       JS.ToBoolean (toast st) = true)) as Hshown.
  { intros msg Hb st ->. right. exists (toast_timer m). cbn. split; [done|].
    split; [lia|done]. }
  destruct e; cbn [setter_calls timers_after]; try done;
    try (rewrite Hkeep by (repeat constructor; discriminate); done).
  - rewrite Hkeep; [done|]. apply Forall_forall. intros call Hc.
    apply list_elem_of_In, repeat_spec in Hc. subst call. cbn. by destruct (snd ed).
  - apply (Hshown (copy_message (original (state (react m))) m)); [|reflexivity].
    unfold copy_message. by destruct (copy_succeeds _ _).
  - apply (Hshown (copy_message (modified (state (react m))) m)); [|reflexivity].
    unfold copy_message. by destruct (copy_succeeds _ _).
  - destruct (writing (clipboard m)) as [|text rest]; [done|].
    apply (Hshown (copy_message text m)); [|reflexivity].
    unfold copy_message. by destruct (copy_succeeds _ _).
  - apply (Hshown (VString (str "Reset"))); [reflexivity|].
    apply Hmsg. unfold reset_calls. repeat constructor; discriminate.
  - unfold ready. cbn [clock pending].
    destruct HT as [[Hn Hp]|(t & Hp & Hd & Hb)]; rewrite Hp.
    + rewrite !filter_nil. cbn [map fold_left]. by left.
    + destruct (decide (due t <= clock (timers m) + dt)) as [Hle|Hgt].
      * left. rewrite filter_cons_True, filter_nil by done.
        rewrite filter_cons_False, filter_nil by lia. done.
      * right. exists t. rewrite filter_cons_True, filter_nil by lia.
        rewrite filter_cons_False, filter_nil by done. cbn [map fold_left].
        split; [done|]. split; [lia|done].
Qed.

Lemma reachable_Toasting (w : Storage) (c : Clipboard) (es : list event) :
  mounted (react (run es (mount w c))) = true -> Toasting (run es (mount w c)).
Proof.
  induction es as [|e es IH] using rev_ind.
  - intros _. left. destruct (mount_state w c) as [_ Ht].
    split; [exact Ht|]. destruct (mount_eq w c) as (st & ->). by destruct (render st).
  - unfold run in *. rewrite fold_left_app. cbn [fold_left]. intros Hm.
    assert (Inv (fold_left step es (mount w c))) as H by apply reachable_Inv.
    apply step_Toasting; [done|done|]. apply IH.
    destruct (step_platform e _ H) as (M & _). rewrite Hm in M. by destruct e.
Qed.

(** X7. While the component is mounted, the footer shows a message exactly
    while the timer of [showToast] is pending: either the toast is [null] and
    no timer is pending, or the toast is a message and one timer is pending,
    which is due later than now and at most 1200 ms from now. *)
Theorem toast_shown_while_pending (w : Storage) (c : Clipboard) (es : list event) :
  let m := run es (mount w c) in
  mounted (react m) = true ->
  (toast (state (react m)) = VNull /\ pending (timers m) = []) \/
  (exists t, pending (timers m) = [t] /\
             timer_id t = toastTimer (refs m) /\
             clock (timers m) < due t <= clock (timers m) + 1200 /\
             JS.ToBoolean (toast (state (react m))) = true).
Proof.
  intros m Hm. destruct (reachable_Toasting w c es Hm) as [HT|(t & Hp & Hd & Hb)].
  - by left.
  - right. exists t. fold m in Hp, Hd, Hb. split; [done|]. split; [|done].
    destruct (reachable_Inv w c es) as [_ H]. fold m in H.
    destruct (inv_timer _ H) as [E|(_ & d & E)]; rewrite E in Hp; [done|].
    by injection Hp as <-.
Qed.

Lemma toast_shown_while_pending_witness :
  let m := run [ResetClicked; Elapsed 500] sample_machine in
  toast (state (react m)) = VString (str "Reset") /\
  map due (pending (timers m)) = [1200] /\ clock (timers m) = 500.
Proof.
  cbn zeta.
  destruct (toast_shown_while_pending sample_storage sample_clipboard
              [ResetClicked; Elapsed 500]) as [[A _]|_]; [reflexivity| |].
  - vm_compute in A. discriminate.
  - repeat split; vm_compute; reflexivity.
Defined.

(** X8. A toast never outlives its 1200 ms: in any state of the mounted
    component, once 1200 ms or more have passed the toast is [null] and no
    timer is pending, whatever was shown and whenever it was shown. *)
Theorem toast_gone_after_delay (w : Storage) (c : Clipboard) (es : list event) (dt : N) :
  let m := run es (mount w c) in
  mounted (react m) = true ->
  1200 <= dt ->
  let m' := step m (Elapsed dt) in
  toast (state (react m')) = VNull /\ pending (timers m') = [].
Proof.
  intros m Hm Hdt m'.
  assert (Inv m) as H by apply reachable_Inv.
  assert (mounted (react m') = true) as Hm' by (by apply step_stays_mounted).
  destruct (step_platform (Elapsed dt) m H) as (_ & T & _).
  cbn [taken needs_mounted negb orb timers_after] in T. fold m' in T.
  assert (pending (timers m') = []) as Hp.
  { rewrite T. cbn [pending].
    destruct (reachable_Toasting w c es Hm) as [[_ E]|(t & E & Hd & _)];
      fold m in E; rewrite E; [done|].
    fold m in Hd. by rewrite filter_cons_False, filter_nil by lia. }
  split; [|done].
  assert (Toasting m') as [[E _]|(t & E & _)].
  { subst m'. change (step m (Elapsed dt)) with (run [Elapsed dt] m). subst m.
    unfold run. rewrite <- fold_left_app. apply reachable_Toasting.
    unfold run. rewrite fold_left_app. exact Hm'. }
  - done.
  - by rewrite Hp in E.
Qed.

Lemma toast_gone_after_delay_witness :
  let m := run [CopyLeftClicked; Elapsed 700; ResetClicked] sample_machine in
  toast (state (react m)) = VString (str "Reset") /\
  toast (state (react (step m (Elapsed 1200)))) = VNull.
Proof.
  cbn zeta. split; [vm_compute; reflexivity|].
  apply (toast_gone_after_delay sample_storage sample_clipboard
           [CopyLeftClicked; Elapsed 700; ResetClicked] 1200); [reflexivity|lia].
Defined.

(** ** Options *)

Lemma not_differs (v : value) : JS.Object_is v (JS.not v) = false.
Proof. unfold JS.not. destruct v as [| |[]| | | |]; reflexivity. Qed.

(** X9. The two toggle buttons, in any state of the mounted component: a
    click on Side-by-side negates [renderSideBySide] in the options given to
    the diff editor and leaves [ignoreTrimWhitespace] alone, a click on Ignore
    trim does the converse; this holds whatever the state held (a value read
    from the store need not be a boolean), the state holds a boolean
    afterwards, and every click writes it to the store under the key of the
    toggle. *)
Theorem toggles_negate (w : Storage) (c : Clipboard) (es : list event) :
  let m := run es (mount w c) in
  mounted (react m) = true ->
  let st := state (react m) in
  let m1 := step m SideBySideClicked in
  let m2 := step m IgnoreTrimClicked in
  (state (react m1) = set_field SideBySide (VBool (negb (JS.ToBoolean (sideBySide st)))) st /\
   DiffOptions.renderSideBySide <$> options (state (react m1))
   = (fun o => JS.not (DiffOptions.renderSideBySide o)) <$> options st /\
   DiffOptions.ignoreTrimWhitespace <$> options (state (react m1))
   = DiffOptions.ignoreTrimWhitespace <$> options st /\
   writes m1 = writes m ++ [(str "codeDiff.sideBySide", sideBySide (state (react m1)))]) /\
  (state (react m2)
   = set_field IgnoreTrimWhitespace (VBool (negb (JS.ToBoolean (ignoreTrimWhitespace st)))) st /\
   DiffOptions.ignoreTrimWhitespace <$> options (state (react m2))
   = (fun o => JS.not (DiffOptions.ignoreTrimWhitespace o)) <$> options st /\
   DiffOptions.renderSideBySide <$> options (state (react m2))
   = DiffOptions.renderSideBySide <$> options st /\
   writes m2
   = writes m ++ [(str "codeDiff.ignoreTrimWhitespace",
                   ignoreTrimWhitespace (state (react m2)))]).
Proof.
  intros m Hm st m1 m2. subst m1 m2.
  assert (Inv m) as H by apply reachable_Inv.
  split.
  - destruct (step_mounted SideBySideClicked m H Hm) as (A & B & _). cbn zeta in A, B.
    cbn [setter_calls fold_left] in A, B. unfold apply_update in A, B.
    cbn [fst snd apply_updater get_field] in A, B. fold st in A, B.
    rewrite (effect_writes_set SideBySide (str "codeDiff.sideBySide")) in B by reflexivity.
    cbn [get_field] in B. rewrite not_differs in B.
    rewrite A, B. split; [done|].
    assert (forall v, fontSize (set_field SideBySide v st) = fontSize st) as E by done.
    unfold options. rewrite E. by destruct (JS.Number (fontSize st)).
  - destruct (step_mounted IgnoreTrimClicked m H Hm) as (A & B & _). cbn zeta in A, B.
    cbn [setter_calls fold_left] in A, B. unfold apply_update in A, B.
    cbn [fst snd apply_updater get_field] in A, B. fold st in A, B.
    rewrite (effect_writes_set IgnoreTrimWhitespace (str "codeDiff.ignoreTrimWhitespace"))
      in B by reflexivity.
    cbn [get_field] in B. rewrite not_differs in B.
    rewrite A, B. split; [done|].
    assert (forall v, fontSize (set_field IgnoreTrimWhitespace v st) = fontSize st) as E
      by done.
    unfold options. rewrite E. by destruct (JS.Number (fontSize st)).
Qed.

Lemma toggles_negate_witness :
  let m := step sample_machine SideBySideClicked in
  DiffOptions.renderSideBySide <$> options (state (react sample_machine))
    = Normal (VBool true) /\
  DiffOptions.renderSideBySide <$> options (state (react m)) = Normal (VBool false) /\
  drop 7 (writes m) = [(str "codeDiff.sideBySide", VBool false)].
Proof.
  cbn zeta.
  destruct (toggles_negate sample_storage sample_clipboard []) as [(A & O & _ & B) _];
    [reflexivity|].
  cbn zeta in A, O, B. change (run [] (mount sample_storage sample_clipboard))
    with sample_machine in A, O, B.
  rewrite O, B, A. repeat split; vm_compute; reflexivity.
Defined.

Lemma options_of_fields (a b : State) :
  sideBySide a = sideBySide b -> ignoreTrimWhitespace a = ignoreTrimWhitespace b ->
  fontSize a = fontSize b -> options a = options b.
Proof. unfold options. by intros -> -> ->. Qed.

(** X10. The options given to the diff editor change only with the three
    states they are computed from: an event other than a font size input, a
    click on one of the two toggles or a reset leaves the options as they
    are, in every state the component reaches. *)
Theorem options_change_only_by (w : Storage) (c : Clipboard) (es : list event) (e : event) :
  let m := run es (mount w c) in
  sets_option e = false ->
  options (state (react (step m e))) = options (state (react m)).
Proof.
  intros m He.
  assert (Inv m) as H by apply reachable_Inv.
  destruct (step_effects e m H) as (A & _). cbn zeta in A. rewrite A.
  destruct (mounted (react m)); [|done].
  assert (Forall (fun call : field * updater =>
                    fst call <> SideBySide /\ fst call <> IgnoreTrimWhitespace /\
                    fst call <> FontSize) (setter_calls e m)) as Hc.
  { destruct e; try discriminate; cbn [setter_calls]; try (by repeat constructor).
    - apply Forall_forall. intros call Hi. apply list_elem_of_In, repeat_spec in Hi.
      subst call. cbn. by destruct (snd ed).
    - destruct (writing (clipboard m)); by repeat constructor.
    - apply Forall_forall. intros call Hi. apply list_elem_of_fmap in Hi as (x & -> & _).
      done. }
  apply options_of_fields.
  - apply (fold_untouched SideBySide). eapply Forall_impl; [exact Hc|]. by intros ? (? & ? & ?).
  - apply (fold_untouched IgnoreTrimWhitespace). eapply Forall_impl; [exact Hc|].
    by intros ? (? & ? & ?).
  - apply (fold_untouched FontSize). eapply Forall_impl; [exact Hc|]. by intros ? (? & ? & ?).
Qed.

Lemma options_change_only_by_witness :
  options (state (react (step sample_machine (ThemeSelected (str "light")))))
  = options (state (react sample_machine)).
Proof.
  apply (options_change_only_by sample_storage sample_clipboard [] (ThemeSelected (str "light"))).
  reflexivity.
Defined.

(** X11. The language and theme selects, in any state of the mounted
    component: the selected value becomes the state, every other state stays
    as it was, and the value is written to the store under the key of the
    select, unless it is the value the state held. *)
Theorem select_is_persisted (w : Storage) (c : Clipboard) (es : list event) (v : jstring) :
  let m := run es (mount w c) in
  mounted (react m) = true ->
  let st := state (react m) in
  let m1 := step m (LanguageSelected v) in
  let m2 := step m (ThemeSelected v) in
  (state (react m1) = set_field Language (VString v) st /\
   writes m1 = writes m ++ (if JS.Object_is (language st) (VString v) then []
                            else [(str "codeDiff.language", VString v)])) /\
  (state (react m2) = set_field Theme (VString v) st /\
   writes m2 = writes m ++ (if JS.Object_is (theme st) (VString v) then []
                            else [(str "codeDiff.theme", VString v)])).
Proof.
  intros m Hm st m1 m2. subst m1 m2.
  assert (Inv m) as H by apply reachable_Inv.
  split.
  - destruct (step_mounted (LanguageSelected v) m H Hm) as (A & B & _). cbn zeta in A, B.
    cbn [setter_calls fold_left] in A, B. unfold apply_update in A, B.
    cbn [fst snd apply_updater] in A, B. fold st in A, B.
    rewrite (effect_writes_set Language (str "codeDiff.language")) in B by reflexivity.
    done.
  - destruct (step_mounted (ThemeSelected v) m H Hm) as (A & B & _). cbn zeta in A, B.
    cbn [setter_calls fold_left] in A, B. unfold apply_update in A, B.
    cbn [fst snd apply_updater] in A, B. fold st in A, B.
    rewrite (effect_writes_set Theme (str "codeDiff.theme")) in B by reflexivity.
    done.
Qed.

Lemma select_is_persisted_witness :
  let m := step sample_machine (LanguageSelected (str "python")) in
  language (state (react m)) = VString (str "python") /\
  drop 7 (writes m) = [(str "codeDiff.language", VString (str "python"))] /\
  writes (step m (LanguageSelected (str "python"))) = writes m.
Proof.
  cbn zeta.
  destruct (select_is_persisted sample_storage sample_clipboard [] (str "python"))
    as [(A & B) _]; [reflexivity|].
  cbn zeta in A, B. change (run [] (mount sample_storage sample_clipboard))
    with sample_machine in A, B.
  rewrite A, B. repeat split; vm_compute; reflexivity.
Defined.

(** ** The store over a session *)

Lemma persisted_key (p : field * jstring * value) :
  p ∈ persisted -> key_of (fst (fst p)) = Some (snd (fst p)).
Proof.
  unfold persisted. rewrite !elem_of_cons, elem_of_nil.
  intros [->|[->|[->|[->|[->|[->|[->|[]]]]]]]]; reflexivity.
Qed.

(** X12. Once the first render has completed, in every state the component
    reaches, and for each of the seven persisted states, the last
    [writeStorage] call made under its key carried the value the state has
    now: the effect of [useLocalStorageState] never lets the store calls fall
    behind the state. *)
Theorem last_write_is_state (w : Storage) (c : Clipboard) (es : list event) :
  mounted (react (mount w c)) = true ->
  let m := run es (mount w c) in
  Forall (fun p => last_write (snd (fst p)) (writes m)
                   = Some (get_field (fst (fst p)) (state (react m))))
    persisted.
Proof.
  intros Hm m. unfold persisted.
  repeat (apply List.Forall_cons; [by apply last_write_reached|]).
  apply List.Forall_nil.
Qed.

Lemma last_write_is_state_witness :
  let m := run [SwapClicked; Unmounted] sample_machine in
  last_write (str "codeDiff.original") (writes m) = Some (original (state (react m))).
Proof.
  pose proof (last_write_is_state sample_storage sample_clipboard [SwapClicked; Unmounted]
                eq_refl) as H.
  apply (proj1 (List.Forall_forall _ _) H (Original, str "codeDiff.original", SAMPLE_ORIGINAL)).
  left. reflexivity.
Defined.

(** X13. The effects write what changed and nothing else: each [writeStorage]
    call made during an event is for one of the seven persisted states, under
    its key, with the value the state has after the event, and that value is
    not the one the state had before the event.  In particular the toast is
    never written, and an event that changes no persisted state writes
    nothing.  (For [handleSwap] this is said when one of the two buffers is a
    primitive value: two arrays or objects recovered from storage are never
    the same object, whatever they hold.) *)
Theorem writes_are_changes (w : Storage) (c : Clipboard) (es : list event) (e : event) :
  let m := run es (mount w c) in
  (e = SwapClicked ->
   JS.is_primitive (original (state (react m))) || JS.is_primitive (modified (state (react m)))
   = true) ->
  let m' := step m e in
  Forall (fun kv =>
            exists p, p ∈ persisted /\ fst kv = snd (fst p) /\
                      snd kv = get_field (fst (fst p)) (state (react m')) /\
                      JS.Object_is (get_field (fst (fst p)) (state (react m))) (snd kv)
                      = false)
    (drop (length (writes m)) (writes m')) /\
  ((forall p, p ∈ persisted ->
      get_field (fst (fst p)) (state (react m')) = get_field (fst (fst p)) (state (react m))) ->
   writes m' = writes m /\ store m' = store m).
Proof.
  intros m _ m'. subst m'.
  assert (Inv m) as H by apply reachable_Inv.
  destruct (step_effects e m H) as (A & B & C). cbn zeta in A, B, C.
  rewrite <- A in B, C. split.
  - rewrite B, drop_app_length. unfold effect_writes.
    apply Forall_forall. intros kv Hkv.
    apply list_elem_of_In, in_flat_map in Hkv as (p & Hp & Hkv).
    exists p. split; [by apply list_elem_of_In|].
    destruct (JS.Object_is _ _) eqn:E; [done|].
    destruct Hkv as [<-|[]]. done.
  - intros Hsame.
    assert (effect_writes (Some (state (react m))) (state (react (step m e))) = []) as E.
    { unfold effect_writes. induction persisted as [|p l IH]; [done|].
      cbn [flat_map]. rewrite IH by (intros q Hq; apply Hsame; by right).
      rewrite (Hsame p) by left. by rewrite (proj2 (Object_is_eq _ _) eq_refl). }
    rewrite E in B, C. by rewrite app_nil_r in B.
Qed.

Lemma writes_are_changes_witness :
  let m := run [] (mount sample_storage sample_clipboard) in
  let m' := step m SwapClicked in
  Forall (fun kv =>
            exists p, p ∈ persisted /\ fst kv = snd (fst p) /\
                      snd kv = get_field (fst (fst p)) (state (react m')) /\
                      JS.Object_is (get_field (fst (fst p)) (state (react m))) (snd kv)
                      = false)
    (drop (length (writes m)) (writes m')).
Proof.
  destruct (writes_are_changes sample_storage sample_clipboard [] SwapClicked) as [A _];
    [intros _; vm_compute; reflexivity|exact A].
Defined.

(** The render completes for primitive values of the states it converts. *)
Lemma render_primitive (st : State) :
  JS.is_primitive (language st) = true -> JS.is_primitive (theme st) = true ->
  JS.is_primitive (fontSize st) = true ->
  render st = Normal tt.
Proof.
  intros Hl Ht Hf. unfold render, options.
  assert (forall v, JS.is_primitive v = true -> ReactDOM.control_value v = Normal tt) as Hc.
  { intros [| |[]|x|s|l|ms]; try discriminate; reflexivity. }
  assert (forall v, JS.is_primitive v = true -> ReactDOM.child v = Normal tt) as Hk.
  { intros [| |[]|x|s|l|ms]; try discriminate; reflexivity. }
  assert (exists n, JS.Number (fontSize st) = Normal n) as [n ->].
  { destruct (fontSize st) as [| |[]|x|s|l|ms]; try discriminate; by eexists. }
  cbn [mbind completion_bind]. by rewrite Hk, !Hc.
Qed.

(** X14. The first render: each of the seven persisted states starts as what
    [readStorage] returns for its key and its default and the toast starts as
    [null].  The render completes unless building the options or converting
    the language, the theme or the font size throws, which cannot happen when
    these three are primitive values.  When it completes, the effects write
    each of the seven values under its key once, in the order of the hooks;
    when it throws, nothing is written and nothing is mounted.  No listener
    and no timer exists yet. *)
Theorem mount_reads_store (w : Storage) (c : Clipboard) :
  let m := mount w c in
  Forall (fun p => readStorage w (snd (fst p)) (snd p)
                   = Normal (get_field (fst (fst p)) (state (react m))))
    persisted /\
  toast (state (react m)) = VNull /\
  mounted (react m) = negb (throws (render (state (react m)))) /\
  (JS.is_primitive (language (state (react m))) && JS.is_primitive (theme (state (react m)))
   && JS.is_primitive (fontSize (state (react m))) = true -> mounted (react m) = true) /\
  writes m =
    (if mounted (react m)
     then map (fun p => (snd (fst p), get_field (fst (fst p)) (state (react m)))) persisted
     else []) /\
  store m = store_after w (writes m) /\
  listeners (editors m) = [] /\
  pending (timers m) = [].
Proof.
  intros m. destruct (mount_state w c) as [Hr Ht]. fold m in Hr, Ht.
  destruct (mount_writes w c) as [Hw Hs]. fold m in Hw, Hs.
  pose proof (mount_mounted w c) as Hm. fold m in Hm.
  split; [done|]. split; [done|]. split; [done|]. split.
  - intros Hp. apply andb_prop in Hp as [Hp Hf]. apply andb_prop in Hp as [Hl Hth].
    by rewrite Hm, render_primitive.
  - split; [by rewrite Hw|]. split; [done|].
    subst m. destruct (mount_eq w c) as (st & ->). by destruct (render st).
Qed.

Lemma store_after_refused (w : Storage) (ws : list (jstring * value)) :
  access w <> Granted -> store_after w ws = w.
Proof.
  intros Ha. induction ws as [|kv ws IH]; [done|].
  change (store_after w (kv :: ws))
    with (store_after (snd (writeStorage w (fst kv) (snd kv))) ws).
  assert (snd (writeStorage w (fst kv) (snd kv)) = w) as ->; [|done].
  unfold writeStorage, localStorage.setItem, localStorage.resolve.
  by destruct (access w).
Qed.

Lemma readStorage_refused (w : Storage) (key : jstring) (fallback : value) :
  access w <> Granted -> readStorage w key fallback = Normal fallback.
Proof.
  intros Ha. unfold readStorage, localStorage.window_undefined, localStorage.getItem,
    localStorage.resolve.
  by destruct (access w).
Qed.

(** X15. Without a usable store (no [window], or storage access denied) the
    component starts from its defaults and runs as usual, and the store is
    never changed, whatever the user does. *)
Theorem storage_unavailable (w : Storage) (c : Clipboard) (es : list event) :
  access w <> Granted ->
  state (react (mount w c)) = default_state /\
  store (run es (mount w c)) = w.
Proof.
  intros Ha. split.
  - destruct (mount_state w c) as [Hr Ht]. unfold persisted in Hr.
    assert (forall a b : value, Normal a = Normal b -> a = b) as Hinj by (by intros a b [=]).
    repeat (match goal with
            | H : Forall _ (_ :: _) |- _ =>
                let Hf := fresh "Hf" in
                apply Forall_cons in H as [Hf H]; cbn [fst snd] in Hf;
                rewrite readStorage_refused in Hf by done; apply Hinj in Hf
            end).
    destruct (state (react (mount w c))) as [v1 v2 v3 v4 v5 v6 v7 v8].
    cbn [get_field original modified language theme sideBySide ignoreTrimWhitespace
           fontSize toast] in *.
    unfold default_state. by subst.
  - rewrite store_is_log. by apply store_after_refused.
Qed.

Lemma storage_unavailable_witness :
  language (state (react (mount blocked_storage sample_clipboard)))
    = VString (str "javascript") /\
  store (run [SwapClicked; ResetClicked] (mount blocked_storage sample_clipboard))
    = blocked_storage.
Proof.
  destruct (storage_unavailable blocked_storage sample_clipboard [SwapClicked; ResetClicked])
    as [A B]; [discriminate|].
  split; [by rewrite A|exact B].
Defined.

(** X16. Reloading the page: when the store can be used and every
    [writeStorage] call of the session was accepted (the quota was never
    exceeded), a component mounted on the store the session left behind
    starts with each of the seven persisted states as the session had it
    last, provided that value is one that JSON gives back; its toast is
    [null]. *)
Theorem reload_restores (w : Storage) (c c' : Clipboard) (es : list event) :
  let m := run es (mount w c) in
  access w = Granted ->
  accepted w (writes m) = true ->
  let m' := mount (store m) c' in
  Forall (fun p => json_valid (get_field (fst (fst p)) (state (react m))) = true ->
                   get_field (fst (fst p)) (state (react m'))
                   = get_field (fst (fst p)) (state (react m)))
    persisted /\
  toast (state (react m')) = VNull.
Proof.
  intros m Ha Hacc m'.
  destruct (mount_state (store m) c') as [Hr Ht]. fold m' in Hr, Ht.
  split; [|done].
  destruct (mounted (react (mount w c))) eqn:Hmount; cycle 1.
  { destruct (run_unmounted es (mount w c) (mount_Inv w c) Hmount) as (A & B & C).
    fold m in A, B, C.
    destruct (mount_writes w c) as [Hw Hs]. rewrite Hmount in Hw. rewrite Hw in Hs.
    change (store_after w []) with w in Hs. rewrite Hs in C.
    destruct (mount_state w c) as [Hr0 _]. rewrite <- A, <- C in Hr0.
    apply Forall_forall. intros p Hp _.
    rewrite Forall_forall in Hr, Hr0. specialize (Hr p Hp). specialize (Hr0 p Hp).
    rewrite Hr0 in Hr. by injection Hr. }
  assert (store m = store_after w (writes m)) as Hs by apply store_is_log.
  assert (forall p, p ∈ persisted ->
            json_valid (get_field (fst (fst p)) (state (react m))) = true ->
            readStorage (store m) (snd (fst p)) (snd p)
            = Normal (get_field (fst (fst p)) (state (react m)))) as Hread.
  { intros p Hp Hv. apply readStorage_stored; [| |done].
    - rewrite Hs. destruct (accepted_lookup (writes m) w (snd (fst p)) Hacc) as [-> _]. done.
    - rewrite Hs. destruct (accepted_lookup (writes m) w (snd (fst p)) Hacc) as [_ ->].
      unfold m.
      by rewrite (last_write_reached w c es (fst (fst p))) by (done || by apply persisted_key). }
  apply Forall_forall. intros p Hp Hv.
  rewrite Forall_forall in Hr. specialize (Hr p Hp). rewrite Hread in Hr by done.
  by injection Hr.
Qed.

Lemma reload_restores_witness :
  let es := [SwapClicked; FontSizeInput (str "18"); ThemeSelected (str "light")] in
  let m' := mount (store (run es sample_machine)) sample_clipboard in
  original (state (react m')) = SAMPLE_MODIFIED /\
  fontSize (state (react m')) = VNumber (Finite false 18 0).
Proof.
  cbn zeta.
  destruct (reload_restores sample_storage sample_clipboard sample_clipboard
              [SwapClicked; FontSizeInput (str "18"); ThemeSelected (str "light")])
    as [A _]; [reflexivity|vm_compute; reflexivity|].
  cbn zeta in A. rewrite Forall_forall in A. split.
  - etransitivity;
      [apply (A (Original, str "codeDiff.original", SAMPLE_ORIGINAL));
       [unfold persisted; left|]|];
      vm_compute; reflexivity.
  - etransitivity;
      [apply (A (FontSize, str "codeDiff.fontSize", fourteen));
       [unfold persisted; do 6 right; left|]|];
      vm_compute; reflexivity.
Defined.

(** ** Keys of the store *)

(** X18. A write under one key cannot be seen under another: [readStorage]
    for a key returns the same value before and after [writeStorage] for a
    different key, whether that write succeeds or fails. *)
Theorem writeStorage_other_key (w : Storage) (key key' : jstring) (v fallback : value) :
  key <> key' ->
  readStorage (snd (writeStorage w key v)) key' fallback = readStorage w key' fallback.
Proof.
  intros Hne. unfold writeStorage, localStorage.setItem, localStorage.resolve.
  rewrite ToString_stringify.
  destruct (access w) eqn:Ha; [done|done|].
  destruct (_ <=? _)%nat; [|done]. cbn [snd].
  unfold readStorage, localStorage.window_undefined, localStorage.getItem,
    localStorage.resolve.
  cbn [access items]. rewrite Ha. by rewrite lookup_insert_ne.
Qed.

Lemma writeStorage_other_key_witness :
  let w := store sample_machine in
  readStorage (snd (writeStorage w (str "codeDiff.theme") (VString (str "light"))))
    (str "codeDiff.language") VNull
  = Normal (VString (str "javascript")).
Proof.
  cbn zeta. rewrite writeStorage_other_key; [|vm_compute; discriminate].
  vm_compute. reflexivity.
Defined.

(** ** Resetting again *)

(** X19. [handleReset] is idempotent on the state and silent on the store the
    second time: a reset that follows a reset, after any time in between,
    leaves every buffer and option at its default, writes nothing to the
    store, and shows the toast again with a new timer of 1200 ms. *)
Theorem handleReset_again (w : Storage) (c : Clipboard) (es : list event) (dt : N) :
  let m := run es (mount w c) in
  mounted (react m) = true ->
  let m1 := step (step m ResetClicked) (Elapsed dt) in
  let m2 := step m1 ResetClicked in
  state (react m2) = state (react (step m ResetClicked)) /\
  writes m2 = writes m1 /\
  store m2 = store m1 /\
  pending (timers m2) = [toast_timer m1].
Proof.
  intros m Hm m1 m2.
  assert (Inv m) as H by apply reachable_Inv.
  assert (Inv (step m ResetClicked)) as H0 by (by apply step_Inv).
  assert (Inv m1) as H1 by (by apply step_Inv).
  assert (mounted (react m1) = true) as Hm1 by (by repeat apply step_stays_mounted).
  pose proof reset_fold as Hfold.
  assert (forall f, f <> Toast -> get_field f (state (react m1)) = get_field f reset_state)
    as Hf1.
  { intros f Hf. destruct (step_effects (Elapsed dt) (step m ResetClicked) H0) as (A & _).
    cbn zeta in A. fold m1 in A. rewrite A.
    destruct (step_mounted ResetClicked m H Hm) as (A0 & _). cbn zeta in A0.
    cbn [setter_calls] in A0. rewrite Hfold in A0. rewrite A0.
    destruct (mounted (react (step m ResetClicked))); [|done]. cbn [setter_calls].
    apply fold_untouched, Forall_forall. intros call Hc.
    apply list_elem_of_fmap in Hc as (x & -> & _). cbn. congruence. }
  destruct (step_mounted ResetClicked m1 H1 Hm1) as (A & B & C). cbn zeta in A, B, C.
  cbn [setter_calls] in A, B, C. rewrite Hfold in A, B, C. fold m2 in A, B, C.
  destruct (step_mounted ResetClicked m H Hm) as (A0 & _). cbn zeta in A0.
  cbn [setter_calls] in A0. rewrite Hfold in A0.
  rewrite effect_writes_same in B, C by (intros f Hf; symmetry; by apply Hf1).
  rewrite app_nil_r in B.
  split; [by rewrite A, A0|]. split; [done|]. split; [done|].
  destruct (step_platform ResetClicked m1 H1) as (_ & T & _).
  unfold taken in T. rewrite Hm1 in T. cbn [needs_mounted negb orb timers_after] in T.
  fold m2 in T. by rewrite T.
Qed.

Lemma handleReset_again_witness :
  let m1 := run [SwapClicked; ResetClicked; Elapsed 300] sample_machine in
  let m2 := step m1 ResetClicked in
  writes m2 = writes m1 /\ map due (pending (timers m2)) = [1500].
Proof.
  cbn zeta.
  destruct (handleReset_again sample_storage sample_clipboard [SwapClicked] 300)
    as (_ & B & _ & P); [reflexivity|].
  split; [exact B|].
  cbn zeta in P. change (run [SwapClicked] (mount sample_storage sample_clipboard))
    with (run [SwapClicked] sample_machine) in P.
  etransitivity; [exact (f_equal (map due) P)|]. vm_compute. reflexivity.
Defined.
(** ** The font size *)

Lemma truthy_number (x : number) :
  JS.ToBoolean (VNumber x) = true -> x <> NaN /\ x <> Zero false /\ x <> Zero true.
Proof. destruct x as [|neg|neg|neg d e]; cbn; intros; repeat split; congruence. Qed.

Lemma options_fontSize (st : State) :
  DiffOptions.fontSize <$> options st =
  (fun n => if JS.ToBoolean n then n else fourteen) <$> JS.Number (fontSize st).
Proof. unfold options. by destruct (JS.Number (fontSize st)). Qed.

Lemma guarded_number (x : number) :
  exists y, (if JS.ToBoolean (VNumber x) then VNumber x else fourteen) = VNumber y /\
            y <> NaN /\ y <> Zero false /\ y <> Zero true.
Proof.
  destruct (JS.ToBoolean (VNumber x)) eqn:E.
  - eexists. split; [reflexivity|]. by apply truthy_number.
  - exists (Finite false 14 0). repeat split; congruence.
Qed.

(** The number input gives the setter a finite number. *)
Lemma number_input_finite (typed : jstring) :
  Num.is_finite (JS.StringToNumber (HTML.number_input_value typed)) = true /\
  (HTML.valid_floating_point_number typed = false ->
   JS.StringToNumber (HTML.number_input_value typed) = Zero false).
Proof.
  unfold HTML.number_input_value.
  destruct (HTML.valid_floating_point_number typed) eqn:Hv; cbn [andb].
  - split; [|discriminate].
    destruct (Num.is_finite (JS.StringToNumber typed)) eqn:Hf; [exact Hf|reflexivity].
  - split; [reflexivity|reflexivity].
Qed.

(** C6, as the code has it.  The font size setter is called with
    [Number(e.target.value)], and the value of the number input is the text
    the user typed when that is a valid, finite number and the empty string
    otherwise.  The state and the store then hold that number: it is never
    [NaN], and for a text that is no number it is 0, not the default 14.  The
    default is substituted in the options given to the diff editor only,
    where [fontSize] is the number when it is truthy and 14 otherwise, so
    that a text that is no number hands 14 onward. *)
Theorem fontSize_input_coerced
    (w : Storage) (c : Clipboard) (es : list event) (typed : jstring) :
  let m := run es (mount w c) in
  mounted (react m) = true ->
  let st := state (react m) in
  let m' := step m (FontSizeInput typed) in
  let x := JS.StringToNumber (HTML.number_input_value typed) in
  state (react m') = set_field FontSize (VNumber x) st /\
  Num.is_finite x = true /\
  writes m' =
    writes m ++ (if JS.Object_is (fontSize st) (VNumber x) then []
                 else [(str "codeDiff.fontSize", VNumber x)]) /\
  DiffOptions.fontSize <$> options (state (react m'))
    = Normal (if JS.ToBoolean (VNumber x) then VNumber x else fourteen) /\
  DiffOptions.fontSize <$> options (state (react m')) <> Normal (VNumber NaN) /\
  (HTML.valid_floating_point_number typed = false ->
   x = Zero false /\
   DiffOptions.fontSize <$> options (state (react m')) = Normal fourteen).
Proof.
  intros m Hm st m' x. subst m'.
  assert (Inv m) as H by apply reachable_Inv.
  destruct (step_mounted (FontSizeInput typed) m H Hm) as (A & B & _). cbn zeta in A, B.
  cbn [setter_calls fold_left] in A, B. unfold apply_update in A, B.
  cbn [fst snd apply_updater] in A, B. fold x st in A, B.
  rewrite (effect_writes_set FontSize (str "codeDiff.fontSize")) in B by reflexivity.
  destruct (number_input_finite typed) as [Hf Hz]. fold x in Hf, Hz.
  assert (DiffOptions.fontSize <$> options (state (react (step m (FontSizeInput typed))))
          = Normal (if JS.ToBoolean (VNumber x) then VNumber x else fourteen)) as O.
  { rewrite A, options_fontSize. change (fontSize (set_field FontSize (VNumber x) st)) with (VNumber x). reflexivity. }
  split; [exact A|]. split; [exact Hf|]. split; [exact B|]. split; [exact O|]. split.
  - rewrite O. destruct (guarded_number x) as (y & -> & Hy & _). congruence.
  - intros Hv. split; [by apply Hz|]. rewrite O, (Hz Hv). reflexivity.
Qed.

Lemma fontSize_input_coerced_witness :
  let m := step sample_machine (FontSizeInput (str "1e-400")) in
  fontSize (state (react m)) = VNumber (Zero false) /\
  DiffOptions.fontSize <$> options (state (react m)) = Normal fourteen.
Proof.
  destruct (fontSize_input_coerced sample_storage sample_clipboard [] (str "1e-400") eq_refl)
    as (A & _ & _ & O & _).
  split.
  - etransitivity; [exact (f_equal fontSize A)|]. vm_compute. reflexivity.
  - etransitivity; [exact O|]. vm_compute. reflexivity.
Defined.

(** C6, as the claim states it, fails: after the text "abc", which is no
    number, the value of the input is the empty string and the state holds
    0, not 14; the store call of the render writes 0; the options carry 14.
    The same holds when the input is cleared. *)
Lemma fontSize_input_stores_zero :
  let m := step sample_machine (FontSizeInput (str "abc")) in
  state (react (step sample_machine (FontSizeInput []))) = state (react m) /\
  HTML.number_input_value (str "abc") = [] /\
  fontSize (state (react m)) = VNumber (Zero false) /\
  fontSize (state (react m)) <> fourteen /\
  last (writes m) = Some (str "codeDiff.fontSize", VNumber (Zero false)) /\
  items (store m) !! str "codeDiff.fontSize" = Some (str "0") /\
  DiffOptions.fontSize <$> options (state (react m)) = Normal fourteen.
Proof.
  cbn zeta. split; [vm_compute; reflexivity|]. split; [vm_compute; reflexivity|].
  split; [vm_compute; reflexivity|]. split; [vm_compute; discriminate|].
  repeat split; vm_compute; reflexivity.
Qed.

(** C10, as the code has it.  When [Number(fontSize)] is a number, the
    options given to the diff editor carry it when it is truthy and 14
    otherwise: a number that is neither [NaN] nor a zero.  [Number] is a
    number for every primitive value of the state; for an array or an object
    recovered from storage it can throw, and then building the options
    throws. *)
Theorem options_fontSize_guard (st : State) :
  match JS.ToNumber (fontSize st) with
  | Normal x =>
      DiffOptions.fontSize <$> options st
        = Normal (if JS.ToBoolean (VNumber x) then VNumber x else fourteen) /\
      exists y, DiffOptions.fontSize <$> options st = Normal (VNumber y) /\
                y <> NaN /\ y <> Zero false /\ y <> Zero true
  | Throw e => options st = Throw e
  end /\
  JS.is_primitive (fontSize st) && throws (JS.ToNumber (fontSize st)) = false.
Proof.
  split.
  - unfold options, JS.Number. destruct (JS.ToNumber (fontSize st)) as [x|e]; [|reflexivity].
    cbn. unfold JS.or. split; [reflexivity|]. destruct (guarded_number x) as (y & E & Hy).
    exists y. split; [|exact Hy]. by rewrite E.
  - destruct (fontSize st) as [| |b|x|s|l|ms]; try reflexivity. by destruct b.
Qed.

(** C10, as the claim states it, fails: the guard lets every truthy number
    through, so after the input "-5" the options carry the font size -5, which
    is not positive; and when the store holds an object with a property
    [toString] for the font size, [Number] throws, there are no options and
    the first render fails. *)
Lemma options_fontSize_negative :
  let m := step sample_machine (FontSizeInput (str "-5")) in
  let w := {| access := Granted;
              items := {[ str "codeDiff.fontSize" := str "{" ++ quoted "toString" ++ str ":1}" ]};
              quota := 5000 |} in
  fontSize (state (react m)) = VNumber (Finite true 5 0) /\
  DiffOptions.fontSize <$> options (state (react m)) = Normal (VNumber (Finite true 5 0)) /\
  positive_finite (VNumber (Finite true 5 0)) = false /\
  fontSize (state (react (mount w sample_clipboard)))
    = VObject [(str "toString", VNumber (Finite false 1 0))] /\
  options (state (react (mount w sample_clipboard))) = Throw TypeError /\
  mounted (react (mount w sample_clipboard)) = false.
Proof. cbn zeta. repeat split; vm_compute; reflexivity. Qed.
(** ** After the teardown *)





(** ** Later renders *)

Lemma render_parts (st : State) :
  render st = Normal tt <->
  throws (JS.Number (fontSize st)) = false /\
  ReactDOM.child (language st) = Normal tt /\
  ReactDOM.control_value (language st) = Normal tt /\
  ReactDOM.control_value (theme st) = Normal tt /\
  ReactDOM.control_value (fontSize st) = Normal tt.
Proof.
  unfold render, options.
  destruct (JS.Number (fontSize st)) as [n|]; cbn [mbind completion_bind throws];
    [|split; [discriminate|intros [? _]; discriminate]].
  destruct (ReactDOM.child (language st)) as [[]|]; cbn [mbind completion_bind];
    [|split; [discriminate|intros (_ & ? & _); discriminate]].
  destruct (ReactDOM.control_value (language st)) as [[]|]; cbn [mbind completion_bind];
    [|split; [discriminate|intros (_ & _ & ? & _); discriminate]].
  destruct (ReactDOM.control_value (theme st)) as [[]|]; cbn [mbind completion_bind];
    [|split; [discriminate|intros (_ & _ & _ & ? & _); discriminate]].
  split; [done|]. by intros (_ & _ & _ & _ & ?).
Qed.

Lemma render_set_field (f : field) (v : value) (st : State) :
  render st = Normal tt ->
  (rendered f = true -> JS.is_primitive v = true) ->
  render (set_field f v st) = Normal tt.
Proof.
  intros Hr Hv. apply render_parts in Hr as (R1 & R2 & R3 & R4 & R5). apply render_parts.
  assert (forall v, JS.is_primitive v = true -> ReactDOM.control_value v = Normal tt) as Hc.
  { intros [| |[]|x|s|l|ms]; try discriminate; reflexivity. }
  assert (forall v, JS.is_primitive v = true -> ReactDOM.child v = Normal tt) as Hk.
  { intros [| |[]|x|s|l|ms]; try discriminate; reflexivity. }
  assert (forall v, JS.is_primitive v = true -> throws (JS.Number v) = false) as Hn.
  { intros [| |[]|x|s|l|ms]; try discriminate; reflexivity. }
  destruct f; try done; specialize (Hv eq_refl).
  - change (language (set_field Language v st)) with v.
    change (theme (set_field Language v st)) with (theme st).
    change (fontSize (set_field Language v st)) with (fontSize st).
    rewrite (Hk v), (Hc v) by done. repeat split; assumption.
  - change (language (set_field Theme v st)) with (language st).
    change (theme (set_field Theme v st)) with v.
    change (fontSize (set_field Theme v st)) with (fontSize st).
    rewrite (Hc v) by done. repeat split; assumption.
  - change (language (set_field FontSize v st)) with (language st).
    change (theme (set_field FontSize v st)) with (theme st).
    change (fontSize (set_field FontSize v st)) with v.
    rewrite (Hn v), (Hc v) by done. repeat split; assumption.
Qed.

(** A setter call of an event gives a state that the render converts a
    primitive value. *)
Lemma setter_calls_primitive (e : event) (m : Machine) :
  Forall (fun c => rendered (fst c) = true ->
                   forall prev, JS.is_primitive (apply_updater (snd c) prev) = true)
    (setter_calls e m).
Proof.
  destruct e; cbn [setter_calls]; repeat constructor; try discriminate.
  - apply Forall_forall. intros c Hc. apply list_elem_of_In, repeat_spec in Hc. subst c.
    by destruct ed as [n []].
  - destruct (writing (clipboard m)); repeat constructor. discriminate.
  - apply Forall_forall. intros c Hc. apply list_elem_of_In, in_map_iff in Hc as (t & <- & _).
    discriminate.
Qed.

Lemma render_fold (calls : list (field * updater)) (st : State) :
  render st = Normal tt ->
  Forall (fun c => rendered (fst c) = true ->
                   forall prev, JS.is_primitive (apply_updater (snd c) prev) = true) calls ->
  render (fold_left apply_update calls st) = Normal tt.
Proof.
  revert st. induction calls as [|c calls IH]; intros st Hr Hc; [done|].
  apply Forall_cons in Hc as [Hc Hcs]. cbn [fold_left]. apply IH; [|done].
  apply render_set_field; [done|]. intros Hf. by apply Hc.
Qed.

(** X20. A render of the mounted component never throws: the first render
    completed, and every setter call gives the language, the theme and the
    font size a primitive value.  (This is why only the first render is
    looked at.) *)
Theorem reachable_renders (w : Storage) (c : Clipboard) (es : list event) :
  let m := run es (mount w c) in
  mounted (react m) = true ->
  render (state (react m)) = Normal tt /\
  throws (options (state (react m))) = false.
Proof.
  cbn zeta.
  assert (forall st, render st = Normal tt -> throws (options st) = false) as Ho.
  { intros st. unfold render. by destruct (options st). }
  assert (mounted (react (run es (mount w c))) = true ->
          render (state (react (run es (mount w c)))) = Normal tt) as Hr.
  { induction es as [|e es IH] using rev_ind.
    - change (run [] (mount w c)) with (mount w c). intros Hm. rewrite mount_mounted in Hm.
      destruct (render (state (react (mount w c)))) as [[]|]; [done|discriminate].
    - unfold run in *. rewrite fold_left_app. cbn [fold_left]. intros Hm.
      assert (Inv (fold_left step es (mount w c))) as H by apply reachable_Inv.
      assert (mounted (react (fold_left step es (mount w c))) = true) as Hm'.
      { destruct (step_platform e _ H) as (C & _). rewrite C in Hm. by destruct e. }
      destruct (step_mounted e _ H Hm') as (A & _). cbn zeta in A. rewrite A.
      apply render_fold; [by apply IH|apply setter_calls_primitive]. }
  intros Hm. split; [by apply Hr|by apply Ho, Hr].
Qed.

Lemma reachable_renders_witness :
  render (state (react (run [FontSizeInput (str "abc"); SwapClicked] sample_machine)))
  = Normal tt.
Proof.
  apply (reachable_renders sample_storage sample_clipboard
           [FontSizeInput (str "abc"); SwapClicked]).
  reflexivity.
Defined.
(** X21. A copy in flight.  Up to its [await], [handleCopy] changes nothing:
    the state, the timers and the store calls stay as they are and the
    clipboard write is pending, with the text the buffer had at the click.
    When the write settles, with nothing else in between, the toast, the
    clipboard and the timers are what they are when the write settles at
    once. *)
Theorem copy_in_flight (w : Storage) (c : Clipboard) (es : list event) (left : bool) :
  let m := run es (mount w c) in
  mounted (react m) = true ->
  writing (clipboard m) = [] ->
  let st := state (react m) in
  let text := if left then original st else modified st in
  let m1 := step m (if left then CopyLeftStarted else CopyRightStarted) in
  let m2 := step m1 CopySettled in
  let m' := step m (if left then CopyLeftClicked else CopyRightClicked) in
  state (react m1) = st /\
  timers m1 = timers m /\
  writes m1 = writes m /\
  clipboard m1 =
    {| permission := permission (clipboard m); content := content (clipboard m);
       writing := [text] |} /\
  state (react m2) = state (react m') /\
  timers m2 = timers m' /\
  writes m2 = writes m' /\
  clipboard m2 = clipboard m'.
Proof.
  intros m Hm Hw st text m1 m2 m'.
  assert (Inv m) as H by apply reachable_Inv.
  set (e1 := if left then CopyLeftStarted else CopyRightStarted) in *.
  set (e' := if left then CopyLeftClicked else CopyRightClicked) in *.
  assert (Inv m1) as H1 by (by apply step_Inv).
  assert (mounted (react m1) = true) as Hm1
    by (apply step_stays_mounted; [done|done|by destruct left]).
  destruct (step_mounted e1 m H Hm) as (A1 & B1 & _). cbn zeta in A1, B1.
  destruct (step_platform e1 m H) as (_ & T1 & K1).
  assert (setter_calls e1 m = []) as Hc1 by (by destruct left).
  assert (taken e1 m = true) as Ht1 by (unfold taken; rewrite Hm; by destruct left).
  rewrite Hc1 in A1, B1. rewrite Ht1 in T1, K1. cbn [fold_left] in A1, B1.
  rewrite effect_writes_same, app_nil_r in B1 by done.
  assert (timers_after e1 m = timers m) as Ha1 by (by destruct left).
  assert (clipboard_after e1 m =
          {| permission := permission (clipboard m); content := content (clipboard m);
             writing := [text] |}) as Hk1
    by (destruct left; cbn [e1 clipboard_after]; by rewrite Hw).
  rewrite Ha1 in T1. rewrite Hk1 in K1. fold m1 in A1, B1, T1, K1.
  destruct (step_mounted CopySettled m1 H1 Hm1) as (A2 & B2 & _). cbn zeta in A2, B2.
  destruct (step_platform CopySettled m1 H1) as (_ & T2 & K2).
  unfold taken in T2, K2. cbn [needs_mounted negb orb] in T2, K2.
  cbn [setter_calls timers_after clipboard_after] in A2, B2, T2, K2.
  rewrite K1 in A2, B2, T2, K2. cbn [writing fold_left permission content] in A2, B2, T2, K2.
  destruct (step_mounted e' m H Hm) as (A & B & _). cbn zeta in A, B.
  destruct (step_platform e' m H) as (_ & T & K).
  assert (setter_calls e' m = [(Toast, Assign (copy_message text m))]) as Hc
    by (by destruct left).
  assert (taken e' m = true) as Ht by (unfold taken; rewrite Hm; by destruct left).
  assert (timers_after e' m = shown_timers m) as Ha by (by destruct left).
  assert (clipboard_after e' m =
          {| permission := permission (clipboard m);
             content := match permission (clipboard m), JS.ToString text with
                        | Allowed, Normal s => s
                        | _, _ => content (clipboard m)
                        end;
             writing := writing (clipboard m) |}) as Hk by (by destruct left).
  rewrite Hc in A, B. rewrite Ht, Ha in T. rewrite Ht, Hk in K. cbn [fold_left] in A, B.
  assert (copy_message text m1 = copy_message text m) as Hmsg
    by (unfold copy_message, copy_succeeds; by rewrite K1).
  assert (shown_timers m1 = shown_timers m) as Hsh.
  { unfold shown_timers, toast_timer. by rewrite T1. }
  fold m2 in A2, B2, T2, K2. fold m' in A, B, T, K.
  rewrite Hmsg, A1 in A2, B2. rewrite Hsh in T2. rewrite B1 in B2.
  split; [exact A1|]. split; [exact T1|]. split; [exact B1|]. split; [exact K1|].
  split; [by rewrite A2, A|]. split; [by rewrite T2, T|]. split; [by rewrite B2, B|].
  rewrite K2, K, Hw. reflexivity.
Qed.

Lemma copy_in_flight_witness :
  let m1 := step sample_machine CopyLeftStarted in
  toast (state (react m1)) = VNull /\
  toast (state (react (step m1 CopySettled))) = VString (str "Copied").
Proof.
  destruct (copy_in_flight sample_storage sample_clipboard [] true eq_refl eq_refl)
    as (A & _ & _ & _ & A2 & _).
  split.
  - etransitivity; [exact (f_equal toast A)|]. vm_compute. reflexivity.
  - etransitivity; [exact (f_equal toast A2)|]. vm_compute. reflexivity.
Defined.

Lemma mount_reads_store_witness :
  mounted (react (mount sample_storage sample_clipboard)) = true /\
  length (writes (mount sample_storage sample_clipboard)) = 7%nat.
Proof.
  destruct (mount_reads_store sample_storage sample_clipboard)
    as (_ & _ & _ & M & W & _).
  cbn zeta in M, W. split.
  - apply M. vm_compute. reflexivity.
  - rewrite W, M by (vm_compute; reflexivity). reflexivity.
Defined.
